(** * Polling loops and address probe of the QT-PY quad rotary encoder scripts

    A shallow embedding of the CircuitPython scripts [qtpy_working.py],
    [qtpy_simple.py], [qtpy_fixed_pins.py], [qtpy_pullups.py],
    [qtpy_quad_rotary_script.py], [qtpy_fixed_from_sample.py],
    [qtpy_grid_sequencer.py], [qtpy_normalized_steps.py],
    [qtpy_simple_rotary.py], [qtpy_encoder_script.py] and
    [qtpy_debug_buttons.py], and of the request body that [generate]
    builds in [local_llm_tool.py].

    Every script keeps four parallel module-level lists ([encoders],
    [buttons] or [switches], [last_positions], [last_buttons]) and prints
    one line per observed transition.  The lists and the printed lines are
    the state of a small state-and-exception monad [Py]; the values the
    seesaw coprocessor returns for the property reads [.position] and
    [.value] are the input of a cycle. *)

From Stdlib Require Import ZArith String List Lia.
From Stdlib Require Import HexadecimalString.
From stdpp Require Import base list strings pretty.

Open Scope Z_scope.

(** ** Printed lines *)

(** One constructor per [print] format used inside the loops. *)
Inductive Line : Type :=
| E (index : nat) (delta : Z)        (* print(f"E{i+1}:{delta}")    *)
| E_signed (index : nat) (delta : Z) (* print(f"E{i+1}:{delta:+d}") *)
| B_PRESS (index : nat)              (* print(f"B{i+1}:PRESS")      *)
| B_RELEASE (index : nat)            (* print(f"B{i+1}:RELEASE")    *)
| Diag (text : string).              (* any other print             *)

(** Python's [{delta:+d}]: an explicit sign, also for zero. *)
Definition format_plus_d (z : Z) : string :=
  if z <? 0 then pretty z else "+" +:+ pretty z.

(** Python's [{addr:02x}]: lower-case hexadecimal, zero-padded to width 2. *)
Definition format_02x (n : nat) : string :=
  let s := NilZero.string_of_uint (Nat.to_hex_uint n) in
  if (String.length s <? 2)%nat then "0" +:+ s else s.

(** The text that reaches the console. *)
Definition render (l : Line) : string :=
  match l with
  | E idx delta => "E" +:+ pretty idx +:+ ":" +:+ pretty delta
  | E_signed idx delta => "E" +:+ pretty idx +:+ ":" +:+ format_plus_d delta
  | B_PRESS idx => "B" +:+ pretty idx +:+ ":PRESS"
  | B_RELEASE idx => "B" +:+ pretty idx +:+ ":RELEASE"
  | Diag text => text
  end.

(** The deltas of the encoder events of channel [idx] (1-based, as printed). *)
Definition encoder_deltas (idx : nat) (out : list Line) : list Z :=
  omap (fun l => match l with
                 | E j d | E_signed j d => if decide (j = idx) then Some d else None
                 | _ => None
                 end) out.

(** All encoder deltas, whatever the channel. *)
Definition all_encoder_deltas (out : list Line) : list Z :=
  omap (fun l => match l with
                 | E _ d | E_signed _ d => Some d
                 | _ => None
                 end) out.

Definition is_button_line (l : Line) : bool :=
  match l with
  | B_PRESS _ | B_RELEASE _ => true
  | _ => false
  end.

(** The button events among the printed lines, in order. *)
Definition button_lines (out : list Line) : list Line :=
  List.filter is_button_line out.

Definition sumZ (l : list Z) : Z := foldr Z.add 0 l.

(** ** The bus *)

(** What a property read on a seesaw object does: it returns a value or
    raises; [msg] is [str(e)] of the exception raised. *)
Inductive Read (A : Type) : Type :=
| Value (a : A)
| Fault (msg : string).
Arguments Value {A} a.
Arguments Fault {A} msg.

(** The reads of one channel during one cycle, should the loop reach them. *)
Record ChannelReads : Type := mkReads {
  position : Read Z;   (* encoders[i].position *)
  value : Read bool    (* buttons[i].value, switches[i].value *)
}.

(** One cycle of the bus: the reads of every channel. *)
Definition Bus : Type := nat -> ChannelReads.

(** ** Program state *)

(** A seesaw object is identified by the pin it is bound to; [None] is
    Python's [None]. *)
Definition Handle : Type := nat.

Record State : Type := mkState {
  encoders : list (option Handle);
  buttons : list (option Handle);     (* named switches in three scripts *)
  last_positions : list Z;
  last_buttons : list bool;
  stdout : list Line
}.

(** ** The monad: state, with exceptions that keep the effects done so far *)

Inductive Outcome (A : Type) : Type :=
| Normal (a : A)
| Raised (e : string).
Arguments Normal {A} a.
Arguments Raised {A} e.

Definition Py (A : Type) : Type := State -> Outcome A * State.

Definition ret {A} (a : A) : Py A := fun st => (Normal a, st).

Definition bind {A B} (m : Py A) (k : A -> Py B) : Py B :=
  fun st =>
    match m st with
    | (Normal a, st') => k a st'
    | (Raised e, st') => (Raised e, st')
    end.

Definition raise {A} (e : string) : Py A := fun st => (Raised e, st).

(** [try: body / except Exception as e: handler(str(e))] *)
Definition try_except (body : Py unit) (handler : string -> Py unit) : Py unit :=
  fun st =>
    match body st with
    | (Normal a, st') => (Normal a, st')
    | (Raised e, st') => handler e st'
    end.

Declare Scope py_scope.
Delimit Scope py_scope with py.
Notation "x <- m ;; k" := (bind m (fun x => k))
  (at level 100, m at next level, right associativity) : py_scope.
Notation "m ;; k" := (bind m (fun _ => k))
  (at level 100, right associativity) : py_scope.
Open Scope py_scope.

Definition when (c : bool) (m : Py unit) : Py unit := if c then m else ret tt.

(** [for x in l: body(x)] *)
Fixpoint for_in {A} (l : list A) (body : A -> Py unit) : Py unit :=
  match l with
  | [] => ret tt
  | x :: l' => body x ;; for_in l' body
  end.

(** [range(n)] *)
Definition range (n : nat) : list nat := seq 0 n.

(** ** Primitive statements *)

Definition print (l : Line) : Py unit :=
  fun st => (Normal tt,
             mkState (encoders st) (buttons st) (last_positions st)
                     (last_buttons st) (stdout st ++ [l])).

(** [xs[i]] as an expression: IndexError when out of range. *)
Definition getitem {A} (xs : State -> list A) (i : nat) : Py A :=
  fun st =>
    match xs st !! i with
    | Some x => (Normal x, st)
    | None => (Raised "list index out of range", st)
    end.

Definition assign_checked {A} (xs : State -> list A) (i : nat)
    (upd : State -> State) : Py unit :=
  fun st =>
    if (i <? length (xs st))%nat then (Normal tt, upd st)
    else (Raised "list assignment index out of range", st).

(** [encoders[i] = v] *)
Definition set_encoder (i : nat) (v : option Handle) : Py unit :=
  assign_checked encoders i (fun st =>
    mkState (<[i:=v]> (encoders st)) (buttons st) (last_positions st)
            (last_buttons st) (stdout st)).

(** [buttons[i] = v] *)
Definition set_button (i : nat) (v : option Handle) : Py unit :=
  assign_checked buttons i (fun st =>
    mkState (encoders st) (<[i:=v]> (buttons st)) (last_positions st)
            (last_buttons st) (stdout st)).

(** [last_positions[i] = v] *)
Definition set_last_position (i : nat) (v : Z) : Py unit :=
  assign_checked last_positions i (fun st =>
    mkState (encoders st) (buttons st) (<[i:=v]> (last_positions st))
            (last_buttons st) (stdout st)).

(** [last_buttons[i] = v] *)
Definition set_last_button (i : nat) (v : bool) : Py unit :=
  assign_checked last_buttons i (fun st =>
    mkState (encoders st) (buttons st) (last_positions st)
            (<[i:=v]> (last_buttons st)) (stdout st)).

(** The outcome of a property read on the object [h]. *)
Definition read_attr {A} (attr : string) (h : option Handle) (r : Read A) : Py A :=
  match h with
  | None => raise ("'NoneType' object has no attribute '" +:+ attr +:+ "'")
  | Some _ =>
      match r with
      | Value a => ret a
      | Fault msg => raise msg
      end
  end.

(** [encoders[i].position] *)
Definition encoder_position (bus : Bus) (i : nat) : Py Z :=
  h <- getitem encoders i ;;
  read_attr "position" h (position (bus i)).

(** [buttons[i].value] *)
Definition button_value (bus : Bus) (i : nat) : Py bool :=
  h <- getitem buttons i ;;
  read_attr "value" h (value (bus i)).

(** [a // b] on Python integers: floor division, ZeroDivisionError on 0. *)
Definition floordiv (a b : Z) : Py Z :=
  if b =? 0 then raise "integer division or modulo by zero" else ret (a / b).

(** ["No such device" in str(e)] *)
Definition contains (needle hay : string) : bool :=
  match String.index 0 needle hay with
  | Some _ => true
  | None => false
  end.

(** ** Statements shared verbatim by the scripts *)

(** The raw encoder step:
<<
    current_pos = encoders[i].position
    if current_pos != last_positions[i]:
        delta = current_pos - last_positions[i]
        print(f"E{i+1}:{delta}")
        last_positions[i] = current_pos
>> *)
Definition raw_encoder_step (bus : Bus) (i : nat) : Py unit :=
  current_pos <- encoder_position bus i ;;
  last <- getitem last_positions i ;;
  when (negb (current_pos =? last)) (
    last' <- getitem last_positions i ;;
    let delta := current_pos - last' in
    print (E (i + 1) delta) ;;
    set_last_position i current_pos).

(** The button step:
<<
    current_btn = buttons[i].value
    if current_btn != last_buttons[i]:
        if not current_btn:
            print(f"B{i+1}:PRESS")
        else:
            print(f"B{i+1}:RELEASE")
        last_buttons[i] = current_btn
>> *)
Definition button_step (bus : Bus) (i : nat) : Py unit :=
  current_btn <- button_value bus i ;;
  last <- getitem last_buttons i ;;
  when (negb (eqb current_btn last)) (
    (if negb current_btn then print (B_PRESS (i + 1))
     else print (B_RELEASE (i + 1))) ;;
    set_last_button i current_btn).

(** The guarded button step: [if buttons[i] is not None: <button step>] *)
Definition guarded_button_step (bus : Bus) (i : nat) : Py unit :=
  b <- getitem buttons i ;;
  match b with
  | Some _ => button_step bus i
  | None => ret tt
  end.

(** [while True: <cycle>; time.sleep(0.01)], unrolled over the bus
    activity of finitely many cycles; an exception that leaves a cycle
    leaves the loop. *)
Definition while_true (cycle : Bus -> Py unit) (buses : list Bus) : Py unit :=
  for_in buses cycle.

(** The lists as they stand when a loop is entered. *)
Definition loop_entry (encs btns : list (option Handle)) (lb : bool) : State :=
  mkState encs btns [0; 0; 0; 0] [lb; lb; lb; lb] [].

(** All four lists have their four slots. *)
Definition wf (st : State) : Prop :=
  length (encoders st) = 4%nat /\ length (buttons st) = 4%nat /\
  length (last_positions st) = 4%nat /\ length (last_buttons st) = 4%nat.

(** ** qtpy_quad_rotary_script.py: no exception handler at all *)
Module qtpy_quad_rotary_script.

(** Body of [for i in range(4):] (lines 41-56). *)
Definition loop_body (bus : Bus) (i : nat) : Py unit :=
  raw_encoder_step bus i ;;
  button_step bus i.

Definition cycle (bus : Bus) : Py unit := for_in (range 4) (loop_body bus).

Definition main_loop : list Bus -> Py unit := while_true cycle.

(** [last_buttons = [False, False, False, False]]; every object is built
    without a guard, on pins 12, 14, 17, 9 and 24, 25, 26, 27. *)
Definition entry : State :=
  loop_entry [Some 12; Some 14; Some 17; Some 9]%nat
             [Some 24; Some 25; Some 26; Some 27]%nat false.

End qtpy_quad_rotary_script.

(** ** qtpy_working.py: disable on "No such device", log everything *)
Module qtpy_working.

(** Lines 84-90: the [except Exception as e:] block. *)
Definition handler (i : nat) (e : string) : Py unit :=
  print (Diag ("Error reading encoder " +:+ pretty (i + 1)%nat +:+ ": " +:+ e)) ;;
  when (contains "No such device" e) (
    set_encoder i None ;;
    set_button i None ;;
    print (Diag ("Disabled encoder " +:+ pretty (i + 1)%nat))).

(** Body of [for i in range(4):] (lines 64-90). *)
Definition loop_body (bus : Bus) (i : nat) : Py unit :=
  enc <- getitem encoders i ;;
  match enc with
  | None => ret tt                                   (* continue *)
  | Some _ =>
      try_except
        (raw_encoder_step bus i ;; guarded_button_step bus i)
        (handler i)
  end.

Definition cycle (bus : Bus) : Py unit := for_in (range 4) (loop_body bus).

Definition main_loop : list Bus -> Py unit := while_true cycle.

(** [last_buttons = [False, False, False, False]] (line 30). *)
Definition entry (encs btns : list (option Handle)) : State :=
  loop_entry encs btns false.

End qtpy_working.

(** ** qtpy_simple.py: both halves guarded separately inside one try *)
Module qtpy_simple.

Definition handler (i : nat) (e : string) : Py unit :=
  if contains "No such device" e then
    print (Diag ("Disabled encoder " +:+ pretty (i + 1)%nat +:+ " (no device)")) ;;
    set_encoder i None ;;
    set_button i None
  else
    print (Diag ("Error encoder " +:+ pretty (i + 1)%nat +:+ ": " +:+ e)).

(** [if encoders[i] is not None: <raw encoder step>] *)
Definition guarded_encoder_step (bus : Bus) (i : nat) : Py unit :=
  enc <- getitem encoders i ;;
  match enc with
  | Some _ => raw_encoder_step bus i
  | None => ret tt
  end.

(** Body of [for i in range(4):] (lines 67-92). *)
Definition loop_body (bus : Bus) (i : nat) : Py unit :=
  try_except
    (guarded_encoder_step bus i ;; guarded_button_step bus i)
    (handler i).

Definition cycle (bus : Bus) : Py unit := for_in (range 4) (loop_body bus).

Definition main_loop : list Bus -> Py unit := while_true cycle.

Definition entry (encs btns : list (option Handle)) : State :=
  loop_entry encs btns false.

End qtpy_simple.

(** ** qtpy_fixed_from_sample.py: log only, [last_buttons] starts True *)
Module qtpy_fixed_from_sample.

Definition handler (i : nat) (e : string) : Py unit :=
  print (Diag ("Error reading encoder " +:+ pretty (i + 1)%nat +:+ ": " +:+ e)).

(** Body of [for i in range(4):] (lines 51-69). *)
Definition loop_body (bus : Bus) (i : nat) : Py unit :=
  try_except
    (raw_encoder_step bus i ;; button_step bus i)
    (handler i).

Definition cycle (bus : Bus) : Py unit := for_in (range 4) (loop_body bus).

Definition main_loop : list Bus -> Py unit := while_true cycle.

(** Encoders on pins 0..3, switches on pins 12, 14, 17, 9;
    [last_buttons = [True, True, True, True]] (line 44). *)
Definition entry : State :=
  loop_entry [Some 0; Some 1; Some 2; Some 3]%nat
             [Some 12; Some 14; Some 17; Some 9]%nat true.

End qtpy_fixed_from_sample.

(** ** qtpy_grid_sequencer.py: divisor-scaled, clamped steps *)
Module qtpy_grid_sequencer.

Definition ENCODER_DIVISOR : Z := 4.

(** Lines 37-55, with the divisor as a parameter:
<<
  raw_pos = encoders[i].position
  step_pos = raw_pos // ENCODER_DIVISOR
  if step_pos != last_positions[i]:
      delta = step_pos - last_positions[i]
      if delta > 1:
          delta = 1
      elif delta < -1:
          delta = -1
      print(f"E{i+1}:{delta:+d}")
      last_positions[i] = step_pos
>> *)
Definition encoder_step_with (divisor : Z) (bus : Bus) (i : nat) : Py unit :=
  raw_pos <- encoder_position bus i ;;
  step_pos <- floordiv raw_pos divisor ;;
  last <- getitem last_positions i ;;
  when (negb (step_pos =? last)) (
    last' <- getitem last_positions i ;;
    let delta := step_pos - last' in
    let delta := if delta >? 1 then 1
                 else if delta <? -1 then -1
                 else delta in
    print (E_signed (i + 1) delta) ;;
    set_last_position i step_pos).

Definition encoder_step : Bus -> nat -> Py unit :=
  encoder_step_with ENCODER_DIVISOR.

Definition handler (i : nat) (e : string) : Py unit :=
  print (Diag ("Error encoder " +:+ pretty (i + 1)%nat +:+ ": " +:+ e)).

(** Body of [for i in range(4):] (lines 36-67). *)
Definition loop_body (bus : Bus) (i : nat) : Py unit :=
  try_except
    (encoder_step bus i ;; button_step bus i)
    (handler i).

Definition cycle (bus : Bus) : Py unit := for_in (range 4) (loop_body bus).

Definition main_loop : list Bus -> Py unit := while_true cycle.

Definition entry : State :=
  loop_entry [Some 0; Some 1; Some 2; Some 3]%nat
             [Some 12; Some 14; Some 17; Some 9]%nat true.

End qtpy_grid_sequencer.

(** ** qtpy_normalized_steps.py: direction only *)
Module qtpy_normalized_steps.

(** Lines 33-47:
<<
  current_pos = encoders[i].position
  if current_pos != last_positions[i]:
      raw_delta = current_pos - last_positions[i]
      if raw_delta > 0:
          normalized_delta = 1
          print(f"E{i+1}:+1")
      else:
          normalized_delta = -1
          print(f"E{i+1}:-1")
      last_positions[i] = current_pos
>>
    The two literal lines are [E_signed] lines of delta 1 and -1. *)
Definition encoder_step (bus : Bus) (i : nat) : Py unit :=
  current_pos <- encoder_position bus i ;;
  last <- getitem last_positions i ;;
  when (negb (current_pos =? last)) (
    last' <- getitem last_positions i ;;
    let raw_delta := current_pos - last' in
    (if raw_delta >? 0 then print (E_signed (i + 1) 1)
     else print (E_signed (i + 1) (-1))) ;;
    set_last_position i current_pos).

Definition handler (i : nat) (e : string) : Py unit :=
  print (Diag ("Error encoder " +:+ pretty (i + 1)%nat +:+ ": " +:+ e)).

(** Body of [for i in range(4):] (lines 31-59). *)
Definition loop_body (bus : Bus) (i : nat) : Py unit :=
  try_except
    (encoder_step bus i ;; button_step bus i)
    (handler i).

Definition cycle (bus : Bus) : Py unit := for_in (range 4) (loop_body bus).

Definition main_loop : list Bus -> Py unit := while_true cycle.

Definition entry : State :=
  loop_entry [Some 0; Some 1; Some 2; Some 3]%nat
             [Some 12; Some 14; Some 17; Some 9]%nat true.

End qtpy_normalized_steps.

(** ** Start-up: the address probe *)

(** The state of a script while it looks for the seesaw: the variable
    [seesaw_board], the bus driver behind [i2c], and the console. *)
Record Startup (Driver Session : Type) : Type := mkStartup {
  seesaw_board : option Session;
  i2c : Driver;
  console : list Line
}.
Arguments mkStartup {Driver Session} _ _ _.
Arguments seesaw_board {Driver Session} _.
Arguments i2c {Driver Session} _.
Arguments console {Driver Session} _.

Definition say {Driver Session} (l : string) (su : Startup Driver Session)
    : Startup Driver Session :=
  mkStartup (seesaw_board su) (i2c su) (console su ++ [Diag l]).

(** A bus driver: what [adafruit_seesaw.seesaw.Seesaw(i2c, addr)] does,
    a session or a fault, together with the driver's next state. *)
Definition Opener (Driver Session : Type) : Type :=
  nat -> Driver -> Read Session * Driver.

(** A fake driver that writes down every address it is asked to open
    before it answers as [open] does. *)
Definition recording {Driver Session} (open : Opener Driver Session)
    : Opener (Driver * list nat) Session :=
  fun addr d =>
    let (r, d') := open addr (fst d) in
    (r, (d', snd d ++ [addr])).

(** ** qtpy_fixed_pins.py: probe, then disable on any error *)
Module qtpy_fixed_pins.

Section Probe.
Context {Driver Session : Type}.
Variable Seesaw : Opener Driver Session.

(** Lines 21-29:
<<
for addr in addresses:
    try:
        print(f"Trying I2C address 0x{addr:02x}")
        seesaw_board = adafruit_seesaw.seesaw.Seesaw(i2c, addr)
        print(f"Found seesaw at address 0x{addr:02x}")
        break
    except Exception as e:
        print(f"Address 0x{addr:02x} failed: {e}")
        continue
>> *)
Fixpoint probe (addresses : list nat) (su : Startup Driver Session)
    : Startup Driver Session :=
  match addresses with
  | [] => su
  | addr :: rest =>
      let su := say ("Trying I2C address 0x" +:+ format_02x addr) su in
      match Seesaw addr (i2c su) with
      | (Value s, d) =>
          say ("Found seesaw at address 0x" +:+ format_02x addr)
              (mkStartup (Some s) d (console su))          (* break *)
      | (Fault e, d) =>
          probe rest
            (say ("Address 0x" +:+ format_02x addr +:+ " failed: " +:+ e)
                 (mkStartup (seesaw_board su) d (console su)))
      end
  end.

(** [addresses = [0x36, 0x49, 0x3A, 0x3B]] *)
Definition addresses : list nat := [0x36; 0x49; 0x3A; 0x3B]%nat.

(** Lines 18-34; a result whose [seesaw_board] is [None] is the script
    idling forever in [while True: time.sleep(1)]. *)
Definition resolve (d : Driver) : Startup Driver Session :=
  let su := probe addresses (mkStartup None d []) in
  match seesaw_board su with
  | Some _ => su
  | None => say "No seesaw device found!" su
  end.
End Probe.

(** Lines 125-129: the [except Exception as e:] block. *)
Definition handler (i : nat) (e : string) : Py unit :=
  print (Diag ("Error reading encoder " +:+ pretty (i + 1)%nat +:+ ": " +:+ e)) ;;
  (* If we get persistent errors, disable this encoder *)
  set_encoder i None ;;
  set_button i None.

(** Body of [for i in range(4):] (lines 105-129). *)
Definition loop_body (bus : Bus) (i : nat) : Py unit :=
  enc <- getitem encoders i ;;
  match enc with
  | None => ret tt                                   (* continue *)
  | Some _ =>
      try_except
        (raw_encoder_step bus i ;; guarded_button_step bus i)
        (handler i)
  end.

Definition cycle (bus : Bus) : Py unit := for_in (range 4) (loop_body bus).

Definition main_loop : list Bus -> Py unit := while_true cycle.

Definition entry (encs btns : list (option Handle)) : State :=
  loop_entry encs btns false.

End qtpy_fixed_pins.

(** ** qtpy_pullups.py: the same probe over five addresses *)
Module qtpy_pullups.

Section Probe.
Context {Driver Session : Type}.
Variable Seesaw : Opener Driver Session.

(** Lines 76-83:
<<
for addr in addresses:
    try:
        print(f"Trying seesaw at 0x{addr:02x}...")
        seesaw_board = adafruit_seesaw.seesaw.Seesaw(i2c, addr)
        print(f"Connected to seesaw at 0x{addr:02x}!")
        break
    except Exception as e:
        print(f"  0x{addr:02x} failed: {e}")
>> *)
Fixpoint probe (addresses : list nat) (su : Startup Driver Session)
    : Startup Driver Session :=
  match addresses with
  | [] => su
  | addr :: rest =>
      let su := say ("Trying seesaw at 0x" +:+ format_02x addr +:+ "...") su in
      match Seesaw addr (i2c su) with
      | (Value s, d) =>
          say ("Connected to seesaw at 0x" +:+ format_02x addr +:+ "!")
              (mkStartup (Some s) d (console su))          (* break *)
      | (Fault e, d) =>
          probe rest
            (say ("  0x" +:+ format_02x addr +:+ " failed: " +:+ e)
                 (mkStartup (seesaw_board su) d (console su)))
      end
  end.

(** [addresses = [0x36, 0x49, 0x3A, 0x3B, 0x60]] *)
Definition addresses : list nat := [0x36; 0x49; 0x3A; 0x3B; 0x60]%nat.

Definition resolve (d : Driver) : Startup Driver Session :=
  let su := probe addresses (mkStartup None d []) in
  match seesaw_board su with
  | Some _ => su
  | None =>
      say "Make sure the quad rotary encoder board is properly connected"
          (say "No seesaw device found at any address!" su)
  end.
End Probe.

End qtpy_pullups.

(** * Properties *)

(** A quiet channel: the encoder rests at 0, the button is up. *)
Definition quiet : ChannelReads := mkReads (Value 0) (Value true).

(** A cycle in which only channel [i] (0-based) is touched. *)
Definition only (i : nat) (r : ChannelReads) : Bus :=
  fun j => if decide (j = i) then r else quiet.

(** The state a computation leaves behind. *)
Definition exec {A} (m : Py A) (st : State) : State := snd (m st).

(** The state after an encoder event of channel [i]: the line is printed
    and [last_positions[i]] is overwritten. *)
Definition moved (i : nat) (z : Z) (l : Line) (st : State) : State :=
  mkState (encoders st) (buttons st) (<[i:=z]> (last_positions st))
          (last_buttons st) (stdout st ++ [l]).

(** The state after a button event of channel [i]. *)
Definition toggled (i : nat) (b : bool) (l : Line) (st : State) : State :=
  mkState (encoders st) (buttons st) (last_positions st)
          (<[i:=b]> (last_buttons st)) (stdout st ++ [l]).

(** The state after both handles of channel [i] are set to [None]. *)
Definition disabled (i : nat) (st : State) : State :=
  mkState (<[i:=None]> (encoders st)) (<[i:=None]> (buttons st))
          (last_positions st) (last_buttons st) (stdout st).

(** [st] with [ls] printed after what it had on the console. *)
Definition printed (ls : list Line) (st : State) : State :=
  mkState (encoders st) (buttons st) (last_positions st) (last_buttons st)
          (stdout st ++ ls).

(** The line a button edge of channel [i] prints: PRESS when the new level
    is false, RELEASE when it is true. *)
Definition edge_line (i : nat) (b : bool) : Line :=
  if b then B_RELEASE (i + 1) else B_PRESS (i + 1).

(** The five cycles of the end-to-end scenario: channel 1 reads the raw
    positions 0, 0, 4, 4, 8 and nothing else moves. *)
Definition scenario_positions : list Bus :=
  map (fun p => only 0 (mkReads (Value p) (Value true))) [0; 0; 4; 4; 8].

(** The five cycles of the button scenario: the level of button 1 reads
    true, true, false, false, true and nothing else moves. *)
Definition scenario_levels : list Bus :=
  map (fun b => only 0 (mkReads (Value 0) (Value b)))
      [true; true; false; false; true].

(** Every handle of the four channels is present. *)
Definition all_present (st : State) : Prop :=
  forall j, (j < 4)%nat ->
    (exists h, encoders st !! j = Some (Some h)) /\
    (exists h, buttons st !! j = Some (Some h)).

(** Neither read of channel [j] raises. *)
Definition good_reads (bus : Bus) (j : nat) : Prop :=
  (exists z, position (bus j) = Value z) /\
  (exists b, value (bus j) = Value b).

(** No read of the cycle raises. *)
Definition fault_free (bus : Bus) : Prop :=
  forall j, (j < 4)%nat -> good_reads bus j.

(** A read of channel [i] raises [e] in a script that reads both halves
    unguarded: the encoder read, or the button read after it. *)
Definition bad_read (bus : Bus) (i : nat) (e : string) : Prop :=
  position (bus i) = Fault e \/
  (exists z, position (bus i) = Value z /\ value (bus i) = Fault e).

(** [m] takes every state to one related to it by [R], whether it returns
    or raises. *)
Definition preserves {A} (R : State -> State -> Prop) (m : Py A) : Prop :=
  forall st, R st (snd (m st)).

(** [m] leaves the state alone. *)
Definition pure {A} (m : Py A) : Prop := forall st, snd (m st) = st.

(** From [st] to [st'] the console only grew, and the deltas printed for
    channel [i] add up to the change of [last_positions[i]]. *)
Definition telescopes (i : nat) (st st' : State) : Prop :=
  exists new,
    stdout st' = stdout st ++ new /\
    forall l, last_positions st !! i = Some l ->
      exists l', last_positions st' !! i = Some l' /\
                 sumZ (encoder_deltas (i + 1) new) = l' - l.

(** From [st] to [st'] the console only grew, and every encoder delta
    printed meanwhile is +1 or -1. *)
Definition unit_steps (st st' : State) : Prop :=
  exists new,
    stdout st' = stdout st ++ new /\
    Forall (fun d => d = 1 \/ d = -1) (all_encoder_deltas new).

(** The four lists keep their lengths from [st] to [st']. *)
Definition same_shape (st st' : State) : Prop :=
  length (encoders st') = length (encoders st) /\
  length (buttons st') = length (buttons st) /\
  length (last_positions st') = length (last_positions st) /\
  length (last_buttons st') = length (last_buttons st).

(** Nothing that belongs to channel [j] changes from [st] to [st']. *)
Definition untouched (j : nat) (st st' : State) : Prop :=
  encoders st' !! j = encoders st !! j /\
  buttons st' !! j = buttons st !! j /\
  last_positions st' !! j = last_positions st !! j /\
  last_buttons st' !! j = last_buttons st !! j.

(** A handle of channel [j] that is [None] in [st] is [None] in [st']. *)
Definition stays_disabled (j : nat) (st st' : State) : Prop :=
  (encoders st !! j = Some None -> encoders st' !! j = Some None) /\
  (buttons st !! j = Some None -> buttons st' !! j = Some None).

(** The state after a fault-free raw encoder step of channel [i] that
    read [z] against [last_positions[i] = l]. *)
Definition after_encoder (i : nat) (z l : Z) (st : State) : State :=
  if z =? l then st else moved i z (E (i + 1) (z - l)) st.

(** The state after a fault-free button step of channel [i] that read
    [b] against [last_buttons[i] = lb]. *)
Definition after_button (i : nat) (b lb : bool) (st : State) : State :=
  if eqb b lb then st else toggled i b (edge_line i b) st.

(** The two diagnostics of qtpy_working.py's handler. *)
Definition working_error (i : nat) (e : string) : Line :=
  Diag ("Error reading encoder " +:+ pretty (i + 1)%nat +:+ ": " +:+ e).
Definition working_disabled (i : nat) : Line :=
  Diag ("Disabled encoder " +:+ pretty (i + 1)%nat).

(** The two diagnostics of qtpy_simple.py's handler. *)
Definition simple_error (i : nat) (e : string) : Line :=
  Diag ("Error encoder " +:+ pretty (i + 1)%nat +:+ ": " +:+ e).
Definition simple_disabled (i : nat) : Line :=
  Diag ("Disabled encoder " +:+ pretty (i + 1)%nat +:+ " (no device)").

(** The fault is of the device-absent kind. *)
Definition device_absent (e : string) : Prop :=
  contains "No such device" e = true.

(** Any other fault. *)
Definition transient (e : string) : Prop :=
  contains "No such device" e = false.

(** The loop body run on channel [i] returns and leaves both handles of
    the channel [None], every other channel as it was. *)
Definition disables_channel (body : Bus -> nat -> Py unit)
    (bus : Bus) (i : nat) (st : State) : Prop :=
  exists st',
    body bus i st = (Normal tt, st') /\
    encoders st' !! i = Some None /\
    buttons st' !! i = Some None /\
    (forall j, j <> i -> untouched j st st').

(** The loop body run on channel [i] returns and leaves every handle as
    it was. *)
Definition disables_nothing (body : Bus -> nat -> Py unit)
    (bus : Bus) (i : nat) (st : State) : Prop :=
  exists st',
    body bus i st = (Normal tt, st') /\
    encoders st' = encoders st /\
    buttons st' = buttons st.

(** A read of channel [i] raises [e]: the encoder read, or the button read
    after a good encoder read. *)
Definition read_fault (bus : Bus) (i : nat) (st : State) (e : string) : Prop :=
  (exists h, encoders st !! i = Some (Some h) /\ position (bus i) = Fault e) \/
  (exists h hb z,
      encoders st !! i = Some (Some h) /\ position (bus i) = Value z /\
      buttons st !! i = Some (Some hb) /\ value (bus i) = Fault e).

(** How a script whose handler tests for "No such device" treats faults:
    a device-absent fault on either read of a channel takes both halves of
    that channel down and touches no other channel, any other fault takes
    nothing down, a channel with both handles gone is skipped, and a handle
    that is gone stays gone however long the loop runs. *)
Definition coupled_disable (body : Bus -> nat -> Py unit)
    (loop : list Bus -> Py unit) : Prop :=
  (forall bus i st e,
      wf st -> (i < 4)%nat -> read_fault bus i st e -> device_absent e ->
      disables_channel body bus i st) /\
  (forall bus i st e,
      wf st -> (i < 4)%nat -> read_fault bus i st e -> transient e ->
      disables_nothing body bus i st) /\
  (forall bus i st,
      encoders st !! i = Some None -> buttons st !! i = Some None ->
      body bus i st = (Normal tt, st)) /\
  (forall buses i st, stays_disabled i st (snd (loop buses st))).

(** The spec's reading: a fault on the encoder read of a channel leaves
    the button handle of that channel as it was. *)
Definition halves_independent (body : Bus -> nat -> Py unit) : Prop :=
  forall bus i st h e,
    wf st -> (i < 4)%nat ->
    encoders st !! i = Some (Some h) -> position (bus i) = Fault e ->
    buttons (snd (body bus i st)) !! i = buttons st !! i.

(** Nothing moves on any channel. *)
Definition all_quiet : Bus := fun _ => quiet.

(** The encoder read of channel 1 finds the device gone. *)
Definition encoder1_gone : Bus :=
  only 0 (mkReads (Fault "[Errno 19] No such device") (Value true)).

(** The encoder read of channel 1 fails once, for another reason. *)
Definition encoder1_glitch : Bus :=
  only 0 (mkReads (Fault "[Errno 5] Input/output error") (Value true)).

(** Button 1 is pressed. *)
Definition button1_down : Bus := only 0 (mkReads (Value 0) (Value false)).

(** Encoder 1 is turned two ticks. *)
Definition encoder1_turned : Bus := only 0 (mkReads (Value 2) (Value true)).

(** All four channels of the standard board, as qtpy_working.py, qtpy_simple.py
    and qtpy_fixed_pins.py set them up when every pin answers. *)
Definition standard_encoders : list (option Handle) :=
  [Some 12; Some 14; Some 17; Some 9]%nat.
Definition standard_buttons : list (option Handle) :=
  [Some 24; Some 25; Some 26; Some 27]%nat.

(** Channel [j] has both its encoder and its button. *)
Definition working_channel (encs btns : list (option Handle)) (j : nat) : bool :=
  match encs !! j, btns !! j with
  | Some (Some _), Some (Some _) => true
  | _, _ => false
  end.

(** One RELEASE line for every channel of [js] that works, provided
    [last_buttons] held [lb] for it. *)
Definition releases (encs btns : list (option Handle)) (lb : bool)
    (js : list nat) : list Line :=
  flat_map (fun j => if working_channel encs btns j && negb lb
                     then [B_RELEASE (j + 1)] else []) js.

(** Every button of the cycle reads true: nobody touches one. *)
Definition buttons_up (bus : Bus) : Prop :=
  forall j, (j < 4)%nat -> value (bus j) = Value true.

(** Opening each address of [pre] in turn faults; the result is the
    driver state after the last of them. *)
Fixpoint all_fault {Driver Session} (open : Opener Driver Session)
    (pre : list nat) (d : Driver) : option Driver :=
  match pre with
  | [] => Some d
  | a :: pre' =>
      match open a d with
      | (Fault _, d') => all_fault open pre' d'
      | (Value _, _) => None
      end
  end.

(** A board that answers at 0x3A only; a session is named by its address. *)
Definition board_at_3a : Opener unit nat :=
  fun addr d =>
    if decide (addr = 0x3A)%nat then (Value addr, d)
    else (Fault "No I2C device at address", d).

(** ** Further vocabulary for whole runs *)

(** From [st] to [st'] the console only grew, and every encoder delta
    printed meanwhile satisfies [P]. *)
Definition deltas_all (P : Z -> Prop) (st st' : State) : Prop :=
  exists new,
    stdout st' = stdout st ++ new /\
    Forall P (all_encoder_deltas new).

(** The levels reported by the button events of channel [idx] (1-based, as
    printed): PRESS reports false, RELEASE reports true. *)
Definition button_levels (idx : nat) (out : list Line) : list bool :=
  omap (fun l => match l with
                 | B_PRESS j => if decide (j = idx) then Some false else None
                 | B_RELEASE j => if decide (j = idx) then Some true else None
                 | _ => None
                 end) out.

(** Every level of [ls] is the opposite of the one before it, [lb] being
    the level before the first. *)
Fixpoint alternating (lb : bool) (ls : list bool) : Prop :=
  match ls with
  | [] => True
  | b :: ls' => b = negb lb /\ alternating b ls'
  end.

(** From [st] to [st'] the console only grew, the button events printed for
    channel [i] alternate, starting opposite to [last_buttons[i]], and
    [last_buttons[i]] ends at the last level reported. *)
Definition edges_alternate (i : nat) (st st' : State) : Prop :=
  exists new,
    stdout st' = stdout st ++ new /\
    forall lb, last_buttons st !! i = Some lb ->
      alternating lb (button_levels (i + 1) new) /\
      last_buttons st' !! i = Some (List.last (button_levels (i + 1) new) lb).

(** The two handle lists are the same in [st] and [st']. *)
Definition same_handles (st st' : State) : Prop :=
  encoders st' = encoders st /\ buttons st' = buttons st.

(** [P] holds of the polling loop of each of the five scripts that print
    raw deltas. *)
Definition raw_loops (P : (list Bus -> Py unit) -> Prop) : Prop :=
  P qtpy_quad_rotary_script.main_loop /\
  P qtpy_working.main_loop /\
  P qtpy_simple.main_loop /\
  P qtpy_fixed_pins.main_loop /\
  P qtpy_fixed_from_sample.main_loop.

(** [P] holds of the polling loop of each of the seven scripts. *)
Definition all_loops (P : (list Bus -> Py unit) -> Prop) : Prop :=
  raw_loops P /\
  P qtpy_grid_sequencer.main_loop /\
  P qtpy_normalized_steps.main_loop.

(** [P] holds of the polling loop of each of the three scripts whose
    handler only prints. *)
Definition log_only_loops (P : (list Bus -> Py unit) -> Prop) : Prop :=
  P qtpy_fixed_from_sample.main_loop /\
  P qtpy_grid_sequencer.main_loop /\
  P qtpy_normalized_steps.main_loop.

(** [m] returns, whatever the state. *)
Definition never_raises (m : Py unit) : Prop :=
  forall st, fst (m st) = Normal tt.

(** Button 2 is pressed, released and pressed again over four cycles. *)
Definition press_release_press : list Bus :=
  map (fun b => only 1 (mkReads (Value 0) (Value b))) [false; false; true; false].

(** ** Start-up: the channel objects *)

(** What the seesaw answers when an object is built on one of its pins
    ([rotaryio.IncrementalEncoder(seesaw_board, pin)],
    [digitalio.DigitalIO(seesaw_board, pin)]) and when a property of the
    button object of a pin is written ([button.direction = ...],
    [button.pull = ...]): the statement returns or raises.  No script
    repeats any of these statements on the same pin. *)
Record Board : Type := mkBoard {
  IncrementalEncoder : nat -> Read unit;
  DigitalIO : nat -> Read unit;
  set_direction : nat -> Read unit;
  set_pull : nat -> Read unit
}.

(** The locals [encoder] and [button] of one turn of a set-up loop, and
    what the turn has printed so far. *)
Record Locals : Type := mkLocals {
  encoder : option Handle;
  button : option Handle;
  said : list Line
}.

(** The statements every set-up [try:] block runs, on the pins [ep] and
    [bp]; [mid] is printed after the encoder is built (qtpy_simple.py
    only), [fin] at the end.  The locals keep what was assigned before an
    exception; the second component is [str(e)] of that exception.
<<
    encoder = adafruit_seesaw.rotaryio.IncrementalEncoder(seesaw_board, ep)
    button = adafruit_seesaw.digitalio.DigitalIO(seesaw_board, bp)
    button.direction = ...
    button.pull = ...
>> *)
Definition attempt (board : Board) (ep bp : nat) (mid fin : list Line)
    (loc : Locals) : Locals * option string :=
  match IncrementalEncoder board ep with
  | Fault e => (loc, Some e)
  | Value _ =>
      let loc := mkLocals (Some ep) (button loc) (said loc ++ mid) in
      match DigitalIO board bp with
      | Fault e => (loc, Some e)
      | Value _ =>
          let loc := mkLocals (encoder loc) (Some bp) (said loc) in
          match set_direction board bp with
          | Fault e => (loc, Some e)
          | Value _ =>
              match set_pull board bp with
              | Fault e => (loc, Some e)
              | Value _ =>
                  (mkLocals (encoder loc) (button loc) (said loc ++ fin), None)
              end
          end
      end
  end.

(** [print(line)] inside a set-up turn. *)
Definition saying (l : Line) (loc : Locals) : Locals :=
  mkLocals (encoder loc) (button loc) (said loc ++ [l]).

(** [encoders.append(encoder)]; [buttons.append(button)], with what the
    turn printed. *)
Definition append_channel (loc : Locals) (st : State) : State :=
  mkState (encoders st ++ [encoder loc]) (buttons st ++ [button loc])
          (last_positions st) (last_buttons st) (stdout st ++ said loc).

(** [encoder_pins = [12, 14, 17, 9]], [button_pins = [24, 25, 26, 27]] *)
Definition encoder_pins : list nat := [12; 14; 17; 9]%nat.
Definition button_pins : list nat := [24; 25; 26; 27]%nat.

(** [sum(1 for e in encoders if e is not None)] *)
Definition count_present (hs : list (option Handle)) : nat :=
  length (List.filter (fun h => match h with Some _ => true | None => false end) hs).

(** The lists as the scripts create them, before the set-up loop:
    [encoders = []], [buttons = []], [last_positions = [0, 0, 0, 0]],
    [last_buttons = [False, False, False, False]]. *)
Definition before_setup (banner : list Line) : State :=
  mkState [] [] [0; 0; 0; 0] [false; false; false; false] banner.

(** [for i in range(4): <turn>; encoders.append(encoder); buttons.append(button)] *)
Definition setup_loop (turn : nat -> Locals) (st : State) : State :=
  fold_left (fun st i => append_channel (turn i) st) (range 4) st.

(** The read returned. *)
Definition answered {A} (r : Read A) : bool :=
  match r with Value _ => true | Fault _ => false end.

(** ** qtpy_working.py, lines 27-60 *)
Module qtpy_working_setup.

Definition setup_channel (board : Board) (i : nat) : Locals :=
  let ep := encoder_pins !!! i in
  let bp := button_pins !!! i in
  match attempt board ep bp []
          [Diag ("Encoder " +:+ pretty (i + 1)%nat +:+ " initialized on pins "
                 +:+ pretty ep +:+ "/" +:+ pretty bp)]
          (mkLocals None None []) with
  | (loc, None) => loc
  | (loc, Some e) =>
      saying (Diag ("Failed to setup encoder " +:+ pretty (i + 1)%nat +:+ ": " +:+ e)) loc
  end.

Definition setup (board : Board) : State :=
  let st := setup_loop (setup_channel board)
              (before_setup [Diag "Setting up encoders..."]) in
  printed [Diag ("Successfully initialized "
                 +:+ pretty (count_present (encoders st)) +:+ " encoders");
           Diag "QT-PY Quad Rotary Encoder Controller Ready";
           Diag "Turn encoders or press buttons to see output..."] st.

(** The script, from the set-up loop on. *)
Definition program (board : Board) (buses : list Bus) : Outcome unit * State :=
  qtpy_working.main_loop buses (setup board).

End qtpy_working_setup.

(** ** qtpy_simple.py, lines 28-63 *)
Module qtpy_simple_setup.

Definition setup_channel (board : Board) (i : nat) : Locals :=
  match attempt board (encoder_pins !!! i) (button_pins !!! i)
          [Diag ("Encoder " +:+ pretty (i + 1)%nat +:+ " setup successful")]
          [Diag ("Button " +:+ pretty (i + 1)%nat +:+ " setup successful")]
          (mkLocals None None []) with
  | (loc, None) => loc
  | (loc, Some e) =>
      saying (Diag ("Failed to setup encoder " +:+ pretty (i + 1)%nat +:+ ": " +:+ e)) loc
  end.

Definition setup (board : Board) : State :=
  let st := setup_loop (setup_channel board)
              (before_setup [Diag "Setting up encoders..."]) in
  printed [Diag ("Working: " +:+ pretty (count_present (encoders st))
                 +:+ " encoders, " +:+ pretty (count_present (buttons st))
                 +:+ " buttons");
           Diag "QT-PY Quad Rotary Encoder Controller Ready!";
           Diag "Turn encoders or press buttons to see output..."] st.

Definition program (board : Board) (buses : list Bus) : Outcome unit * State :=
  qtpy_simple.main_loop buses (setup board).

End qtpy_simple_setup.

(** ** qtpy_fixed_pins.py, lines 36-101 *)
Module qtpy_fixed_pins_setup.

Definition alt_encoder_pins : list (list nat) :=
  [[5; 6; 7; 8]; [1; 2; 3; 4]; [18; 19; 20; 21]]%nat.
Definition alt_button_pins : list (list nat) :=
  [[0; 1; 2; 3]; [10; 11; 12; 13]; [14; 15; 16; 17]]%nat.

(** Lines 77-87: the alternatives still to try, [encoder] and [button]
    being whatever earlier attempts left in them. *)
Fixpoint try_alternatives (board : Board) (i : nat) (alts : list nat)
    (loc : Locals) : Locals :=
  match alts with
  | [] => loc
  | alt_idx :: rest =>
      let ep := (alt_encoder_pins !!! alt_idx) !!! i in
      let bp := (alt_button_pins !!! alt_idx) !!! i in
      match attempt board ep bp []
              [Diag ("Encoder " +:+ pretty (i + 1)%nat
                     +:+ " setup with alternative pins "
                     +:+ pretty ep +:+ "/" +:+ pretty bp)] loc with
      | (loc, None) => loc                                  (* break *)
      | (loc, Some e2) =>
          try_alternatives board i rest
            (saying (Diag ("Alternative " +:+ pretty alt_idx
                           +:+ " failed for encoder " +:+ pretty (i + 1)%nat
                           +:+ ": " +:+ e2)) loc)
      end
  end.

(** Lines 63-87. *)
Definition setup_channel (board : Board) (i : nat) : Locals :=
  let ep := encoder_pins !!! i in
  let bp := button_pins !!! i in
  match attempt board ep bp []
          [Diag ("Encoder " +:+ pretty (i + 1)%nat +:+ " setup with pins "
                 +:+ pretty ep +:+ "/" +:+ pretty bp)]
          (mkLocals None None []) with
  | (loc, None) => loc
  | (loc, Some e) =>
      try_alternatives board i (range (length alt_encoder_pins))
        (saying (Diag ("Main pins failed for encoder " +:+ pretty (i + 1)%nat
                       +:+ ": " +:+ e)) loc)
  end.

Definition setup (board : Board) : State :=
  let st := setup_loop (setup_channel board)
              (before_setup [Diag "Setting up encoders..."]) in
  printed [Diag ("Successfully initialized "
                 +:+ pretty (count_present (encoders st)) +:+ " encoders")] st.

(** Lines 92-131: with no encoder the script prints its complaint and
    sleeps for ever; otherwise it enters the polling loop. *)
Definition program (board : Board) (buses : list Bus) : Outcome unit * State :=
  let st := setup board in
  if (count_present (encoders st) =? 0)%nat then
    (Normal tt, printed [Diag "No encoders working! Check wiring and I2C address."] st)
  else
    qtpy_fixed_pins.main_loop buses
      (printed [Diag "QT-PY Quad Rotary Encoder Controller Ready"] st).

End qtpy_fixed_pins_setup.

(** A button object never stands without the encoder object of its
    channel. *)
Definition coupled (st : State) : Prop :=
  forall j hb, buttons st !! j = Some (Some hb) ->
               exists h, encoders st !! j = Some (Some h).

(** From [st] to [st'] every handle is what it was or has become [None]. *)
Definition dwindles (st st' : State) : Prop :=
  forall j,
    (encoders st' !! j = encoders st !! j \/ encoders st' !! j = Some None) /\
    (buttons st' !! j = buttons st !! j \/ buttons st' !! j = Some None).

(** A board on which every pin answers, and one on which the button pins
    24 to 27 refuse the direction write. *)
Definition healthy_board : Board :=
  mkBoard (fun _ => Value tt) (fun _ => Value tt) (fun _ => Value tt) (fun _ => Value tt).
Definition deaf_buttons_board : Board :=
  mkBoard (fun _ => Value tt) (fun _ => Value tt)
          (fun _ => Fault "[Errno 5] Input/output error") (fun _ => Value tt).

(** The two ways a turn of the loop body can leave the handle lists. *)
Definition handles_kept_or_dropped (i : nat) (st st' : State) : Prop :=
  same_handles st st' \/
  (encoders st' = <[i:=None]> (encoders st) /\
   buttons st' = <[i:=None]> (buttons st)).

(** The pins on which qtpy_fixed_pins.py may build the encoder of channel
    [i]: the main pin, then the three alternatives. *)
Definition encoder_candidates (i : nat) : list nat :=
  encoder_pins !!! i ::
  map (fun alt => (qtpy_fixed_pins_setup.alt_encoder_pins !!! alt) !!! i) (range 3).

(** No pin of [ps] accepts an encoder. *)
Definition no_encoder_on (board : Board) (ps : list nat) : Prop :=
  Forall (fun p => answered (IncrementalEncoder board p) = false) ps.

(** A board on which encoders can be built on pins 12 and 5 only, button
    objects on pin 24 only, and no direction write goes through. *)
Definition patchy_board : Board :=
  mkBoard (fun p => if decide (p = 12 \/ p = 5)%nat then Value tt
                    else Fault "[Errno 19] No such device")
          (fun p => if decide (p = 24)%nat then Value tt
                    else Fault "[Errno 19] No such device")
          (fun _ => Fault "[Errno 5] Input/output error")
          (fun _ => Value tt).

(** In this cycle every channel that still has a handle meets a
    device-absent fault. *)
Definition unplugged (bus : Bus) (st : State) : Prop :=
  forall i, (i < 4)%nat ->
    (encoders st !! i = Some None /\ buttons st !! i = Some None) \/
    (exists e, read_fault bus i st e /\ device_absent e).

(** No channel has a handle left. *)
Definition silenced (st : State) : Prop :=
  forall i, (i < 4)%nat ->
    encoders st !! i = Some None /\ buttons st !! i = Some None.

(** The board has been pulled off the bus: every read finds no device. *)
Definition board_gone : Bus :=
  fun _ => mkReads (Fault "[Errno 19] No such device")
                   (Fault "[Errno 19] No such device").

(** ** qtpy_pullups.py, lines 122-150: faults are swallowed in silence *)
Module qtpy_pullups_polling.

(** Lines 145-148: the [except Exception as e:] block prints nothing. *)
Definition handler (i : nat) (e : string) : Py unit :=
  when (contains "No such device" e) (
    set_encoder i None ;;
    set_button i None).

(** Body of [for i in range(4):] (lines 124-148). *)
Definition loop_body (bus : Bus) (i : nat) : Py unit :=
  enc <- getitem encoders i ;;
  match enc with
  | None => ret tt                                   (* continue *)
  | Some _ =>
      try_except
        (raw_encoder_step bus i ;; guarded_button_step bus i)
        (handler i)
  end.

Definition cycle (bus : Bus) : Py unit := for_in (range 4) (loop_body bus).

Definition main_loop : list Bus -> Py unit := while_true cycle.

End qtpy_pullups_polling.

(** ** qtpy_simple_rotary.py, lines 41-63: the set-up loop appends inside
    the [try:] block *)
Module qtpy_simple_rotary_setup.

(** What one turn appends to [encoders] and to [buttons], and prints:
<<
    try:
        encoder = adafruit_seesaw.rotaryio.IncrementalEncoder(seesaw_board, encoder_pins[i])
        encoders.append(encoder)
        button = adafruit_seesaw.digitalio.DigitalIO(seesaw_board, button_pins[i])
        button.direction = adafruit_seesaw.digitalio.Direction.INPUT
        button.pull = adafruit_seesaw.digitalio.Pull.UP
        buttons.append(button)
        print(f"Encoder {i+1} initialized successfully")
    except Exception as e:
        print(f"Failed to setup encoder {i+1}: {e}")
        encoders.append(None)
        buttons.append(None)
>> *)
Definition setup_channel (board : Board) (i : nat)
    : list (option Handle) * list (option Handle) * list Line :=
  let ep := encoder_pins !!! i in
  let bp := button_pins !!! i in
  let failed e :=
    Diag ("Failed to setup encoder " +:+ pretty (i + 1)%nat +:+ ": " +:+ e) in
  match IncrementalEncoder board ep with
  | Fault e => ([None], [None], [failed e])
  | Value _ =>
      match DigitalIO board bp with
      | Fault e => ([Some ep; None], [None], [failed e])
      | Value _ =>
          match set_direction board bp with
          | Fault e => ([Some ep; None], [None], [failed e])
          | Value _ =>
              match set_pull board bp with
              | Fault e => ([Some ep; None], [None], [failed e])
              | Value _ =>
                  ([Some ep], [Some bp],
                   [Diag ("Encoder " +:+ pretty (i + 1)%nat
                          +:+ " initialized successfully")])
              end
          end
      end
  end.

Definition setup (board : Board) : State :=
  let st :=
    fold_left
      (fun st i =>
         let '(es, bs, ls) := setup_channel board i in
         mkState (encoders st ++ es) (buttons st ++ bs)
                 (last_positions st) (last_buttons st) (stdout st ++ ls))
      (range 4) (before_setup [Diag "Setting up encoders..."]) in
  printed [Diag "QT-PY Quad Rotary Encoder Controller Ready"] st.

End qtpy_simple_rotary_setup.

(** The encoder of channel [i] was built and its button was not. *)
Definition half_built (board : Board) (i : nat) : bool :=
  answered (IncrementalEncoder board (encoder_pins !!! i)) &&
  negb (answered (DigitalIO board (button_pins !!! i)) &&
        answered (set_direction board (button_pins !!! i)) &&
        answered (set_pull board (button_pins !!! i))).

(** ** qtpy_debug_buttons.py, lines 80-117: one channel, two scalars *)
Module qtpy_debug_buttons.

Record Vars : Type := mkVars {
  button3 : option Handle;       (* the button object, bound to button3_pin *)
  last_position : Z;
  last_button : option bool;     (* True if button3 else None *)
  counter : nat;
  out : list Line
}.

Definition say3 (l : Line) (v : Vars) : Vars :=
  mkVars (button3 v) (last_position v) (last_button v) (counter v) (out v ++ [l]).

(** Python's [str] of a boolean. *)
Definition str_bool (b : bool) : string := if b then "True" else "False".

(** Lines 97-115, for a button object on [pin]; only the read of
    [button3.value] can raise. *)
Definition check_button (pin : Handle) (r : Read bool) (v : Vars) : Vars :=
  match r with
  | Fault e =>
      let v := say3 (Diag ("Button read error: " +:+ e)) v in
      mkVars None (last_position v) (last_button v) (counter v) (out v)
  | Value current_btn =>
      let v :=
        if (counter v mod 1000 =? 0)%nat then
          say3 (Diag ("Button 3 state: " +:+ str_bool current_btn
                      +:+ " (pin " +:+ pretty pin +:+ ")")) v
        else v in
      if bool_decide (Some current_btn = last_button v) then v
      else
        let v :=
          if negb current_btn then
            say3 (Diag ("B3:PRESS (pin " +:+ pretty pin +:+ ")")) v
          else
            say3 (Diag ("B3:RELEASE (pin " +:+ pretty pin +:+ ")")) v in
        mkVars (button3 v) (last_position v) (Some current_btn) (counter v) (out v)
  end.

(** One turn of [while True:] (lines 88-115); the encoder read stands
    outside every [try:]. *)
Definition cycle (r : ChannelReads) (v : Vars) : Outcome unit * Vars :=
  let v := mkVars (button3 v) (last_position v) (last_button v)
                  (counter v + 1) (out v) in
  match position r with
  | Fault e => (Raised e, v)
  | Value current_pos =>
      let v :=
        if negb (current_pos =? last_position v) then
          let delta := current_pos - last_position v in
          let v := say3 (E 3 delta) v in
          mkVars (button3 v) current_pos (last_button v) (counter v) (out v)
        else v in
      match button3 v with
      | None => (Normal tt, v)
      | Some pin => (Normal tt, check_button pin (value r) v)
      end
  end.

Fixpoint main_loop (reads : list ChannelReads) (v : Vars) : Outcome unit * Vars :=
  match reads with
  | [] => (Normal tt, v)
  | r :: rest =>
      match cycle r v with
      | (Normal _, v') => main_loop rest v'
      | (Raised e, v') => (Raised e, v')
      end
  end.

(** Lines 80-86. *)
Definition entry (b3 : option Handle) : Vars :=
  mkVars b3 0 (match b3 with Some _ => Some true | None => None end) 0 [].

End qtpy_debug_buttons.

(** ** local_llm_tool.py, lines 36-49: the request body of [generate] *)
Module local_llm_tool.

(** The values [generate] puts in its payload; [T] is the type of the
    temperature, which is passed through untouched.  The payload nests one
    level deep: [options] is a dict of plain values. *)
Inductive Plain (T : Type) : Type :=
| JStr (s : string)
| JBool (b : bool)
| JInt (n : Z)
| JTemp (t : T).
Arguments JStr {T} s.
Arguments JBool {T} b.
Arguments JInt {T} n.
Arguments JTemp {T} t.

Inductive Json (T : Type) : Type :=
| JPlain (v : Plain T)
| JObj (fields : list (string * Plain T)).
Arguments JPlain {T} v.
Arguments JObj {T} fields.

(** A Python dict, in insertion order. *)
Definition Dict (V : Type) : Type := list (string * V).

(** [d.get(key)] on a dict whose keys are distinct. *)
Fixpoint get {V} (key : string) (d : Dict V) : option V :=
  match d with
  | [] => None
  | (k, v) :: d' => if String.eqb k key then Some v else get key d'
  end.

(** Python's truth value of an [Optional[str]] and of an [Optional[int]]. *)
Definition truthy_str (s : option string) : bool :=
  match s with
  | Some s => negb (String.eqb s "")
  | None => false
  end.
Definition truthy_int (n : option Z) : bool :=
  match n with
  | Some n => negb (n =? 0)
  | None => false
  end.

(** The [options] dict as it stands when the payload is posted. *)
Definition options {T} (temperature : T) (max_tokens : option Z) : Dict (Plain T) :=
  let options := [("temperature", JTemp temperature)] in
  if truthy_int max_tokens
  then options ++ [("num_predict", JInt (default 0 max_tokens))]
  else options.

(** The payload as it stands when it is posted. *)
Definition payload {T} (model prompt : string) (system : option string)
    (temperature : T) (max_tokens : option Z) : Dict (Json T) :=
  let base := [("model", JPlain (JStr model)); ("prompt", JPlain (JStr prompt));
               ("stream", JPlain (JBool false));
               ("options", JObj (options temperature max_tokens))] in
  if truthy_str system
  then base ++ [("system", JPlain (JStr (default "" system)))]
  else base.

End local_llm_tool.

(** The line is an event of the line protocol, not a diagnostic. *)
Definition is_event (l : Line) : bool :=
  match l with
  | Diag _ => false
  | _ => true
  end.

(** From [st] to [st'] the console only grew, by events. *)
Definition events_only (st st' : State) : Prop :=
  exists new,
    stdout st' = stdout st ++ new /\
    Forall (fun l => is_event l = true) new.

(** The deltas of the "E3" lines of qtpy_debug_buttons.py. *)
Definition e3_deltas (ls : list Line) : list Z :=
  omap (fun l => match l with E 3 d => Some d | _ => None end) ls.

(** ** qtpy_encoder_script.py: four encoders on the board's own pins *)
Module qtpy_encoder_script.

(** Body of [for i in range(4):] (lines 46-61); no [try:] anywhere. *)
Definition loop_body (bus : Bus) (i : nat) : Py unit :=
  raw_encoder_step bus i ;;
  button_step bus i.

Definition cycle (bus : Bus) : Py unit := for_in (range 4) (loop_body bus).

Definition main_loop : list Bus -> Py unit := while_true cycle.

(** Lines 36-40: [last_buttons = [True, True, True, True]]; the objects
    [enc1] to [enc4] and [btn1] to [btn4], built without a guard on the
    board's own pins, are numbered 1 to 4. *)
Definition entry : State :=
  loop_entry [Some 1; Some 2; Some 3; Some 4]%nat
             [Some 1; Some 2; Some 3; Some 4]%nat true.

End qtpy_encoder_script.

(** Nothing is turned and nothing is pressed: every encoder stands at 0
    and every pulled-up button reads true. *)
Definition at_rest (bus : Bus) : Prop :=
  forall j, (j < 4)%nat ->
    position (bus j) = Value 0 /\ value (bus j) = Value true.

(** Nothing is touched over two cycles, then button 3 is pressed. *)
Definition rest_rest_press3 : list Bus :=
  [fun _ => mkReads (Value 0) (Value true);
   fun _ => mkReads (Value 0) (Value true);
   fun j => mkReads (Value 0) (Value (negb (j =? 2)%nat))].

(** ** qtpy_simple_rotary.py, lines 67-92: the loop only logs *)
Module qtpy_simple_rotary.

(** Lines 89-90: the [except Exception as e:] block. *)
Definition handler (i : nat) (e : string) : Py unit :=
  print (Diag ("Error reading encoder " +:+ pretty (i + 1)%nat +:+ ": " +:+ e)).

(** Body of [for i in range(4):] (lines 68-90). *)
Definition loop_body (bus : Bus) (i : nat) : Py unit :=
  enc <- getitem encoders i ;;
  match enc with
  | None => ret tt                                   (* continue *)
  | Some _ =>
      try_except
        (raw_encoder_step bus i ;; guarded_button_step bus i)
        (handler i)
  end.

Definition cycle (bus : Bus) : Py unit := for_in (range 4) (loop_body bus).

Definition main_loop : list Bus -> Py unit := while_true cycle.

(** The script from line 41 on: the set-up loop, then the polling loop. *)
Definition program (board : Board) (buses : list Bus) : Outcome unit * State :=
  main_loop buses (qtpy_simple_rotary_setup.setup board).

End qtpy_simple_rotary.

(** In qtpy_simple.py the button of channel [i] is read though the channel
    has no encoder, and the read raises [e]. *)
Definition button_only_fault (bus : Bus) (i : nat) (st : State) (e : string) : Prop :=
  exists hb,
    encoders st !! i = Some None /\
    buttons st !! i = Some (Some hb) /\
    value (bus i) = Fault e.

(** The button read of channel 1 finds the device gone, the encoder read
    before it was good. *)
Definition button1_gone : Bus :=
  only 0 (mkReads (Value 0) (Fault "[Errno 19] No such device")).

(** Split the conjunctions of the goal, and nothing else. *)
Ltac conj := repeat match goal with |- _ /\ _ => split end.

(** ** Equations of the primitives *)
Section Primitives.
Variables (bus : Bus) (i : nat) (st : State).

Lemma bind_normal {A B} (m : Py A) (k : A -> Py B) a st' :
  m st = (Normal a, st') -> bind m k st = k a st'.
Proof. intros H. unfold bind. now rewrite H. Qed.

Lemma bind_raised {A B} (m : Py A) (k : A -> Py B) e st' :
  m st = (Raised e, st') -> bind m k st = (Raised e, st').
Proof. intros H. unfold bind. now rewrite H. Qed.

Lemma try_normal body handler st' :
  body st = (Normal tt, st') -> try_except body handler st = (Normal tt, st').
Proof. intros H. unfold try_except. now rewrite H. Qed.

Lemma try_raised body handler e st' :
  body st = (Raised e, st') -> try_except body handler st = handler e st'.
Proof. intros H. unfold try_except. now rewrite H. Qed.

Lemma getitem_some {A} (xs : State -> list A) x :
  xs st !! i = Some x -> getitem xs i st = (Normal x, st).
Proof. intros H. unfold getitem. now rewrite H. Qed.

Lemma set_last_position_ok v :
  (i < length (last_positions st))%nat ->
  set_last_position i v st =
  (Normal tt, mkState (encoders st) (buttons st) (<[i:=v]> (last_positions st))
                      (last_buttons st) (stdout st)).
Proof.
  intros H. unfold set_last_position, assign_checked.
  destruct (Nat.ltb_spec i (length (last_positions st))); [reflexivity | lia].
Qed.

Lemma set_last_button_ok v :
  (i < length (last_buttons st))%nat ->
  set_last_button i v st =
  (Normal tt, mkState (encoders st) (buttons st) (last_positions st)
                      (<[i:=v]> (last_buttons st)) (stdout st)).
Proof.
  intros H. unfold set_last_button, assign_checked.
  destruct (Nat.ltb_spec i (length (last_buttons st))); [reflexivity | lia].
Qed.

Lemma set_encoder_ok v :
  (i < length (encoders st))%nat ->
  set_encoder i v st =
  (Normal tt, mkState (<[i:=v]> (encoders st)) (buttons st) (last_positions st)
                      (last_buttons st) (stdout st)).
Proof.
  intros H. unfold set_encoder, assign_checked.
  destruct (Nat.ltb_spec i (length (encoders st))); [reflexivity | lia].
Qed.

Lemma set_button_ok v :
  (i < length (buttons st))%nat ->
  set_button i v st =
  (Normal tt, mkState (encoders st) (<[i:=v]> (buttons st)) (last_positions st)
                      (last_buttons st) (stdout st)).
Proof.
  intros H. unfold set_button, assign_checked.
  destruct (Nat.ltb_spec i (length (buttons st))); [reflexivity | lia].
Qed.

Lemma encoder_position_value h z :
  encoders st !! i = Some (Some h) -> position (bus i) = Value z ->
  encoder_position bus i st = (Normal z, st).
Proof.
  intros He Hp. unfold encoder_position.
  rewrite (bind_normal _ _ _ _ (getitem_some encoders _ He)).
  simpl. now rewrite Hp.
Qed.

Lemma encoder_position_fault h msg :
  encoders st !! i = Some (Some h) -> position (bus i) = Fault msg ->
  encoder_position bus i st = (Raised msg, st).
Proof.
  intros He Hp. unfold encoder_position.
  rewrite (bind_normal _ _ _ _ (getitem_some encoders _ He)).
  simpl. now rewrite Hp.
Qed.

Lemma button_value_value h b :
  buttons st !! i = Some (Some h) -> value (bus i) = Value b ->
  button_value bus i st = (Normal b, st).
Proof.
  intros He Hp. unfold button_value.
  rewrite (bind_normal _ _ _ _ (getitem_some buttons _ He)).
  simpl. now rewrite Hp.
Qed.

Lemma button_value_fault h msg :
  buttons st !! i = Some (Some h) -> value (bus i) = Fault msg ->
  button_value bus i st = (Raised msg, st).
Proof.
  intros He Hp. unfold button_value.
  rewrite (bind_normal _ _ _ _ (getitem_some buttons _ He)).
  simpl. now rewrite Hp.
Qed.

(** A fault-free raw encoder step. *)
Lemma raw_encoder_step_value h z l :
  encoders st !! i = Some (Some h) ->
  last_positions st !! i = Some l ->
  position (bus i) = Value z ->
  raw_encoder_step bus i st =
  (Normal tt, if z =? l then st else moved i z (E (i + 1) (z - l)) st).
Proof.
  intros He Hl Hp. unfold raw_encoder_step.
  rewrite (bind_normal _ _ _ _ (encoder_position_value _ _ He Hp)).
  rewrite (bind_normal _ _ _ _ (getitem_some last_positions _ Hl)).
  destruct (z =? l); simpl; [reflexivity |].
  rewrite (bind_normal _ _ _ _ (getitem_some last_positions _ Hl)).
  unfold bind, print, set_last_position, assign_checked. simpl.
  apply lookup_lt_Some in Hl.
  destruct (Nat.ltb_spec i (length (last_positions st))); [reflexivity | lia].
Qed.

Lemma raw_encoder_step_fault h msg :
  encoders st !! i = Some (Some h) ->
  position (bus i) = Fault msg ->
  raw_encoder_step bus i st = (Raised msg, st).
Proof.
  intros He Hp. unfold raw_encoder_step.
  now rewrite (bind_raised _ _ _ _ (encoder_position_fault _ _ He Hp)).
Qed.

(** A fault-free button step. *)
Lemma button_step_value h b l :
  buttons st !! i = Some (Some h) ->
  last_buttons st !! i = Some l ->
  value (bus i) = Value b ->
  button_step bus i st =
  (Normal tt, if eqb b l then st else toggled i b (edge_line i b) st).
Proof.
  intros He Hl Hp. unfold button_step.
  rewrite (bind_normal _ _ _ _ (button_value_value _ _ He Hp)).
  rewrite (bind_normal _ _ _ _ (getitem_some last_buttons _ Hl)).
  destruct (eqb b l); simpl; [reflexivity |].
  apply lookup_lt_Some in Hl.
  unfold edge_line.
  destruct b; unfold bind, print, set_last_button, assign_checked; simpl;
    destruct (Nat.ltb_spec i (length (last_buttons st))); (reflexivity || lia).
Qed.

Lemma button_step_fault h msg :
  buttons st !! i = Some (Some h) ->
  value (bus i) = Fault msg ->
  button_step bus i st = (Raised msg, st).
Proof.
  intros He Hp. unfold button_step.
  now rewrite (bind_raised _ _ _ _ (button_value_fault _ _ He Hp)).
Qed.

Lemma guarded_button_step_none :
  buttons st !! i = Some None -> guarded_button_step bus i st = (Normal tt, st).
Proof.
  intros H. unfold guarded_button_step.
  now rewrite (bind_normal _ _ _ _ (getitem_some buttons _ H)).
Qed.

Lemma guarded_button_step_some h :
  buttons st !! i = Some (Some h) ->
  guarded_button_step bus i st = button_step bus i st.
Proof.
  intros H. unfold guarded_button_step.
  now rewrite (bind_normal _ _ _ _ (getitem_some buttons _ H)).
Qed.
End Primitives.

(** ** The divisor-scaled encoder step *)
Section DivisorScaled.
Import qtpy_grid_sequencer.
Variables (bus : Bus) (i : nat) (st : State).

(** A fault-free divisor-scaled step, whatever the non-zero divisor. *)
Lemma encoder_step_with_value D h p l :
  D <> 0 ->
  encoders st !! i = Some (Some h) ->
  last_positions st !! i = Some l ->
  position (bus i) = Value p ->
  encoder_step_with D bus i st =
  (Normal tt,
   if p / D =? l then st
   else moved i (p / D)
          (E_signed (i + 1)
             (if p / D - l >? 1 then 1
              else if p / D - l <? -1 then -1 else p / D - l)) st).
Proof.
  intros HD He Hl Hp. unfold encoder_step_with.
  rewrite (bind_normal _ _ _ _ _ (encoder_position_value _ _ _ _ _ He Hp)).
  unfold floordiv. destruct (Z.eqb_spec D 0) as [|_]; [contradiction |].
  unfold bind at 1, ret at 1.
  rewrite (bind_normal _ _ _ _ _ (getitem_some _ _ last_positions _ Hl)).
  destruct (p / D =? l); simpl; [reflexivity |].
  rewrite (bind_normal _ _ _ _ _ (getitem_some _ _ last_positions _ Hl)).
  apply lookup_lt_Some in Hl.
  unfold bind, print, set_last_position, assign_checked. simpl.
  destruct (Nat.ltb_spec i (length (last_positions st))); [reflexivity | lia].
Qed.
End DivisorScaled.

(** C2: under the divisor-scaled policy the position is divided by [D]
    before differencing and the difference is clamped to +1 or -1, a raw
    jump of [k*D] ticks gives exactly one event of the sign of [k], and
    [last_positions[i]] becomes the divided position; on the raw positions
    0, 0, 4, 4, 8 with divisor 4 the loop prints "E1:+1" at the third and at
    the fifth cycle and nothing else, and leaves [last_positions[0] = 2]. *)
Theorem divisor_scaled_single_step :
  (forall D bus i st h p l,
      D <> 0 ->
      encoders st !! i = Some (Some h) ->
      last_positions st !! i = Some l ->
      position (bus i) = Value p ->
      (p / D = l ->
       qtpy_grid_sequencer.encoder_step_with D bus i st = (Normal tt, st)) /\
      (p / D <> l ->
       exists delta,
         (delta = 1 \/ delta = -1) /\
         (delta = 1 <-> l < p / D) /\
         qtpy_grid_sequencer.encoder_step_with D bus i st =
         (Normal tt, moved i (p / D) (E_signed (i + 1) delta) st))) /\
  (forall D bus i st h raw k,
      D <> 0 -> k <> 0 ->
      encoders st !! i = Some (Some h) ->
      last_positions st !! i = Some (raw / D) ->
      position (bus i) = Value (raw + k * D) ->
      qtpy_grid_sequencer.encoder_step_with D bus i st =
      (Normal tt, moved i (raw / D + k) (E_signed (i + 1) (Z.sgn k)) st)) /\
  (let run n := qtpy_grid_sequencer.main_loop (take n scenario_positions)
                  qtpy_grid_sequencer.entry in
   map (fun n => map render (stdout (snd (run n)))) [0; 1; 2; 3; 4; 5]%nat =
     [[]; []; []; ["E1:+1"]; ["E1:+1"]; ["E1:+1"; "E1:+1"]] /\
   fst (run 5%nat) = Normal tt /\
   last_positions (snd (run 5%nat)) = [2; 0; 0; 0]).
Proof.
  split; [| split].
  - intros D bus i st h p l HD He Hl Hp.
    rewrite (encoder_step_with_value bus i st D h p l HD He Hl Hp).
    split.
    + intros ->. now rewrite Z.eqb_refl.
    + intros Hne. destruct (Z.eqb_spec (p / D) l) as [|_]; [contradiction |].
      destruct (Z.gtb_spec (p / D - l) 1).
      * exists 1. repeat split; auto; lia.
      * destruct (Z.ltb_spec (p / D - l) (-1)).
        -- exists (-1). repeat split; auto; lia.
        -- assert (p / D - l = 1 \/ p / D - l = -1) as [Hd | Hd] by lia;
             rewrite Hd; [exists 1 | exists (-1)]; repeat split; auto; lia.
  - intros D bus i st h raw k HD Hk He Hl Hp.
    rewrite (encoder_step_with_value bus i st D h _ _ HD He Hl Hp).
    rewrite Z.div_add by assumption.
    destruct (Z.eqb_spec (raw / D + k) (raw / D)) as [|_]; [lia |].
    replace (raw / D + k - raw / D) with k by lia.
    destruct (Z.gtb_spec k 1).
    + now rewrite Z.sgn_pos by lia.
    + destruct (Z.ltb_spec k (-1)).
      * now rewrite Z.sgn_neg by lia.
      * assert (k = 1 \/ k = -1) as [-> | ->] by lia; reflexivity.
  - vm_compute. repeat split.
Qed.

(** The jump of [2 * 4] raw ticks from 3 on channel 1: one "E1:+1". *)
Lemma divisor_scaled_single_step_witness :
  let st := mkState [Some 0%nat] [Some 12%nat] [0] [true] [] in
  qtpy_grid_sequencer.encoder_step_with 4
    (only 0 (mkReads (Value (3 + 2 * 4)) (Value true))) 0 st =
  (Normal tt, moved 0 (3 / 4 + 2) (E_signed (0 + 1) (Z.sgn 2)) st).
Proof.
  intros st.
  apply (proj1 (proj2 divisor_scaled_single_step) 4 _ 0%nat st 0%nat 3 2);
    [lia | lia | reflexivity | reflexivity | reflexivity].
Defined.

(** C10: the divided position is the floor of raw / 4, so the steps are
    not symmetric around zero: from raw 0 (divided 0) one raw tick down to
    -1 moves the divided position to -1 and prints an event of -1, while
    the raw positions 1, 2 and 3 leave it at 0 and print nothing. *)
Theorem floor_division_asymmetric :
  forall bus i st h,
    encoders st !! i = Some (Some h) ->
    last_positions st !! i = Some 0 ->
    (forall p s,
        position (bus i) = Value p ->
        last_positions
          (snd (qtpy_grid_sequencer.encoder_step bus i st)) !! i = Some s ->
        4 * s <= p < 4 * s + 4) /\
    (position (bus i) = Value (-1) ->
     qtpy_grid_sequencer.encoder_step bus i st =
     (Normal tt, moved i (-1) (E_signed (i + 1) (-1)) st) /\
     render (E_signed (i + 1) (-1)) = "E" +:+ pretty (i + 1)%nat +:+ ":-1") /\
    (forall p, 1 <= p <= 3 ->
        position (bus i) = Value p ->
        qtpy_grid_sequencer.encoder_step bus i st = (Normal tt, st)).
Proof.
  intros bus i st h He Hl.
  assert (HD : qtpy_grid_sequencer.ENCODER_DIVISOR <> 0) by discriminate.
  pose proof (fun p => encoder_step_with_value bus i st _ h p 0 HD He Hl) as Hs.
  unfold qtpy_grid_sequencer.encoder_step.
  change qtpy_grid_sequencer.ENCODER_DIVISOR with 4 in *.
  split; [| split].
  - intros p s Hp. rewrite (Hs p Hp). simpl.
    pose proof (Z.mul_div_le p 4 ltac:(lia)).
    pose proof (Z.mul_succ_div_gt p 4 ltac:(lia)).
    destruct (Z.eqb_spec (p / 4) 0) as [Hz |]; simpl.
    + rewrite Hl. intros [= <-]. lia.
    + rewrite list_lookup_insert_eq by (now apply lookup_lt_Some in Hl).
      intros [= <-]. lia.
  - intros Hp. rewrite (Hs _ Hp). split; reflexivity.
  - intros p Hr Hp. rewrite (Hs _ Hp).
    assert (p / 4 = 0) as -> by (apply Z.div_small; lia).
    reflexivity.
Qed.

(** Channel 1 of the sequencer at rest, nudged to raw position 2. *)
Lemma floor_division_asymmetric_witness :
  qtpy_grid_sequencer.encoder_step
    (only 0 (mkReads (Value 2) (Value true))) 0 qtpy_grid_sequencer.entry =
  (Normal tt, qtpy_grid_sequencer.entry).
Proof.
  apply (proj2 (proj2 (floor_division_asymmetric
           (only 0 (mkReads (Value 2) (Value true))) 0%nat
           qtpy_grid_sequencer.entry 0%nat eq_refl eq_refl)) 2);
    [lia | reflexivity].
Defined.

(** ** Relational invariants of computations *)
Section Logic.
Variable R : State -> State -> Prop.
Hypothesis R_refl : forall st, R st st.
Hypothesis R_trans : forall a b c, R a b -> R b c -> R a c.

Lemma preserves_pure {A} (m : Py A) : pure m -> preserves R m.
Proof. intros H st. rewrite H. apply R_refl. Qed.

Lemma preserves_bind {A B} (m : Py A) (k : A -> Py B) :
  preserves R m -> (forall a, preserves R (k a)) -> preserves R (bind m k).
Proof.
  intros Hm Hk st. unfold bind. specialize (Hm st).
  destruct (m st) as [[a | e] st1]; simpl in *; [| assumption].
  eapply R_trans; [eassumption | apply Hk].
Qed.

Lemma preserves_try body handler :
  preserves R body -> (forall e, preserves R (handler e)) ->
  preserves R (try_except body handler).
Proof.
  intros Hm Hk st. unfold try_except. specialize (Hm st).
  destruct (body st) as [[a | e] st1]; simpl in *; [assumption |].
  eapply R_trans; [eassumption | apply Hk].
Qed.

Lemma preserves_when c m : preserves R m -> preserves R (when c m).
Proof. intros Hm. destruct c; simpl; [assumption |]. intros st. apply R_refl. Qed.

Lemma preserves_for_in {A} (l : list A) body :
  (forall x, preserves R (body x)) -> preserves R (for_in l body).
Proof.
  intros Hb. induction l as [| x l IH]; simpl.
  - intros st. apply R_refl.
  - apply preserves_bind; [apply Hb | intros _; exact IH].
Qed.

Lemma preserves_for_in_elem {A} (l : list A) body :
  (forall x, x ∈ l -> preserves R (body x)) -> preserves R (for_in l body).
Proof.
  induction l as [| x l IH]; intros Hb; simpl.
  - intros st. apply R_refl.
  - apply preserves_bind; [apply Hb; left | intros _; apply IH].
    intros y Hy. apply Hb. now right.
Qed.

Lemma preserves_assign {A} (xs : State -> list A) i upd :
  (forall st, R st (upd st)) -> preserves R (assign_checked xs i upd).
Proof.
  intros H st. unfold assign_checked.
  destruct (i <? length (xs st))%nat; simpl; [apply H | apply R_refl].
Qed.
End Logic.

Lemma pure_ret {A} (a : A) : pure (ret a).
Proof. intros st. reflexivity. Qed.

Lemma pure_raise {A} e : pure (@raise A e).
Proof. intros st. reflexivity. Qed.

Lemma pure_getitem {A} (xs : State -> list A) i : pure (getitem xs i).
Proof. intros st. unfold getitem. now destruct (xs st !! i). Qed.

Lemma pure_read_attr {A} attr h (r : Read A) : pure (read_attr attr h r).
Proof. intros st. unfold read_attr. now destruct h, r. Qed.

Lemma pure_bind {A B} (m : Py A) (k : A -> Py B) :
  pure m -> (forall a, pure (k a)) -> pure (bind m k).
Proof.
  intros Hm Hk st. unfold bind. specialize (Hm st).
  destruct (m st) as [[a | e] st1]; simpl in *; subst; [apply Hk | reflexivity].
Qed.

Lemma pure_encoder_position bus i : pure (encoder_position bus i).
Proof.
  apply pure_bind; [apply pure_getitem | intros h; apply pure_read_attr].
Qed.

Lemma pure_button_value bus i : pure (button_value bus i).
Proof.
  apply pure_bind; [apply pure_getitem | intros h; apply pure_read_attr].
Qed.

Lemma pure_floordiv a b : pure (floordiv a b).
Proof. intros st. unfold floordiv. now destruct (b =? 0). Qed.

(** ** The raw policy: the printed deltas telescope *)
Section Telescope.
Variable i : nat.

Lemma telescopes_refl st : telescopes i st st.
Proof.
  exists []. split; [now rewrite app_nil_r |].
  intros l Hl. exists l. split; [assumption | simpl; lia].
Qed.

Lemma sumZ_app l1 l2 : sumZ (l1 ++ l2) = sumZ l1 + sumZ l2.
Proof. unfold sumZ. induction l1; simpl; lia. Qed.

Lemma encoder_deltas_app idx l1 l2 :
  encoder_deltas idx (l1 ++ l2) = encoder_deltas idx l1 ++ encoder_deltas idx l2.
Proof. unfold encoder_deltas. apply omap_app. Qed.

Lemma telescopes_trans a b c :
  telescopes i a b -> telescopes i b c -> telescopes i a c.
Proof.
  intros (n1 & H1 & S1) (n2 & H2 & S2). exists (n1 ++ n2). split.
  - now rewrite H2, H1, app_assoc.
  - intros l Hl. destruct (S1 l Hl) as (l1 & Hl1 & E1).
    destruct (S2 l1 Hl1) as (l2 & Hl2 & E2).
    exists l2. split; [assumption |].
    rewrite encoder_deltas_app, sumZ_app. lia.
Qed.

(** Printing a line that is no encoder event of channel [i]. *)
Lemma telescopes_print l :
  encoder_deltas (i + 1) [l] = [] -> preserves (telescopes i) (print l).
Proof.
  intros Hl st. exists [l]. split; [reflexivity |].
  intros l0 H0. exists l0. rewrite Hl. split; [assumption | simpl; lia].
Qed.

(** The body of [if current_pos != last_positions[j]:] of the raw step. *)
Lemma telescopes_event j cur :
  preserves (telescopes i)
    (last' <- getitem last_positions j ;;
     print (E (j + 1) (cur - last')) ;;
     set_last_position j cur).
Proof.
  intros st. unfold bind at 1, getitem.
  destruct (last_positions st !! j) as [l' |] eqn:Hj; simpl;
    [| apply telescopes_refl].
  pose proof (lookup_lt_Some _ _ _ Hj) as Hlt.
  unfold bind, print, set_last_position, assign_checked. simpl.
  destruct (Nat.ltb_spec j (length (last_positions st))); [| lia]. simpl.
  exists [E (j + 1) (cur - l')]. split; [reflexivity |].
  intros l Hl. simpl. destruct (decide (j = i)) as [-> | Hne].
  - rewrite list_lookup_insert_eq by assumption.
    exists cur. split; [reflexivity |].
    rewrite Hj in Hl. injection Hl as <-.
    unfold encoder_deltas. simpl.
    destruct (decide ((i + 1)%nat = (i + 1)%nat)); [simpl; lia | contradiction].
  - rewrite list_lookup_insert_ne by assumption.
    exists l. split; [assumption |].
    unfold encoder_deltas. simpl.
    destruct (decide ((j + 1)%nat = (i + 1)%nat)); [lia | simpl; lia].
Qed.

Lemma telescopes_raw_encoder_step bus j :
  preserves (telescopes i) (raw_encoder_step bus j).
Proof.
  pose proof telescopes_refl. pose proof telescopes_trans.
  unfold raw_encoder_step.
  apply preserves_bind; auto.
  { apply preserves_pure; auto. apply pure_encoder_position. }
  intros cur. apply preserves_bind; auto.
  { apply preserves_pure; auto. apply pure_getitem. }
  intros last. apply preserves_when; auto. apply telescopes_event.
Qed.

Lemma telescopes_button_step bus j :
  preserves (telescopes i) (button_step bus j).
Proof.
  pose proof telescopes_refl. pose proof telescopes_trans.
  unfold button_step.
  apply preserves_bind; auto.
  { apply preserves_pure; auto. apply pure_button_value. }
  intros cur. apply preserves_bind; auto.
  { apply preserves_pure; auto. apply pure_getitem. }
  intros last. apply preserves_when; auto.
  apply preserves_bind; auto.
  - destruct (negb cur); now apply telescopes_print.
  - intros _. apply preserves_assign; auto.
Qed.

Lemma telescopes_main_loop buses :
  preserves (telescopes i) (qtpy_quad_rotary_script.main_loop buses).
Proof.
  pose proof telescopes_refl. pose proof telescopes_trans.
  apply preserves_for_in; auto. intros bus.
  apply preserves_for_in; auto. intros j.
  apply preserves_bind; auto.
  - apply telescopes_raw_encoder_step.
  - intros _. apply telescopes_button_step.
Qed.
End Telescope.

(** ** Fault-free cycles of qtpy_quad_rotary_script.py *)
Section QuadRotaryFaultFree.
Import qtpy_quad_rotary_script.

Lemma wf_moved j z l st : wf st -> wf (moved j z l st).
Proof. unfold wf, moved. simpl. now rewrite length_insert. Qed.

Lemma wf_toggled j b l st : wf st -> wf (toggled j b l st).
Proof. unfold wf, toggled. simpl. now rewrite length_insert. Qed.

Lemma loop_body_fault_free bus j st :
  wf st -> all_present st -> good_reads bus j -> (j < 4)%nat ->
  exists st',
    loop_body bus j st = (Normal tt, st') /\
    wf st' /\ all_present st' /\
    (forall z, position (bus j) = Value z -> last_positions st' !! j = Some z) /\
    (forall i, i <> j -> last_positions st' !! i = last_positions st !! i).
Proof.
  intros Hwf Hp Hff Hj.
  destruct (Hp j Hj) as [[h He] [hb Hb]].
  destruct Hff as [[z Hz] [b Hv]].
  destruct Hwf as (W1 & W2 & W3 & W4).
  destruct (lookup_lt_is_Some_2 (last_positions st) j ltac:(lia)) as [l Hl].
  destruct (lookup_lt_is_Some_2 (last_buttons st) j ltac:(lia)) as [lb Hlb].
  assert (Hwf : wf st) by (repeat split; assumption).
  unfold loop_body.
  rewrite (bind_normal _ _ _ _ _ (raw_encoder_step_value bus j st h z l He Hl Hz)).
  set (st1 := if z =? l then st else moved j z (E (j + 1) (z - l)) st).
  assert (Hb1 : buttons st1 !! j = Some (Some hb))
    by (unfold st1; now destruct (z =? l)).
  assert (Hlb1 : last_buttons st1 !! j = Some lb)
    by (unfold st1; now destruct (z =? l)).
  assert (Hwf1 : wf st1)
    by (unfold st1; destruct (z =? l); [assumption | now apply wf_moved]).
  assert (Hp1 : all_present st1)
    by (unfold st1; now destruct (z =? l)).
  assert (Hz1 : last_positions st1 !! j = Some z).
  { unfold st1. destruct (Z.eqb_spec z l) as [-> |]; [assumption |].
    simpl. apply list_lookup_insert_eq. lia. }
  assert (Ho1 : forall i, i <> j ->
                  last_positions st1 !! i = last_positions st !! i).
  { intros i Hi. unfold st1. destruct (z =? l); [reflexivity |].
    simpl. now apply list_lookup_insert_ne. }
  rewrite (button_step_value bus j st1 hb b lb Hb1 Hlb1 Hv).
  eexists. split; [reflexivity |].
  destruct (eqb b lb).
  - conj; try assumption; try reflexivity.
    intros z' Hz'. rewrite Hz in Hz'. now injection Hz' as <-.
  - conj; try apply (wf_toggled j b _ st1 Hwf1); try apply Hp1; auto.
    intros z' Hz'. rewrite Hz in Hz'. injection Hz' as <-. exact Hz1.
Qed.

Lemma for_in_fault_free bus (js : list nat) :
  (forall j, j ∈ js -> good_reads bus j) ->
  NoDup js -> (forall j, j ∈ js -> (j < 4)%nat) ->
  forall st, wf st -> all_present st ->
  exists st',
    for_in js (loop_body bus) st = (Normal tt, st') /\
    wf st' /\ all_present st' /\
    (forall i z, i ∈ js -> position (bus i) = Value z ->
                 last_positions st' !! i = Some z) /\
    (forall i, i ∉ js -> last_positions st' !! i = last_positions st !! i).
Proof.
  induction js as [| j js IH]; intros Hff Hnd Hlt st Hwf Hp.
  - exists st. conj; try assumption; try reflexivity.
    intros i z Hi. now apply elem_of_nil in Hi.
  - apply NoDup_cons in Hnd as [Hj Hnd].
    destruct (loop_body_fault_free bus j st Hwf Hp (Hff j ltac:(left))) as
      (st1 & E1 & Hwf1 & Hp1 & Hz1 & Ho1); [apply Hlt; left |].
    destruct (IH (fun k Hk => Hff k (list_elem_of_further _ _ _ Hk)) Hnd
                (fun k Hk => Hlt k (list_elem_of_further _ _ _ Hk))
                st1 Hwf1 Hp1) as (st' & E' & Hwf' & Hp' & Hz' & Ho').
    exists st'. simpl. rewrite (bind_normal _ _ _ _ _ E1).
    conj; try assumption; try reflexivity.
    + intros i z Hi Hpos. apply elem_of_cons in Hi as [-> | Hi].
      * rewrite (Ho' j Hj). now apply Hz1.
      * now apply Hz'.
    + intros i Hi. apply not_elem_of_cons in Hi as [Hne Hi].
      rewrite (Ho' i Hi). now apply Ho1.
Qed.

Lemma cycle_fault_free bus st :
  fault_free bus -> wf st -> all_present st ->
  exists st',
    cycle bus st = (Normal tt, st') /\ wf st' /\ all_present st' /\
    (forall i z, (i < 4)%nat -> position (bus i) = Value z ->
                 last_positions st' !! i = Some z).
Proof.
  intros Hff Hwf Hp.
  destruct (for_in_fault_free bus (range 4)) with (st := st)
    as (st' & E' & Hwf' & Hp' & Hz' & _); try assumption.
  - intros j Hj. apply elem_of_seq in Hj. apply Hff. lia.
  - apply NoDup_seq.
  - intros j Hj. apply elem_of_seq in Hj. lia.
  - exists st'. conj; try assumption; try reflexivity.
    intros i z Hi. apply Hz'. apply elem_of_seq. lia.
Qed.

Lemma main_loop_fault_free buses :
  Forall fault_free buses ->
  forall st, wf st -> all_present st ->
  exists st',
    main_loop buses st = (Normal tt, st') /\ wf st' /\ all_present st' /\
    (forall bl i z, last buses = Some bl -> (i < 4)%nat ->
                    position (bl i) = Value z ->
                    last_positions st' !! i = Some z).
Proof.
  induction 1 as [| bus rest Hff Hrest IH]; intros st Hwf Hp.
  - exists st. conj; try assumption; try reflexivity.
    intros bl i z Hl. discriminate.
  - destruct (cycle_fault_free bus st Hff Hwf Hp) as (st1 & E1 & Hwf1 & Hp1 & Hz1).
    destruct (IH st1 Hwf1 Hp1) as (st' & E' & Hwf' & Hp' & Hz').
    exists st'. unfold main_loop, while_true in *. simpl.
    rewrite (bind_normal _ _ _ _ _ E1).
    conj; try assumption; try reflexivity.
    intros bl i z Hl Hi Hpos.
    destruct rest as [| b2 rest].
    + simpl in Hl. injection Hl as <-.
      simpl in E'. injection E' as <-. now apply Hz1.
    + apply (Hz' bl i z); try assumption.
Qed.
End QuadRotaryFaultFree.

Lemma fault_free_only i z b : fault_free (only i (mkReads (Value z) (Value b))).
Proof.
  intros j _. unfold good_reads, only.
  destruct (decide (j = i)); split; eexists; reflexivity.
Qed.

(** C5: under the raw policy the deltas printed for a channel add up to
    the change of its [last_positions] entry over any run of the loop, and
    over fault-free cycles that entry ends at the last raw position read,
    so the deltas add up to the final raw position minus the initial
    [last_positions] entry. *)
Theorem raw_deltas_telescope :
  forall buses st i l0,
    last_positions st !! i = Some l0 ->
    let r := qtpy_quad_rotary_script.main_loop buses st in
    (exists new lN,
        stdout (snd r) = stdout st ++ new /\
        last_positions (snd r) !! i = Some lN /\
        sumZ (encoder_deltas (i + 1) new) = lN - l0) /\
    (wf st -> all_present st -> Forall fault_free buses -> (i < 4)%nat ->
     forall bl final,
       last buses = Some bl -> position (bl i) = Value final ->
       fst r = Normal tt /\
       exists new,
         stdout (snd r) = stdout st ++ new /\
         sumZ (encoder_deltas (i + 1) new) = final - l0).
Proof.
  intros buses st i l0 Hl0 r.
  destruct (telescopes_main_loop i buses st) as (new & Hout & Hsum).
  destruct (Hsum l0 Hl0) as (lN & HlN & Hs).
  split.
  - exists new, lN. auto.
  - intros Hwf Hp Hff Hi bl final Hlast Hpos.
    destruct (main_loop_fault_free buses Hff st Hwf Hp) as (st' & E' & _ & _ & Hz').
    subst r. rewrite E' in *. simpl in *. split; [reflexivity |].
    exists new. split; [assumption |].
    rewrite (Hz' bl i final Hlast Hi Hpos) in HlN. injection HlN as <-. exact Hs.
Qed.

(** Channel 2 turned to 3, then to -2, then to 5: the deltas 3, -5, 7. *)
Lemma raw_deltas_telescope_witness :
  let buses := map (fun p => only 1 (mkReads (Value p) (Value false))) [3; -2; 5] in
  let r := qtpy_quad_rotary_script.main_loop buses qtpy_quad_rotary_script.entry in
  fst r = Normal tt /\
  exists new,
    stdout (snd r) = stdout qtpy_quad_rotary_script.entry ++ new /\
    sumZ (encoder_deltas (1 + 1) new) = 5 - 0.
Proof.
  intros buses r.
  apply (proj2 (raw_deltas_telescope buses qtpy_quad_rotary_script.entry
                  1%nat 0 eq_refl)) with (bl := only 1 (mkReads (Value 5) (Value false))).
  - repeat split.
  - intros j Hj.
    do 4 (destruct j as [| j]; [split; eexists; reflexivity |]). lia.
  - do 3 (constructor; [apply fault_free_only |]). constructor.
  - lia.
  - reflexivity.
  - reflexivity.
Defined.

(** ** The sign-normalized policy *)
Section SignNormalized.
Import qtpy_normalized_steps.

Lemma encoder_step_value bus i st h cur l :
  encoders st !! i = Some (Some h) ->
  last_positions st !! i = Some l ->
  position (bus i) = Value cur ->
  encoder_step bus i st =
  (Normal tt,
   if cur =? l then st
   else moved i cur (E_signed (i + 1) (if cur - l >? 0 then 1 else -1)) st).
Proof.
  intros He Hl Hp. unfold encoder_step.
  rewrite (bind_normal _ _ _ _ _ (encoder_position_value _ _ _ _ _ He Hp)).
  rewrite (bind_normal _ _ _ _ _ (getitem_some _ _ last_positions _ Hl)).
  destruct (cur =? l); simpl; [reflexivity |].
  rewrite (bind_normal _ _ _ _ _ (getitem_some _ _ last_positions _ Hl)).
  apply lookup_lt_Some in Hl.
  destruct (cur - l >? 0);
    unfold bind, print, set_last_position, assign_checked; simpl;
    destruct (Nat.ltb_spec i (length (last_positions st))); (reflexivity || lia).
Qed.

Lemma unit_steps_refl st : unit_steps st st.
Proof. exists []. split; [now rewrite app_nil_r | constructor]. Qed.

Lemma all_encoder_deltas_app l1 l2 :
  all_encoder_deltas (l1 ++ l2) = all_encoder_deltas l1 ++ all_encoder_deltas l2.
Proof. unfold all_encoder_deltas. apply omap_app. Qed.

Lemma unit_steps_trans a b c : unit_steps a b -> unit_steps b c -> unit_steps a c.
Proof.
  intros (n1 & H1 & F1) (n2 & H2 & F2). exists (n1 ++ n2). split.
  - now rewrite H2, H1, app_assoc.
  - rewrite all_encoder_deltas_app. now apply Forall_app.
Qed.

Lemma unit_steps_print l :
  Forall (fun d => d = 1 \/ d = -1) (all_encoder_deltas [l]) ->
  preserves unit_steps (print l).
Proof. intros Hl st. exists [l]. split; [reflexivity | assumption]. Qed.

Lemma unit_steps_encoder_step bus j : preserves unit_steps (encoder_step bus j).
Proof.
  pose proof unit_steps_refl. pose proof unit_steps_trans.
  unfold encoder_step.
  apply preserves_bind; auto.
  { apply preserves_pure; auto. apply pure_encoder_position. }
  intros cur. apply preserves_bind; auto.
  { apply preserves_pure; auto. apply pure_getitem. }
  intros last. apply preserves_when; auto.
  apply preserves_bind; auto.
  { apply preserves_pure; auto. apply pure_getitem. }
  intros last'. apply preserves_bind; auto.
  - destruct (cur - last' >? 0); apply unit_steps_print;
      (constructor; [auto | constructor]).
  - intros _. apply preserves_assign; auto.
Qed.

Lemma unit_steps_button_step bus j : preserves unit_steps (button_step bus j).
Proof.
  pose proof unit_steps_refl. pose proof unit_steps_trans.
  unfold button_step.
  apply preserves_bind; auto.
  { apply preserves_pure; auto. apply pure_button_value. }
  intros cur. apply preserves_bind; auto.
  { apply preserves_pure; auto. apply pure_getitem. }
  intros last. apply preserves_when; auto.
  apply preserves_bind; auto.
  - destruct (negb cur); apply unit_steps_print; constructor.
  - intros _. apply preserves_assign; auto.
Qed.

Lemma unit_steps_main_loop buses : preserves unit_steps (main_loop buses).
Proof.
  pose proof unit_steps_refl. pose proof unit_steps_trans.
  apply preserves_for_in; auto. intros bus.
  apply preserves_for_in; auto. intros j.
  apply preserves_try; auto.
  - apply preserves_bind; auto.
    + apply unit_steps_encoder_step.
    + intros _. apply unit_steps_button_step.
  - intros e. apply unit_steps_print. constructor.
Qed.
End SignNormalized.

(** C6: under the sign-normalized policy the encoder branch is taken only
    when the position read differs from [last_positions[i]]; it prints +1
    when the raw delta is positive and -1 otherwise; and every encoder
    delta printed by any run of the loop, faults included, is +1 or -1. *)
Theorem sign_normalized_unit_steps :
  (forall bus i st h cur l,
      encoders st !! i = Some (Some h) ->
      last_positions st !! i = Some l ->
      position (bus i) = Value cur ->
      (cur = l ->
       qtpy_normalized_steps.encoder_step bus i st = (Normal tt, st)) /\
      (cur <> l -> cur - l > 0 ->
       qtpy_normalized_steps.encoder_step bus i st =
       (Normal tt, moved i cur (E_signed (i + 1) 1) st)) /\
      (cur <> l -> ~ cur - l > 0 ->
       qtpy_normalized_steps.encoder_step bus i st =
       (Normal tt, moved i cur (E_signed (i + 1) (-1)) st))) /\
  (forall buses st,
      exists new,
        stdout (snd (qtpy_normalized_steps.main_loop buses st)) = stdout st ++ new /\
        Forall (fun d => d = 1 \/ d = -1) (all_encoder_deltas new)) /\
  (forall idx,
      render (E_signed idx 1) = "E" +:+ pretty idx +:+ ":+1" /\
      render (E_signed idx (-1)) = "E" +:+ pretty idx +:+ ":-1").
Proof.
  split; [| split].
  - intros bus i st h cur l He Hl Hp.
    rewrite (encoder_step_value bus i st h cur l He Hl Hp).
    split; [| split].
    + intros ->. now rewrite Z.eqb_refl.
    + intros Hne Hpos. destruct (Z.eqb_spec cur l); [contradiction |].
      destruct (Z.gtb_spec (cur - l) 0); [reflexivity | lia].
    + intros Hne Hneg. destruct (Z.eqb_spec cur l); [contradiction |].
      destruct (Z.gtb_spec (cur - l) 0); [lia | reflexivity].
  - intros buses st. apply unit_steps_main_loop.
  - intros idx. split; reflexivity.
Qed.

(** Channel 3 jumps from 0 to 7 in one cycle: one line, "E3:+1". *)
Lemma sign_normalized_unit_steps_witness :
  qtpy_normalized_steps.encoder_step
    (only 2 (mkReads (Value 7) (Value true))) 2 qtpy_normalized_steps.entry =
  (Normal tt, moved 2 7 (E_signed (2 + 1) 1) qtpy_normalized_steps.entry).
Proof.
  apply (proj1 (proj2 (proj1 sign_normalized_unit_steps
           (only 2 (mkReads (Value 7) (Value true))) 2%nat
           qtpy_normalized_steps.entry 2%nat 7 0 eq_refl eq_refl eq_refl)));
    lia.
Defined.

(** C7: with a working button, a level change from true to false prints
    exactly one PRESS, a change from false to true exactly one RELEASE, an
    unchanged level prints nothing; from [last_buttons] all true the levels
    true, true, false, false, true print "B1:PRESS" at the third cycle and
    "B1:RELEASE" at the fifth, and nothing else. *)
Theorem button_edges :
  (forall bus i st h b l,
      buttons st !! i = Some (Some h) ->
      last_buttons st !! i = Some l ->
      value (bus i) = Value b ->
      (b = l -> button_step bus i st = (Normal tt, st)) /\
      (l = true -> b = false ->
       button_step bus i st = (Normal tt, toggled i false (B_PRESS (i + 1)) st)) /\
      (l = false -> b = true ->
       button_step bus i st = (Normal tt, toggled i true (B_RELEASE (i + 1)) st))) /\
  (let run n := qtpy_fixed_from_sample.main_loop (take n scenario_levels)
                  qtpy_fixed_from_sample.entry in
   map (fun n => map render (stdout (snd (run n)))) [0; 1; 2; 3; 4; 5]%nat =
     [[]; []; []; ["B1:PRESS"]; ["B1:PRESS"]; ["B1:PRESS"; "B1:RELEASE"]] /\
   fst (run 5%nat) = Normal tt).
Proof.
  split.
  - intros bus i st h b l Hb Hl Hv.
    rewrite (button_step_value bus i st h b l Hb Hl Hv).
    split; [| split].
    + intros ->. now destruct l.
    + intros -> ->. reflexivity.
    + intros -> ->. reflexivity.
  - vm_compute. split; reflexivity.
Qed.

(** Button 1 of the sample script goes down: one "B1:PRESS". *)
Lemma button_edges_witness :
  button_step (only 0 (mkReads (Value 0) (Value false))) 0
    qtpy_fixed_from_sample.entry =
  (Normal tt, toggled 0 false (B_PRESS (0 + 1)) qtpy_fixed_from_sample.entry).
Proof.
  apply (proj1 (proj2 (proj1 button_edges
           (only 0 (mkReads (Value 0) (Value false))) 0%nat
           qtpy_fixed_from_sample.entry 12%nat false true
           eq_refl eq_refl eq_refl))); reflexivity.
Defined.

(** ** Invariants of the loop bodies, from invariants of the assignments *)
Section Bodies.
Variable R : State -> State -> Prop.
Variable k : nat.
Hypothesis R_refl : forall st, R st st.
Hypothesis R_trans : forall a b c, R a b -> R b c -> R a c.
Hypothesis R_print : forall l, preserves R (print l).
Hypothesis R_position : forall v, preserves R (set_last_position k v).
Hypothesis R_level : forall v, preserves R (set_last_button k v).
Hypothesis R_encoder : preserves R (set_encoder k None).
Hypothesis R_button : preserves R (set_button k None).

Ltac step :=
  first
    [ apply (preserves_pure R R_refl);
        first [ apply pure_encoder_position | apply pure_button_value
              | apply pure_getitem | apply pure_ret ]
    | apply R_print | apply R_position | apply R_level
    | exact R_encoder | exact R_button
    | apply (preserves_when R R_refl)
    | apply (preserves_try R R_trans); [| intro]
    | apply (preserves_bind R R_trans); [| intro] ].

Lemma body_raw_encoder_step bus : preserves R (raw_encoder_step bus k).
Proof. unfold raw_encoder_step. repeat step. Qed.

Lemma body_button_step bus : preserves R (button_step bus k).
Proof.
  unfold button_step. repeat step.
  destruct (negb _); step.
Qed.

Lemma body_guarded_button_step bus : preserves R (guarded_button_step bus k).
Proof.
  unfold guarded_button_step. repeat step.
  destruct a; [apply body_button_step | step].
Qed.

Lemma body_guarded_encoder_step bus :
  preserves R (qtpy_simple.guarded_encoder_step bus k).
Proof.
  unfold qtpy_simple.guarded_encoder_step. repeat step.
  destruct a; [apply body_raw_encoder_step | step].
Qed.

Lemma body_working_handler e : preserves R (qtpy_working.handler k e).
Proof. unfold qtpy_working.handler. repeat step. Qed.

Lemma body_working bus : preserves R (qtpy_working.loop_body bus k).
Proof.
  unfold qtpy_working.loop_body. repeat step.
  destruct a; [| step]. step.
  - step; [apply body_raw_encoder_step | apply body_guarded_button_step].
  - apply body_working_handler.
Qed.

Lemma body_simple_handler e : preserves R (qtpy_simple.handler k e).
Proof.
  unfold qtpy_simple.handler.
  destruct (contains "No such device" e); repeat step.
Qed.

Lemma body_simple bus : preserves R (qtpy_simple.loop_body bus k).
Proof.
  unfold qtpy_simple.loop_body. step.
  - step; [apply body_guarded_encoder_step | apply body_guarded_button_step].
  - apply body_simple_handler.
Qed.
End Bodies.

(** ** The three frame relations *)
Section Frames.
Lemma same_shape_refl st : same_shape st st.
Proof. repeat split. Qed.

Lemma same_shape_trans a b c : same_shape a b -> same_shape b c -> same_shape a c.
Proof. unfold same_shape. intuition congruence. Qed.

Lemma same_shape_wf st st' : same_shape st st' -> wf st -> wf st'.
Proof. unfold same_shape, wf. intuition congruence. Qed.

Lemma same_shape_assign {A} (xs : State -> list A) i upd :
  (forall st, same_shape st (upd st)) ->
  preserves same_shape (assign_checked xs i upd).
Proof.
  apply preserves_assign. apply same_shape_refl.
Qed.

Lemma same_shape_working bus k : preserves same_shape (qtpy_working.loop_body bus k).
Proof.
  apply body_working;
    try (intros; apply same_shape_assign; intros st;
         unfold same_shape; simpl; rewrite ?length_insert; tauto).
  - apply same_shape_refl.
  - apply same_shape_trans.
  - intros l st. repeat split.
Qed.

Lemma same_shape_simple bus k : preserves same_shape (qtpy_simple.loop_body bus k).
Proof.
  apply body_simple;
    try (intros; apply same_shape_assign; intros st;
         unfold same_shape; simpl; rewrite ?length_insert; tauto).
  - apply same_shape_refl.
  - apply same_shape_trans.
  - intros l st. repeat split.
Qed.

Lemma untouched_refl j st : untouched j st st.
Proof. repeat split. Qed.

Lemma untouched_trans j a b c : untouched j a b -> untouched j b c -> untouched j a c.
Proof. unfold untouched. intuition congruence. Qed.

Lemma untouched_assign {A} j (xs : State -> list A) i upd :
  (forall st, untouched j st (upd st)) ->
  preserves (untouched j) (assign_checked xs i upd).
Proof. apply preserves_assign. apply untouched_refl. Qed.

Lemma untouched_working bus j k :
  k <> j -> preserves (untouched j) (qtpy_working.loop_body bus k).
Proof.
  intros Hne. apply body_working;
    try (intros; apply untouched_assign; intros st;
         unfold untouched; simpl; rewrite ?list_lookup_insert_ne by assumption;
         tauto).
  - apply untouched_refl.
  - apply untouched_trans.
  - intros l st. repeat split.
Qed.

Lemma untouched_simple bus j k :
  k <> j -> preserves (untouched j) (qtpy_simple.loop_body bus k).
Proof.
  intros Hne. apply body_simple;
    try (intros; apply untouched_assign; intros st;
         unfold untouched; simpl; rewrite ?list_lookup_insert_ne by assumption;
         tauto).
  - apply untouched_refl.
  - apply untouched_trans.
  - intros l st. repeat split.
Qed.

Lemma stays_disabled_refl j st : stays_disabled j st st.
Proof. split; auto. Qed.

Lemma stays_disabled_trans j a b c :
  stays_disabled j a b -> stays_disabled j b c -> stays_disabled j a c.
Proof. unfold stays_disabled. intuition. Qed.

Lemma lookup_insert_None {A} (l : list (option A)) k j :
  l !! j = Some None -> <[k:=None]> l !! j = Some None.
Proof.
  intros H. destruct (decide (k = j)) as [-> |].
  - apply list_lookup_insert_eq. now apply lookup_lt_Some in H.
  - now rewrite list_lookup_insert_ne.
Qed.

Lemma stays_disabled_working bus j k :
  preserves (stays_disabled j) (qtpy_working.loop_body bus k).
Proof.
  apply body_working;
    try (intros; apply preserves_assign; [apply stays_disabled_refl |];
         intros st; unfold stays_disabled; simpl;
         split; auto using lookup_insert_None).
  - apply stays_disabled_refl.
  - apply stays_disabled_trans.
  - intros l st. split; auto.
Qed.

Lemma stays_disabled_simple bus j k :
  preserves (stays_disabled j) (qtpy_simple.loop_body bus k).
Proof.
  apply body_simple;
    try (intros; apply preserves_assign; [apply stays_disabled_refl |];
         intros st; unfold stays_disabled; simpl;
         split; auto using lookup_insert_None).
  - apply stays_disabled_refl.
  - apply stays_disabled_trans.
  - intros l st. split; auto.
Qed.
End Frames.

(** ** Equations of the shared steps on the intermediate states *)
Section AfterSteps.
Variables (bus : Bus) (i : nat) (st : State).

Lemma raw_encoder_step_after h z l :
  encoders st !! i = Some (Some h) ->
  last_positions st !! i = Some l ->
  position (bus i) = Value z ->
  raw_encoder_step bus i st = (Normal tt, after_encoder i z l st).
Proof. apply raw_encoder_step_value. Qed.

Lemma button_step_after h b lb :
  buttons st !! i = Some (Some h) ->
  last_buttons st !! i = Some lb ->
  value (bus i) = Value b ->
  button_step bus i st = (Normal tt, after_button i b lb st).
Proof. apply button_step_value. Qed.

Lemma encoders_after_encoder z l : encoders (after_encoder i z l st) = encoders st.
Proof. unfold after_encoder. now destruct (z =? l). Qed.

Lemma buttons_after_encoder z l : buttons (after_encoder i z l st) = buttons st.
Proof. unfold after_encoder. now destruct (z =? l). Qed.

Lemma last_buttons_after_encoder z l :
  last_buttons (after_encoder i z l st) = last_buttons st.
Proof. unfold after_encoder. now destruct (z =? l). Qed.

Lemma last_positions_after_encoder z l :
  last_positions st !! i = Some l ->
  last_positions (after_encoder i z l st) !! i = Some z.
Proof.
  intros Hl. unfold after_encoder.
  destruct (Z.eqb_spec z l) as [-> |]; [assumption |].
  simpl. apply list_lookup_insert_eq. now apply lookup_lt_Some in Hl.
Qed.

Lemma button_lines_after_encoder z l :
  button_lines (stdout (after_encoder i z l st)) = button_lines (stdout st).
Proof.
  unfold after_encoder. destruct (z =? l); [reflexivity |].
  simpl. unfold button_lines. rewrite List.filter_app. simpl.
  now rewrite app_nil_r.
Qed.

Lemma same_shape_after_encoder z l : same_shape st (after_encoder i z l st).
Proof.
  unfold after_encoder, same_shape. destruct (z =? l); simpl;
    rewrite ?length_insert; tauto.
Qed.
End AfterSteps.

(** ** Equations of qtpy_working.py's loop body *)
Section Working.
Import qtpy_working.
Variables (bus : Bus) (i : nat) (st : State).

Lemma working_handler_absent e :
  device_absent e ->
  (i < length (encoders st))%nat -> (i < length (buttons st))%nat ->
  handler i e st =
  (Normal tt,
   printed [working_disabled i] (disabled i (printed [working_error i e] st))).
Proof.
  intros Hc He Hb. unfold handler, bind, print, when. simpl. rewrite Hc.
  unfold set_encoder, set_button, assign_checked. simpl.
  destruct (Nat.ltb_spec i (length (encoders st))); [| lia]. simpl.
  destruct (Nat.ltb_spec i (length (buttons st))); [| lia].
  reflexivity.
Qed.

Lemma working_handler_transient e :
  transient e -> handler i e st = (Normal tt, printed [working_error i e] st).
Proof.
  intros Hc. unfold handler, bind, print, when. simpl. now rewrite Hc.
Qed.

Lemma working_skip :
  encoders st !! i = Some None -> loop_body bus i st = (Normal tt, st).
Proof.
  intros He. unfold loop_body.
  now rewrite (bind_normal _ _ _ _ _ (getitem_some _ _ encoders _ He)).
Qed.

Lemma working_encoder_fault h e :
  encoders st !! i = Some (Some h) -> position (bus i) = Fault e ->
  loop_body bus i st = handler i e st.
Proof.
  intros He Hp. unfold loop_body.
  rewrite (bind_normal _ _ _ _ _ (getitem_some _ _ encoders _ He)).
  apply try_raised. apply bind_raised.
  now apply raw_encoder_step_fault with h.
Qed.

Lemma working_button_absent h z l :
  encoders st !! i = Some (Some h) ->
  last_positions st !! i = Some l ->
  position (bus i) = Value z ->
  buttons st !! i = Some None ->
  loop_body bus i st = (Normal tt, after_encoder i z l st).
Proof.
  intros He Hl Hp Hb. unfold loop_body.
  rewrite (bind_normal _ _ _ _ _ (getitem_some _ _ encoders _ He)).
  apply try_normal.
  rewrite (bind_normal _ _ _ _ _ (raw_encoder_step_after _ _ _ _ _ _ He Hl Hp)).
  apply guarded_button_step_none. now rewrite buttons_after_encoder.
Qed.

Lemma working_button_fault h hb z l e :
  encoders st !! i = Some (Some h) ->
  last_positions st !! i = Some l ->
  position (bus i) = Value z ->
  buttons st !! i = Some (Some hb) ->
  value (bus i) = Fault e ->
  loop_body bus i st = handler i e (after_encoder i z l st).
Proof.
  intros He Hl Hp Hb Hv. unfold loop_body.
  rewrite (bind_normal _ _ _ _ _ (getitem_some _ _ encoders _ He)).
  apply try_raised.
  rewrite (bind_normal _ _ _ _ _ (raw_encoder_step_after _ _ _ _ _ _ He Hl Hp)).
  rewrite (guarded_button_step_some _ _ _ hb)
    by now rewrite buttons_after_encoder.
  apply button_step_fault with hb; [now rewrite buttons_after_encoder | assumption].
Qed.

Lemma working_values h hb z l b lb :
  encoders st !! i = Some (Some h) ->
  last_positions st !! i = Some l ->
  position (bus i) = Value z ->
  buttons st !! i = Some (Some hb) ->
  last_buttons st !! i = Some lb ->
  value (bus i) = Value b ->
  loop_body bus i st = (Normal tt, after_button i b lb (after_encoder i z l st)).
Proof.
  intros He Hl Hp Hb Hlb Hv. unfold loop_body.
  rewrite (bind_normal _ _ _ _ _ (getitem_some _ _ encoders _ He)).
  apply try_normal.
  rewrite (bind_normal _ _ _ _ _ (raw_encoder_step_after _ _ _ _ _ _ He Hl Hp)).
  rewrite (guarded_button_step_some _ _ _ hb)
    by now rewrite buttons_after_encoder.
  apply button_step_after with hb;
    [now rewrite buttons_after_encoder
    | now rewrite last_buttons_after_encoder | assumption].
Qed.

Lemma working_handler_total e :
  (i < length (encoders st))%nat -> (i < length (buttons st))%nat ->
  exists st', handler i e st = (Normal tt, st').
Proof.
  intros He Hb. destruct (contains "No such device" e) eqn:Hc.
  - eexists. now apply working_handler_absent.
  - eexists. now apply working_handler_transient.
Qed.
End Working.

Lemma working_body_total bus i st :
  wf st -> (i < 4)%nat ->
  exists st', qtpy_working.loop_body bus i st = (Normal tt, st') /\ wf st'.
Proof.
  intros Hwf Hi.
  assert (Hshape := same_shape_working bus i st).
  assert (Hwf' := same_shape_wf _ _ Hshape Hwf).
  destruct Hwf as (W1 & W2 & W3 & W4).
  destruct (lookup_lt_is_Some_2 (encoders st) i ltac:(lia)) as [[h |] He].
  2: { exists st. split; [now apply working_skip |].
       now rewrite working_skip in Hwf'. }
  destruct (lookup_lt_is_Some_2 (last_positions st) i ltac:(lia)) as [l Hl].
  destruct (lookup_lt_is_Some_2 (buttons st) i ltac:(lia)) as [[hb |] Hb].
  2: { destruct (position (bus i)) as [z | e] eqn:Hp.
       - rewrite (working_button_absent bus i st h z l) in * by assumption. eauto.
       - rewrite (working_encoder_fault bus i st h e) in * by assumption.
         destruct (working_handler_total i st e) as [st' E']; try lia.
         rewrite E' in *. eauto. }
  destruct (lookup_lt_is_Some_2 (last_buttons st) i ltac:(lia)) as [lb Hlb].
  destruct (position (bus i)) as [z | e] eqn:Hp.
  - destruct (value (bus i)) as [b | e] eqn:Hv.
    + rewrite (working_values bus i st h hb z l b lb) in * by assumption. eauto.
    + rewrite (working_button_fault bus i st h hb z l e) in * by assumption.
      pose proof (same_shape_after_encoder i st z l) as (S1 & S2 & _).
      destruct (working_handler_total i (after_encoder i z l st) e) as [st' E'];
        try lia.
      rewrite E' in *. eauto.
  - rewrite (working_encoder_fault bus i st h e) in * by assumption.
    destruct (working_handler_total i st e) as [st' E']; try lia.
    rewrite E' in *. eauto.
Qed.

Lemma for_in_total {A} (body : A -> Py unit) (P : A -> Prop) (l : list A) :
  (forall x st, P x -> wf st -> exists st', body x st = (Normal tt, st') /\ wf st') ->
  Forall P l ->
  forall st, wf st -> exists st', for_in l body st = (Normal tt, st') /\ wf st'.
Proof.
  intros Hb. induction 1 as [| x l Hx Hl IH]; intros st Hwf; simpl.
  - exists st. now split.
  - destruct (Hb x st Hx Hwf) as (st1 & E1 & Hwf1).
    rewrite (bind_normal _ _ _ _ _ E1). now apply IH.
Qed.

Lemma range_lt n : Forall (fun j => (j < n)%nat) (range n).
Proof. apply Forall_forall. intros j Hj. apply elem_of_seq in Hj. lia. Qed.

Lemma working_cycle_total bus st :
  wf st -> exists st', qtpy_working.cycle bus st = (Normal tt, st') /\ wf st'.
Proof.
  apply for_in_total with (P := fun j => (j < 4)%nat); [| apply range_lt].
  intros j st0 Hj Hwf. now apply working_body_total.
Qed.

Lemma working_main_loop_total buses st :
  wf st -> exists st', qtpy_working.main_loop buses st = (Normal tt, st') /\ wf st'.
Proof.
  apply for_in_total with (P := fun _ => True).
  - intros bus st0 _ Hwf. now apply working_cycle_total.
  - now apply Forall_forall.
Qed.

(** ** Equations of qtpy_simple.py's loop body *)
Section Simple.
Import qtpy_simple.
Variables (bus : Bus) (i : nat) (st : State).

Lemma simple_handler_absent e :
  device_absent e ->
  (i < length (encoders st))%nat -> (i < length (buttons st))%nat ->
  handler i e st = (Normal tt, disabled i (printed [simple_disabled i] st)).
Proof.
  intros Hc He Hb. unfold handler. rewrite Hc.
  unfold bind, print, set_encoder, set_button, assign_checked. simpl.
  destruct (Nat.ltb_spec i (length (encoders st))); [| lia]. simpl.
  destruct (Nat.ltb_spec i (length (buttons st))); [| lia].
  reflexivity.
Qed.

Lemma simple_handler_transient e :
  transient e -> handler i e st = (Normal tt, printed [simple_error i e] st).
Proof. intros Hc. unfold handler. now rewrite Hc. Qed.

Lemma simple_guarded_encoder_none :
  encoders st !! i = Some None ->
  guarded_encoder_step bus i st = (Normal tt, st).
Proof.
  intros H. unfold guarded_encoder_step.
  now rewrite (bind_normal _ _ _ _ _ (getitem_some _ _ encoders _ H)).
Qed.

Lemma simple_guarded_encoder_some h :
  encoders st !! i = Some (Some h) ->
  guarded_encoder_step bus i st = raw_encoder_step bus i st.
Proof.
  intros H. unfold guarded_encoder_step.
  now rewrite (bind_normal _ _ _ _ _ (getitem_some _ _ encoders _ H)).
Qed.

Lemma simple_skip :
  encoders st !! i = Some None -> buttons st !! i = Some None ->
  loop_body bus i st = (Normal tt, st).
Proof.
  intros He Hb. unfold loop_body. apply try_normal.
  rewrite (bind_normal _ _ _ _ _ (simple_guarded_encoder_none He)).
  now apply guarded_button_step_none.
Qed.

(** The encoder is gone, the button is still there: the button is read. *)
Lemma simple_button_only hb b lb :
  encoders st !! i = Some None ->
  buttons st !! i = Some (Some hb) ->
  last_buttons st !! i = Some lb ->
  value (bus i) = Value b ->
  loop_body bus i st = (Normal tt, after_button i b lb st).
Proof.
  intros He Hb Hlb Hv. unfold loop_body. apply try_normal.
  rewrite (bind_normal _ _ _ _ _ (simple_guarded_encoder_none He)).
  rewrite (guarded_button_step_some _ _ _ hb) by assumption.
  now apply button_step_after with hb.
Qed.

Lemma simple_encoder_fault h e :
  encoders st !! i = Some (Some h) -> position (bus i) = Fault e ->
  loop_body bus i st = handler i e st.
Proof.
  intros He Hp.
  assert (guarded_encoder_step bus i st = (Raised e, st)) as Hg.
  { rewrite (simple_guarded_encoder_some h) by assumption.
    now apply raw_encoder_step_fault with h. }
  unfold loop_body. apply try_raised. now apply bind_raised.
Qed.

Lemma simple_button_fault h hb z l e :
  encoders st !! i = Some (Some h) ->
  last_positions st !! i = Some l ->
  position (bus i) = Value z ->
  buttons st !! i = Some (Some hb) ->
  value (bus i) = Fault e ->
  loop_body bus i st = handler i e (after_encoder i z l st).
Proof.
  intros He Hl Hp Hb Hv.
  assert (guarded_encoder_step bus i st = (Normal tt, after_encoder i z l st)) as Hg.
  { rewrite (simple_guarded_encoder_some h) by assumption.
    now apply raw_encoder_step_after with h. }
  unfold loop_body. apply try_raised.
  rewrite (bind_normal _ _ _ _ _ Hg).
  rewrite (guarded_button_step_some _ _ _ hb)
    by now rewrite buttons_after_encoder.
  apply button_step_fault with hb; [now rewrite buttons_after_encoder | assumption].
Qed.
End Simple.

(** ** What a disabled channel looks like *)
Section Disabled.
Variables (i : nat) (st : State).

Lemma disabled_encoder :
  (i < length (encoders st))%nat -> encoders (disabled i st) !! i = Some None.
Proof. intros H. simpl. now apply list_lookup_insert_eq. Qed.

Lemma disabled_button :
  (i < length (buttons st))%nat -> buttons (disabled i st) !! i = Some None.
Proof. intros H. simpl. now apply list_lookup_insert_eq. Qed.

Lemma disabled_untouched j : j <> i -> untouched j st (disabled i st).
Proof.
  intros H. unfold untouched. simpl.
  rewrite !list_lookup_insert_ne by auto. tauto.
Qed.

Lemma after_encoder_untouched j z l : j <> i -> untouched j st (after_encoder i z l st).
Proof.
  intros H. unfold untouched, after_encoder. destruct (z =? l); simpl;
    rewrite ?list_lookup_insert_ne by auto; tauto.
Qed.
End Disabled.

(** ** Faults in the scripts that test for "No such device" *)
Section CoupledDisable.

Lemma wf_lengths st i :
  wf st -> (i < 4)%nat ->
  (i < length (encoders st))%nat /\ (i < length (buttons st))%nat /\
  exists l, last_positions st !! i = Some l.
Proof.
  intros (W1 & W2 & W3 & W4) Hi. conj; try lia.
  apply lookup_lt_is_Some_2. lia.
Qed.

Lemma working_fault_equation bus i st e :
  wf st -> (i < 4)%nat -> read_fault bus i st e ->
  exists st0,
    qtpy_working.loop_body bus i st = qtpy_working.handler i e st0 /\
    encoders st0 = encoders st /\ buttons st0 = buttons st.
Proof.
  intros Hwf Hi [(h & He & Hp) | (h & hb & z & He & Hp & Hb & Hv)].
  - exists st. now rewrite (working_encoder_fault bus i st h e).
  - destruct (wf_lengths st i Hwf Hi) as (_ & _ & l & Hl).
    exists (after_encoder i z l st).
    rewrite (working_button_fault bus i st h hb z l e) by assumption.
    now rewrite encoders_after_encoder, buttons_after_encoder.
Qed.

Lemma simple_fault_equation bus i st e :
  wf st -> (i < 4)%nat -> read_fault bus i st e ->
  exists st0,
    qtpy_simple.loop_body bus i st = qtpy_simple.handler i e st0 /\
    encoders st0 = encoders st /\ buttons st0 = buttons st.
Proof.
  intros Hwf Hi [(h & He & Hp) | (h & hb & z & He & Hp & Hb & Hv)].
  - exists st. now rewrite (simple_encoder_fault bus i st h e).
  - destruct (wf_lengths st i Hwf Hi) as (_ & _ & l & Hl).
    exists (after_encoder i z l st).
    rewrite (simple_button_fault bus i st h hb z l e) by assumption.
    now rewrite encoders_after_encoder, buttons_after_encoder.
Qed.

Lemma working_coupled :
  coupled_disable qtpy_working.loop_body qtpy_working.main_loop.
Proof.
  unfold coupled_disable. conj.
  - intros bus i st e Hwf Hi Hf Ha.
    destruct (wf_lengths st i Hwf Hi) as (L1 & L2 & _).
    destruct (working_fault_equation bus i st e Hwf Hi Hf) as (st0 & E0 & S1 & S2).
    assert (Hu := fun j (H : j <> i) =>
                    untouched_working bus j i (not_eq_sym H) st).
    rewrite working_handler_absent in E0 by (rewrite ?S1, ?S2; assumption).
    rewrite E0 in Hu.
    eexists. conj; [exact E0 | | | exact Hu]; simpl.
    + rewrite S1. now apply list_lookup_insert_eq.
    + rewrite S2. now apply list_lookup_insert_eq.
  - intros bus i st e Hwf Hi Hf Ht.
    destruct (working_fault_equation bus i st e Hwf Hi Hf) as (st0 & E0 & S1 & S2).
    rewrite working_handler_transient in E0 by assumption.
    eexists. conj; [exact E0 | assumption | assumption].
  - intros bus i st He _. now apply working_skip.
  - intros buses i. apply preserves_for_in;
      [apply stays_disabled_refl | apply stays_disabled_trans |].
    intros bus. apply preserves_for_in;
      [apply stays_disabled_refl | apply stays_disabled_trans |].
    intros k. apply stays_disabled_working.
Qed.

Lemma simple_coupled :
  coupled_disable qtpy_simple.loop_body qtpy_simple.main_loop.
Proof.
  unfold coupled_disable. conj.
  - intros bus i st e Hwf Hi Hf Ha.
    destruct (wf_lengths st i Hwf Hi) as (L1 & L2 & _).
    destruct (simple_fault_equation bus i st e Hwf Hi Hf) as (st0 & E0 & S1 & S2).
    assert (Hu := fun j (H : j <> i) =>
                    untouched_simple bus j i (not_eq_sym H) st).
    rewrite simple_handler_absent in E0 by (rewrite ?S1, ?S2; assumption).
    rewrite E0 in Hu.
    eexists. conj; [exact E0 | | | exact Hu]; simpl.
    + rewrite S1. now apply list_lookup_insert_eq.
    + rewrite S2. now apply list_lookup_insert_eq.
  - intros bus i st e Hwf Hi Hf Ht.
    destruct (simple_fault_equation bus i st e Hwf Hi Hf) as (st0 & E0 & S1 & S2).
    rewrite simple_handler_transient in E0 by assumption.
    eexists. conj; [exact E0 | assumption | assumption].
  - intros bus i st He Hb. now apply simple_skip.
  - intros buses i. apply preserves_for_in;
      [apply stays_disabled_refl | apply stays_disabled_trans |].
    intros bus. apply preserves_for_in;
      [apply stays_disabled_refl | apply stays_disabled_trans |].
    intros k. apply stays_disabled_simple.
Qed.
End CoupledDisable.

(** A button fault on a channel of qtpy_simple.py that has no encoder
    goes to the same handler, in the state the turn started in. *)
Lemma simple_button_only_fault bus i st e :
  button_only_fault bus i st e ->
  qtpy_simple.loop_body bus i st = qtpy_simple.handler i e st.
Proof.
  intros (hb & He & Hb & Hv). unfold qtpy_simple.loop_body.
  assert (E : (qtpy_simple.guarded_encoder_step bus i ;;
               guarded_button_step bus i) st = (Raised e, st)).
  { rewrite (bind_normal _ _ _ _ _ (simple_guarded_encoder_none bus i st He)).
    rewrite (guarded_button_step_some _ _ _ hb) by assumption.
    now apply button_step_fault with hb. }
  now rewrite (try_raised _ _ _ _ _ E).
Qed.

Lemma simple_button_only_coupled bus i st e :
  wf st -> (i < 4)%nat -> button_only_fault bus i st e ->
  (device_absent e -> disables_channel qtpy_simple.loop_body bus i st) /\
  (transient e -> disables_nothing qtpy_simple.loop_body bus i st).
Proof.
  intros Hwf Hi Hf. destruct (wf_lengths st i Hwf Hi) as (L1 & L2 & _).
  unfold disables_channel, disables_nothing.
  rewrite (simple_button_only_fault bus i st e Hf). split; intros He.
  - rewrite simple_handler_absent by assumption.
    eexists. conj; [reflexivity | | |]; simpl.
    + now apply list_lookup_insert_eq.
    + now apply list_lookup_insert_eq.
    + intros j Hj. unfold untouched. simpl.
      rewrite !list_lookup_insert_ne by auto. tauto.
  - rewrite simple_handler_transient by assumption.
    eexists. conj; reflexivity.
Qed.

(** C1, as the code has it: in qtpy_working.py and qtpy_simple.py the two
    halves of a channel go down together.  A device-absent fault on the
    encoder read or on the button read of channel [i] sets both handles of
    channel [i] to [None] and leaves every other channel alone; any other
    fault sets nothing to [None]; a channel with both handles gone is
    skipped, and stays so.  In qtpy_simple.py a channel whose encoder
    handle is absent and whose button handle is present still has its
    button read and its edges printed, and a fault on that read is treated
    like any other: device-absent takes the button down too, anything else
    takes nothing down; qtpy_working.py skips any channel whose encoder
    handle is absent. *)
Theorem channel_disabled_as_a_whole :
  coupled_disable qtpy_working.loop_body qtpy_working.main_loop /\
  coupled_disable qtpy_simple.loop_body qtpy_simple.main_loop /\
  (forall bus i st hb b lb,
      encoders st !! i = Some None ->
      buttons st !! i = Some (Some hb) ->
      last_buttons st !! i = Some lb ->
      value (bus i) = Value b ->
      qtpy_simple.loop_body bus i st = (Normal tt, after_button i b lb st)) /\
  (forall bus i st,
      encoders st !! i = Some None ->
      qtpy_working.loop_body bus i st = (Normal tt, st)) /\
  (forall bus i st e,
      wf st -> (i < 4)%nat -> button_only_fault bus i st e ->
      (device_absent e -> disables_channel qtpy_simple.loop_body bus i st) /\
      (transient e -> disables_nothing qtpy_simple.loop_body bus i st)).
Proof.
  conj.
  - apply working_coupled.
  - apply simple_coupled.
  - intros bus i st hb b lb. apply simple_button_only.
  - intros bus i st. apply working_skip.
  - intros bus i st e. apply simple_button_only_coupled.
Qed.

(** From the state both scripts start in on the standard board: the
    encoder read of channel 1 of qtpy_working.py finds the device gone, the
    button read of channel 1 of qtpy_simple.py finds it gone after a good
    encoder read, and the encoder read of channel 1 of qtpy_simple.py
    fails for another reason.  The first two take both handles of the
    channel down, the third takes nothing down. *)
Lemma channel_disabled_as_a_whole_witness :
  disables_channel qtpy_working.loop_body encoder1_gone 0
    (qtpy_working.entry standard_encoders standard_buttons) /\
  disables_channel qtpy_simple.loop_body button1_gone 0
    (qtpy_simple.entry standard_encoders standard_buttons) /\
  disables_nothing qtpy_simple.loop_body encoder1_glitch 0
    (qtpy_simple.entry standard_encoders standard_buttons).
Proof.
  conj.
  - apply (proj1 (proj1 channel_disabled_as_a_whole) encoder1_gone 0%nat
             (qtpy_working.entry standard_encoders standard_buttons)
             "[Errno 19] No such device");
      [repeat split | lia | left; exists 12%nat; split; reflexivity | reflexivity].
  - apply (proj1 (proj1 (proj2 channel_disabled_as_a_whole)) button1_gone 0%nat
             (qtpy_simple.entry standard_encoders standard_buttons)
             "[Errno 19] No such device");
      [repeat split | lia | | reflexivity].
    right. exists 12%nat, 24%nat, 0. repeat split; reflexivity.
  - apply (proj1 (proj2 (proj1 (proj2 channel_disabled_as_a_whole)))
             encoder1_glitch 0%nat
             (qtpy_simple.entry standard_encoders standard_buttons)
             "[Errno 5] Input/output error");
      [repeat split | lia | left; exists 12%nat; split; reflexivity | reflexivity].
Defined.

(** C1 as stated fails: after a quiet cycle, the encoder read of channel 1
    finds the device gone and the handler takes the button of channel 1
    down with it, so that pressing button 1 in the next cycle prints
    nothing; the same presses without the fault print "B1:PRESS". *)
Lemma encoder_fault_takes_button_down :
  ~ halves_independent qtpy_working.loop_body /\
  ~ halves_independent qtpy_simple.loop_body /\
  (let st := qtpy_working.entry standard_encoders standard_buttons in
   let r := qtpy_working.main_loop [all_quiet; encoder1_gone; button1_down] st in
   let r' := qtpy_working.main_loop [all_quiet; all_quiet; button1_down] st in
   map render (stdout (snd r)) =
     ["B1:RELEASE"; "B2:RELEASE"; "B3:RELEASE"; "B4:RELEASE";
      "Error reading encoder 1: [Errno 19] No such device";
      "Disabled encoder 1"] /\
   buttons (snd r) = [None; Some 25; Some 26; Some 27]%nat /\
   map render (stdout (snd r')) =
     ["B1:RELEASE"; "B2:RELEASE"; "B3:RELEASE"; "B4:RELEASE"; "B1:PRESS"]).
Proof.
  conj.
  - intros H.
    specialize (H encoder1_gone 0%nat
                  (qtpy_working.entry standard_encoders standard_buttons)
                  12%nat "[Errno 19] No such device").
    vm_compute in H. specialize (H ltac:(repeat split) ltac:(lia) eq_refl eq_refl).
    discriminate H.
  - intros H.
    specialize (H encoder1_gone 0%nat
                  (qtpy_simple.entry standard_encoders standard_buttons)
                  12%nat "[Errno 19] No such device").
    vm_compute in H. specialize (H ltac:(repeat split) ltac:(lia) eq_refl eq_refl).
    discriminate H.
  - vm_compute. repeat split.
Qed.

(** ** The first cycle *)
Section FirstCycle.

(** What a good read of both halves of channel [j] leaves behind when
    the button reads true. *)
Lemma values_outcome j h hb z l lb st :
  wf st ->
  encoders st !! j = Some (Some h) ->
  buttons st !! j = Some (Some hb) ->
  last_positions st !! j = Some l ->
  last_buttons st !! j = Some lb ->
  let st' := after_button j true lb (after_encoder j z l st) in
  wf st' /\ encoders st' = encoders st /\ buttons st' = buttons st /\
  (forall k, k <> j -> last_buttons st' !! k = last_buttons st !! k) /\
  button_lines (stdout st') =
  button_lines (stdout st) ++ releases (encoders st) (buttons st) lb [j].
Proof.
  intros Hwf He Hb Hl Hlb st'.
  assert (Hwf1 : wf (after_encoder j z l st))
    by (eapply same_shape_wf; [apply same_shape_after_encoder | assumption]).
  unfold releases, working_channel. simpl. rewrite He, Hb, app_nil_r. simpl.
  subst st'. unfold after_button. destruct lb; simpl.
  - rewrite encoders_after_encoder, buttons_after_encoder,
      last_buttons_after_encoder, button_lines_after_encoder, app_nil_r.
    conj; auto.
  - rewrite encoders_after_encoder, buttons_after_encoder,
      last_buttons_after_encoder.
    conj; auto.
    + now apply wf_toggled.
    + intros k Hk. now apply list_lookup_insert_ne.
    + unfold button_lines. rewrite List.filter_app. simpl.
      fold (button_lines (stdout (after_encoder j z l st))).
      now rewrite button_lines_after_encoder.
Qed.

Variable body : Bus -> nat -> Py unit.
Variable pre : State -> Prop.
Hypothesis pre_handles :
  forall st st', encoders st' = encoders st -> buttons st' = buttons st ->
                 pre st -> pre st'.
Hypothesis body_spec :
  forall bus j st lb z,
    wf st -> pre st -> (j < 4)%nat ->
    position (bus j) = Value z -> value (bus j) = Value true ->
    last_buttons st !! j = Some lb ->
    exists st',
      body bus j st = (Normal tt, st') /\
      wf st' /\ encoders st' = encoders st /\ buttons st' = buttons st /\
      (forall k, k <> j -> last_buttons st' !! k = last_buttons st !! k) /\
      button_lines (stdout st') =
      button_lines (stdout st) ++ releases (encoders st) (buttons st) lb [j].

Lemma for_in_first bus lb (js : list nat) :
  fault_free bus -> buttons_up bus ->
  NoDup js -> (forall j, j ∈ js -> (j < 4)%nat) ->
  forall st,
    wf st -> pre st ->
    (forall j, j ∈ js -> last_buttons st !! j = Some lb) ->
    exists st',
      for_in js (body bus) st = (Normal tt, st') /\
      button_lines (stdout st') =
      button_lines (stdout st) ++ releases (encoders st) (buttons st) lb js.
Proof.
  intros Hff Hup. induction js as [| j js IH]; intros Hnd Hlt st Hwf Hpre Hlb.
  - exists st. split; [reflexivity |]. unfold releases. simpl.
    now rewrite app_nil_r.
  - apply NoDup_cons in Hnd as [Hj Hnd].
    assert (Hj4 : (j < 4)%nat) by (apply Hlt; left).
    destruct (Hff j Hj4) as [[z Hz] _].
    destruct (body_spec bus j st lb z Hwf Hpre Hj4 Hz (Hup j Hj4)
                (Hlb j ltac:(left)))
      as (st1 & E1 & Hwf1 & He1 & Hb1 & Ho1 & Hout1).
    destruct (IH Hnd (fun k Hk => Hlt k (list_elem_of_further _ _ _ Hk)) st1 Hwf1
                (pre_handles st st1 He1 Hb1 Hpre)) as (st' & E' & Hout').
    { intros k Hk. rewrite Ho1; [apply Hlb; now right |].
      intros ->. contradiction. }
    exists st'. simpl. rewrite (bind_normal _ _ _ _ _ E1).
    split; [assumption |].
    rewrite Hout', Hout1, He1, Hb1, <- app_assoc. f_equal.
    unfold releases. simpl. now rewrite app_nil_r.
Qed.

Lemma cycle_first bus lb encs btns :
  fault_free bus -> buttons_up bus ->
  wf (loop_entry encs btns lb) -> pre (loop_entry encs btns lb) ->
  exists st',
    for_in (range 4) (body bus) (loop_entry encs btns lb) = (Normal tt, st') /\
    button_lines (stdout st') = releases encs btns lb (range 4).
Proof.
  intros Hff Hup Hwf Hpre.
  destruct (for_in_first bus lb (range 4) Hff Hup) with (st := loop_entry encs btns lb)
    as (st' & E' & Hout); try assumption.
  - apply NoDup_seq.
  - intros j Hj. apply elem_of_seq in Hj. lia.
  - intros j Hj. apply elem_of_seq in Hj. simpl.
    do 4 (destruct j as [| j]; [reflexivity |]). lia.
  - exists st'. split; assumption.
Qed.
End FirstCycle.

Lemma releases_true encs btns js : releases encs btns true js = [].
Proof.
  unfold releases. induction js as [| j js IH]; simpl; [reflexivity |].
  now rewrite andb_false_r.
Qed.

Lemma working_first_body bus j st lb z :
  wf st -> True -> (j < 4)%nat ->
  position (bus j) = Value z -> value (bus j) = Value true ->
  last_buttons st !! j = Some lb ->
  exists st',
    qtpy_working.loop_body bus j st = (Normal tt, st') /\
    wf st' /\ encoders st' = encoders st /\ buttons st' = buttons st /\
    (forall k, k <> j -> last_buttons st' !! k = last_buttons st !! k) /\
    button_lines (stdout st') =
    button_lines (stdout st) ++ releases (encoders st) (buttons st) lb [j].
Proof.
  intros Hwf _ Hj Hz Hv Hlb.
  pose proof Hwf as (W1 & W2 & W3 & W4).
  destruct (lookup_lt_is_Some_2 (encoders st) j ltac:(lia)) as [[h |] He].
  2: { exists st. rewrite (working_skip bus j st He).
       unfold releases, working_channel. simpl. rewrite He, !app_nil_r.
       conj; auto. }
  destruct (lookup_lt_is_Some_2 (last_positions st) j ltac:(lia)) as [l Hl].
  destruct (lookup_lt_is_Some_2 (buttons st) j ltac:(lia)) as [[hb |] Hb].
  - eexists. split; [now apply (working_values bus j st h hb z l true lb) |].
    now apply (values_outcome j h hb z l lb st).
  - eexists. split; [now apply (working_button_absent bus j st h z l) |].
    rewrite encoders_after_encoder, buttons_after_encoder,
      last_buttons_after_encoder, button_lines_after_encoder.
    unfold releases, working_channel. simpl. rewrite He, Hb, !app_nil_r.
    conj; auto.
    eapply same_shape_wf; [apply same_shape_after_encoder | assumption].
Qed.

Lemma all_present_lookups st j :
  wf st -> all_present st -> (j < 4)%nat ->
  exists h hb l,
    encoders st !! j = Some (Some h) /\ buttons st !! j = Some (Some hb) /\
    last_positions st !! j = Some l.
Proof.
  intros (W1 & W2 & W3 & W4) Hp Hj.
  destruct (Hp j Hj) as [[h He] [hb Hb]].
  destruct (lookup_lt_is_Some_2 (last_positions st) j ltac:(lia)) as [l Hl].
  eauto 6.
Qed.

Lemma quad_rotary_values bus j st h hb z l b lb :
  encoders st !! j = Some (Some h) ->
  last_positions st !! j = Some l ->
  position (bus j) = Value z ->
  buttons st !! j = Some (Some hb) ->
  last_buttons st !! j = Some lb ->
  value (bus j) = Value b ->
  qtpy_quad_rotary_script.loop_body bus j st =
  (Normal tt, after_button j b lb (after_encoder j z l st)).
Proof.
  intros He Hl Hp Hb Hlb Hv. unfold qtpy_quad_rotary_script.loop_body.
  rewrite (bind_normal _ _ _ _ _ (raw_encoder_step_after _ _ _ _ _ _ He Hl Hp)).
  apply button_step_after with hb;
    [now rewrite buttons_after_encoder
    | now rewrite last_buttons_after_encoder | assumption].
Qed.

Lemma fixed_from_sample_values bus j st h hb z l b lb :
  encoders st !! j = Some (Some h) ->
  last_positions st !! j = Some l ->
  position (bus j) = Value z ->
  buttons st !! j = Some (Some hb) ->
  last_buttons st !! j = Some lb ->
  value (bus j) = Value b ->
  qtpy_fixed_from_sample.loop_body bus j st =
  (Normal tt, after_button j b lb (after_encoder j z l st)).
Proof.
  intros He Hl Hp Hb Hlb Hv. unfold qtpy_fixed_from_sample.loop_body.
  apply try_normal.
  rewrite (bind_normal _ _ _ _ _ (raw_encoder_step_after _ _ _ _ _ _ He Hl Hp)).
  apply button_step_after with hb;
    [now rewrite buttons_after_encoder
    | now rewrite last_buttons_after_encoder | assumption].
Qed.

Lemma all_present_handles st st' :
  encoders st' = encoders st -> buttons st' = buttons st ->
  all_present st -> all_present st'.
Proof. intros He Hb Hp j Hj. rewrite He, Hb. now apply Hp. Qed.

Lemma quad_rotary_first_body bus j st lb z :
  wf st -> all_present st -> (j < 4)%nat ->
  position (bus j) = Value z -> value (bus j) = Value true ->
  last_buttons st !! j = Some lb ->
  exists st',
    qtpy_quad_rotary_script.loop_body bus j st = (Normal tt, st') /\
    wf st' /\ encoders st' = encoders st /\ buttons st' = buttons st /\
    (forall k, k <> j -> last_buttons st' !! k = last_buttons st !! k) /\
    button_lines (stdout st') =
    button_lines (stdout st) ++ releases (encoders st) (buttons st) lb [j].
Proof.
  intros Hwf Hp Hj Hz Hv Hlb.
  destruct (all_present_lookups st j Hwf Hp Hj) as (h & hb & l & He & Hb & Hl).
  eexists. split; [now apply (quad_rotary_values bus j st h hb z l true lb) |].
  now apply (values_outcome j h hb z l lb st).
Qed.

Lemma fixed_from_sample_first_body bus j st lb z :
  wf st -> all_present st -> (j < 4)%nat ->
  position (bus j) = Value z -> value (bus j) = Value true ->
  last_buttons st !! j = Some lb ->
  exists st',
    qtpy_fixed_from_sample.loop_body bus j st = (Normal tt, st') /\
    wf st' /\ encoders st' = encoders st /\ buttons st' = buttons st /\
    (forall k, k <> j -> last_buttons st' !! k = last_buttons st !! k) /\
    button_lines (stdout st') =
    button_lines (stdout st) ++ releases (encoders st) (buttons st) lb [j].
Proof.
  intros Hwf Hp Hj Hz Hv Hlb.
  destruct (all_present_lookups st j Hwf Hp Hj) as (h & hb & l & He & Hb & Hl).
  eexists. split; [now apply (fixed_from_sample_values bus j st h hb z l true lb) |].
  now apply (values_outcome j h hb z l lb st).
Qed.

Lemma all_present_entry encs btns lb :
  Forall (fun h => h <> None) encs -> Forall (fun h => h <> None) btns ->
  length encs = 4%nat -> length btns = 4%nat ->
  all_present (loop_entry encs btns lb).
Proof.
  intros He Hb Le Lb j Hj. simpl.
  destruct (lookup_lt_is_Some_2 encs j ltac:(lia)) as [[h |] Hh];
  destruct (lookup_lt_is_Some_2 btns j ltac:(lia)) as [[hb |] Hhb]; eauto.
  - eapply Forall_lookup_1 in Hb; eauto. contradiction.
  - eapply Forall_lookup_1 in He; eauto. contradiction.
  - eapply Forall_lookup_1 in He; eauto. contradiction.
Qed.

(** C9: [last_buttons] starts all false in qtpy_working.py and
    qtpy_quad_rotary_script.py, the resting level of the pulled-up buttons
    reads true, so the first cycle prints one RELEASE for every working
    button though none was touched; qtpy_fixed_from_sample.py starts
    [last_buttons] all true and prints no button line in its first cycle. *)
Theorem first_cycle_spurious_release :
  (forall encs btns bus,
      length encs = 4%nat -> length btns = 4%nat ->
      fault_free bus -> buttons_up bus ->
      let r := qtpy_working.cycle bus (qtpy_working.entry encs btns) in
      fst r = Normal tt /\
      button_lines (stdout (snd r)) = releases encs btns false (range 4)) /\
  (forall bus,
      fault_free bus -> buttons_up bus ->
      let r := qtpy_quad_rotary_script.cycle bus qtpy_quad_rotary_script.entry in
      fst r = Normal tt /\
      button_lines (stdout (snd r)) =
      [B_RELEASE 1; B_RELEASE 2; B_RELEASE 3; B_RELEASE 4]) /\
  (forall bus,
      fault_free bus -> buttons_up bus ->
      let r := qtpy_fixed_from_sample.cycle bus qtpy_fixed_from_sample.entry in
      fst r = Normal tt /\ button_lines (stdout (snd r)) = []) /\
  releases standard_encoders standard_buttons false (range 4) =
    [B_RELEASE 1; B_RELEASE 2; B_RELEASE 3; B_RELEASE 4] /\
  map render [B_RELEASE 1; B_RELEASE 2; B_RELEASE 3; B_RELEASE 4] =
    ["B1:RELEASE"; "B2:RELEASE"; "B3:RELEASE"; "B4:RELEASE"].
Proof.
  conj.
  - intros encs btns bus Le Lb Hff Hup r.
    destruct (cycle_first qtpy_working.loop_body (fun _ => True)
                (fun _ _ _ _ H => H) working_first_body bus false encs btns Hff Hup)
      as (st' & E' & Hout); [repeat split; assumption | exact I |].
    subst r. unfold qtpy_working.cycle, qtpy_working.entry. rewrite E'.
    split; [reflexivity | exact Hout].
  - intros bus Hff Hup r.
    destruct (cycle_first qtpy_quad_rotary_script.loop_body all_present
                all_present_handles quad_rotary_first_body bus false
                [Some 12; Some 14; Some 17; Some 9]%nat
                [Some 24; Some 25; Some 26; Some 27]%nat Hff Hup)
      as (st' & E' & Hout).
    + repeat split.
    + apply all_present_entry; repeat constructor; discriminate.
    + subst r. unfold qtpy_quad_rotary_script.cycle, qtpy_quad_rotary_script.entry.
      rewrite E'. split; [reflexivity | exact Hout].
  - intros bus Hff Hup r.
    destruct (cycle_first qtpy_fixed_from_sample.loop_body all_present
                all_present_handles fixed_from_sample_first_body bus true
                [Some 0; Some 1; Some 2; Some 3]%nat
                [Some 12; Some 14; Some 17; Some 9]%nat Hff Hup)
      as (st' & E' & Hout).
    + repeat split.
    + apply all_present_entry; repeat constructor; discriminate.
    + subst r. unfold qtpy_fixed_from_sample.cycle, qtpy_fixed_from_sample.entry.
      rewrite E'. simpl. split; [reflexivity |]. now rewrite Hout, releases_true.
  - reflexivity.
  - reflexivity.
Qed.

(** The first cycle of qtpy_working.py on a board whose third channel
    failed to initialise, all encoders at rest. *)
Lemma first_cycle_spurious_release_witness :
  let encs := [Some 12; Some 14; None; Some 9]%nat in
  let btns := [Some 24; Some 25; None; Some 27]%nat in
  let r := qtpy_working.cycle all_quiet (qtpy_working.entry encs btns) in
  fst r = Normal tt /\
  button_lines (stdout (snd r)) = releases encs btns false (range 4).
Proof.
  intros encs btns.
  apply (proj1 first_cycle_spurious_release encs btns all_quiet);
    [reflexivity | reflexivity | |].
  - intros j _. split; eexists; reflexivity.
  - intros j _. reflexivity.
Defined.

(** ** A read fault in a loop without a handler *)
Section Unguarded.
Import qtpy_quad_rotary_script.

Lemma for_in_app {A} (l1 l2 : list A) (body : A -> Py unit) st :
  for_in (l1 ++ l2) body st = (for_in l1 body ;; for_in l2 body) st.
Proof.
  revert st. induction l1 as [| x l1 IH]; intros st; simpl.
  - reflexivity.
  - unfold bind in *. destruct (body x st) as [[[] | e] st1]; [| reflexivity].
    apply IH.
Qed.

Lemma untouched_quad_rotary bus j k :
  k <> j -> preserves (untouched j) (loop_body bus k).
Proof.
  intros Hne. unfold loop_body.
  assert (Hp : forall l, preserves (untouched j) (print l))
    by (intros l st; repeat split).
  apply preserves_bind; [apply untouched_trans | | intros _].
  - apply body_raw_encoder_step;
      [apply untouched_refl | apply untouched_trans | exact Hp |].
    intros v. apply untouched_assign. intros st. unfold untouched. simpl.
    rewrite list_lookup_insert_ne by assumption. tauto.
  - apply body_button_step;
      [apply untouched_refl | apply untouched_trans | exact Hp |].
    intros v. apply untouched_assign. intros st. unfold untouched. simpl.
    rewrite list_lookup_insert_ne by assumption. tauto.
Qed.

Lemma quad_rotary_bad_read bus i st e :
  wf st -> all_present st -> (i < 4)%nat -> bad_read bus i e ->
  exists st', loop_body bus i st = (Raised e, st').
Proof.
  intros Hwf Hp Hi Hbad.
  destruct (all_present_lookups st i Hwf Hp Hi) as (h & hb & l & He & Hb & Hl).
  unfold loop_body. destruct Hbad as [Hpos | (z & Hpos & Hv)].
  - exists st. apply bind_raised. now apply raw_encoder_step_fault with h.
  - exists (after_encoder i z l st).
    rewrite (bind_normal _ _ _ _ _ (raw_encoder_step_after _ _ _ _ _ _ He Hl Hpos)).
    apply button_step_fault with hb;
      [now rewrite buttons_after_encoder | assumption].
Qed.

(** The first bad read of a cycle ends the cycle and the loop: the
    channels after it are not reached and no later cycle runs. *)
Lemma quad_rotary_fault_propagates bus i st e :
  wf st -> all_present st -> (i < 4)%nat ->
  (forall j, (j < i)%nat -> good_reads bus j) ->
  bad_read bus i e ->
  exists st',
    (forall rest, main_loop (bus :: rest) st = (Raised e, st')) /\
    (forall k, (i < k)%nat -> untouched k st st').
Proof.
  intros Hwf Hp Hi Hgood Hbad.
  destruct (for_in_fault_free bus (seq 0 i)) with (st := st)
    as (st1 & E1 & Hwf1 & Hp1 & _); try assumption.
  { intros j Hj. apply elem_of_seq in Hj. apply Hgood. lia. }
  { apply NoDup_seq. }
  { intros j Hj. apply elem_of_seq in Hj. lia. }
  destruct (quad_rotary_bad_read bus i st1 e Hwf1 Hp1 Hi Hbad) as (st2 & E2).
  exists st2. split.
  - intros rest. unfold main_loop, while_true. simpl.
    apply bind_raised. unfold cycle, range.
    replace 4%nat with (i + S (3 - i))%nat by lia.
    rewrite seq_app, for_in_app. rewrite (bind_normal _ _ _ _ _ E1).
    simpl. now apply bind_raised.
  - intros k Hk. apply untouched_trans with st1.
    + change st1 with (snd (Normal tt, st1)). rewrite <- E1.
      apply preserves_for_in_elem;
        [apply untouched_refl | apply untouched_trans |].
      intros j Hj. apply elem_of_seq in Hj.
      apply untouched_quad_rotary. lia.
    + change st2 with (snd (@Raised unit e, st2)). rewrite <- E2.
      apply untouched_quad_rotary. lia.
Qed.
End Unguarded.

(** ** A read fault in qtpy_working.py does not starve the other channels *)
Section StillPolled.
Import qtpy_working.

Lemma last_positions_after_button i b lb st :
  last_positions (after_button i b lb st) = last_positions st.
Proof. unfold after_button. now destruct (eqb b lb). Qed.

(** Whatever its button does, a channel whose encoder reads [z] has
    [z] recorded. *)
Lemma working_body_polled bus j st h z :
  wf st -> (j < 4)%nat ->
  encoders st !! j = Some (Some h) -> position (bus j) = Value z ->
  last_positions (snd (loop_body bus j st)) !! j = Some z.
Proof.
  intros Hwf Hj He Hz.
  pose proof Hwf as (W1 & W2 & W3 & W4).
  destruct (lookup_lt_is_Some_2 (last_positions st) j ltac:(lia)) as [l Hl].
  destruct (lookup_lt_is_Some_2 (last_buttons st) j ltac:(lia)) as [lb Hlb].
  pose proof (last_positions_after_encoder j st z l Hl) as Hz1.
  destruct (lookup_lt_is_Some_2 (buttons st) j ltac:(lia)) as [[hb |] Hb].
  - destruct (value (bus j)) as [b | e] eqn:Hv.
    + rewrite (working_values bus j st h hb z l b lb) by assumption.
      simpl. now rewrite last_positions_after_button.
    + rewrite (working_button_fault bus j st h hb z l e) by assumption.
      pose proof (same_shape_after_encoder j st z l) as (S1 & S2 & _).
      destruct (contains "No such device" e) eqn:Hc.
      * rewrite working_handler_absent by (assumption || lia). exact Hz1.
      * rewrite working_handler_transient by assumption. exact Hz1.
  - now rewrite (working_button_absent bus j st h z l) by assumption.
Qed.

Lemma working_for_in_polled bus j h z (js : list nat) :
  position (bus j) = Value z ->
  NoDup js -> (forall k, k ∈ js -> (k < 4)%nat) -> j ∈ js ->
  forall st,
    wf st -> encoders st !! j = Some (Some h) ->
    last_positions (snd (for_in js (loop_body bus) st)) !! j = Some z.
Proof.
  intros Hz. induction js as [| k js IH]; intros Hnd Hlt Hin st Hwf He.
  - now apply elem_of_nil in Hin.
  - apply NoDup_cons in Hnd as [Hk Hnd].
    assert (Hk4 : (k < 4)%nat) by (apply Hlt; left).
    destruct (working_body_total bus k st Hwf Hk4) as (st1 & E1 & Hwf1).
    simpl. rewrite (bind_normal _ _ _ _ _ E1).
    destruct (decide (j = k)) as [-> | Hne].
    + assert (Hu : untouched k st1 (snd (for_in js (loop_body bus) st1))).
      { apply preserves_for_in_elem;
          [apply untouched_refl | apply untouched_trans |].
        intros x Hx. apply untouched_working. intros ->. contradiction. }
      destruct Hu as (_ & _ & -> & _).
      change st1 with (snd (Normal tt, st1)). rewrite <- E1.
      now apply working_body_polled with h.
    + apply elem_of_cons in Hin as [-> | Hin]; [contradiction |].
      apply IH; try assumption.
      * intros x Hx. apply Hlt. now right.
      * pose proof (untouched_working bus j k (not_eq_sym Hne) st) as (Hu & _).
        rewrite E1 in Hu. simpl in Hu. now rewrite Hu.
Qed.

Lemma working_cycle_polled bus st j h z :
  wf st -> (j < 4)%nat ->
  encoders st !! j = Some (Some h) -> position (bus j) = Value z ->
  last_positions (snd (cycle bus st)) !! j = Some z.
Proof.
  intros Hwf Hj He Hz. apply working_for_in_polled with h; try assumption.
  - apply NoDup_seq.
  - intros k Hk. apply elem_of_seq in Hk. lia.
  - apply elem_of_seq. lia.
Qed.

(** Every read fault of a channel ends in the handler, which returns. *)
Lemma working_fault_converted bus i st e :
  wf st -> (i < 4)%nat -> read_fault bus i st e ->
  exists st0,
    encoders st0 = encoders st /\ buttons st0 = buttons st /\
    loop_body bus i st =
    (Normal tt,
     if contains "No such device" e
     then printed [working_disabled i]
            (disabled i (printed [working_error i e] st0))
     else printed [working_error i e] st0).
Proof.
  intros Hwf Hi Hf.
  destruct (wf_lengths st i Hwf Hi) as (L1 & L2 & _).
  destruct (working_fault_equation bus i st e Hwf Hi Hf) as (st0 & E0 & S1 & S2).
  exists st0. conj; try assumption. rewrite E0.
  destruct (contains "No such device" e) eqn:Hc.
  - apply working_handler_absent; [assumption | |]; rewrite ?S1, ?S2; assumption.
  - now apply working_handler_transient.
Qed.
End StillPolled.

(** C8, as the code has it: in qtpy_working.py no read fault leaves the
    loop.  Whatever the bus does the loop keeps returning; a faulting
    channel ends in the handler, which prints the error line and, for a
    device-absent fault, disables the channel; and every channel whose
    encoder answers in a cycle has its position recorded in that cycle,
    whatever happens on the other channels.  qtpy_quad_rotary_script.py
    has no handler: the first faulting read of a cycle leaves the loop, the
    channels after it are not read and no later cycle runs. *)
Theorem faults_stay_inside_guarded_loop :
  (forall buses st,
      wf st ->
      exists st', qtpy_working.main_loop buses st = (Normal tt, st') /\ wf st') /\
  (forall bus i st e,
      wf st -> (i < 4)%nat -> read_fault bus i st e ->
      exists st0,
        encoders st0 = encoders st /\ buttons st0 = buttons st /\
        qtpy_working.loop_body bus i st =
        (Normal tt,
         if contains "No such device" e
         then printed [working_disabled i]
                (disabled i (printed [working_error i e] st0))
         else printed [working_error i e] st0)) /\
  (forall bus st j h z,
      wf st -> (j < 4)%nat ->
      encoders st !! j = Some (Some h) -> position (bus j) = Value z ->
      last_positions (snd (qtpy_working.cycle bus st)) !! j = Some z) /\
  (forall bus i st e,
      wf st -> all_present st -> (i < 4)%nat ->
      (forall j, (j < i)%nat -> good_reads bus j) ->
      bad_read bus i e ->
      exists st',
        (forall rest,
            qtpy_quad_rotary_script.main_loop (bus :: rest) st = (Raised e, st')) /\
        (forall k, (i < k)%nat -> untouched k st st')).
Proof.
  conj.
  - intros buses st. apply working_main_loop_total.
  - apply working_fault_converted.
  - apply working_cycle_polled.
  - apply quad_rotary_fault_propagates.
Qed.

(** In qtpy_working.py encoder 2 is turned to 5 in the cycle in which the
    encoder read of channel 1 finds the device gone: 5 is recorded. *)
Lemma faults_stay_inside_guarded_loop_witness :
  let bus := fun j => if decide (j = 0%nat)
                      then mkReads (Fault "[Errno 19] No such device") (Value true)
                      else if decide (j = 1%nat) then mkReads (Value 5) (Value true)
                      else quiet in
  let st := qtpy_working.entry standard_encoders standard_buttons in
  last_positions (snd (qtpy_working.cycle bus st)) !! 1%nat = Some 5.
Proof.
  intros bus st.
  apply (proj1 (proj2 (proj2 faults_stay_inside_guarded_loop)) bus st 1%nat 14%nat 5);
    [repeat split | lia | reflexivity | reflexivity].
Defined.

(** C8 as stated fails on qtpy_quad_rotary_script.py: after a quiet cycle
    the encoder read of channel 1 raises, the exception leaves the loop,
    encoder 2 (turned to 5 in that cycle) is never read and the third
    cycle never runs. *)
Lemma fault_leaves_unguarded_loop :
  let bus := fun j => if decide (j = 0%nat)
                      then mkReads (Fault "[Errno 19] No such device") (Value true)
                      else if decide (j = 1%nat) then mkReads (Value 5) (Value true)
                      else quiet in
  let r := qtpy_quad_rotary_script.main_loop [all_quiet; bus; button1_down]
             qtpy_quad_rotary_script.entry in
  fst r = Raised "[Errno 19] No such device" /\
  map render (stdout (snd r)) =
    ["B1:RELEASE"; "B2:RELEASE"; "B3:RELEASE"; "B4:RELEASE"] /\
  last_positions (snd r) = [0; 0; 0; 0].
Proof. vm_compute. repeat split. Qed.

(** ** The address probe *)
Section ProbeOrder.
Context {Driver Session : Type}.
Variable open : Opener Driver Session.

Lemma recording_fault a d calls e d' :
  open a d = (Fault e, d') ->
  recording open a (d, calls) = (Fault e, (d', calls ++ [a])).
Proof. intros H. unfold recording. simpl. now rewrite H. Qed.

Lemma recording_value a d calls s d' :
  open a d = (Value s, d') ->
  recording open a (d, calls) = (Value s, (d', calls ++ [a])).
Proof. intros H. unfold recording. simpl. now rewrite H. Qed.

Lemma fixed_pins_probe_first_success pre c post :
  forall d0 d1 d2 s calls sb out,
    all_fault open pre d0 = Some d1 ->
    open c d1 = (Value s, d2) ->
    let su := qtpy_fixed_pins.probe (recording open) (pre ++ c :: post)
                (mkStartup sb (d0, calls) out) in
    seesaw_board su = Some s /\ i2c su = (d2, calls ++ pre ++ [c]).
Proof.
  induction pre as [| a pre IH]; intros d0 d1 d2 s calls sb out Hpre Hc; simpl in *.
  - injection Hpre as <-. rewrite (recording_value _ _ _ _ _ Hc). now simpl.
  - destruct (open a d0) as [[s' | e] d'] eqn:Ha; [discriminate |].
    rewrite (recording_fault _ _ _ _ _ Ha).
    replace (calls ++ a :: pre ++ [c]) with ((calls ++ [a]) ++ pre ++ [c])
      by now rewrite <- app_assoc.
    unfold say. simpl. eapply IH; eassumption.
Qed.

Lemma pullups_probe_first_success pre c post :
  forall d0 d1 d2 s calls sb out,
    all_fault open pre d0 = Some d1 ->
    open c d1 = (Value s, d2) ->
    let su := qtpy_pullups.probe (recording open) (pre ++ c :: post)
                (mkStartup sb (d0, calls) out) in
    seesaw_board su = Some s /\ i2c su = (d2, calls ++ pre ++ [c]).
Proof.
  induction pre as [| a pre IH]; intros d0 d1 d2 s calls sb out Hpre Hc; simpl in *.
  - injection Hpre as <-. rewrite (recording_value _ _ _ _ _ Hc). now simpl.
  - destruct (open a d0) as [[s' | e] d'] eqn:Ha; [discriminate |].
    rewrite (recording_fault _ _ _ _ _ Ha).
    replace (calls ++ a :: pre ++ [c]) with ((calls ++ [a]) ++ pre ++ [c])
      by now rewrite <- app_assoc.
    unfold say. simpl. eapply IH; eassumption.
Qed.
End ProbeOrder.

(** C4: the probe opens the candidate addresses in list order, goes on
    past every address whose initialisation faults and stops at the first
    that succeeds, leaving the later ones untried; on [A, B, C] with A and
    B faulting and C answering, the driver is asked for A, then B, then C,
    and [seesaw_board] is the session opened at C. *)
Theorem probe_in_priority_order :
  forall (Driver Session : Type) (open : Opener Driver Session),
    (forall pre c post d0 d1 d2 s,
        all_fault open pre d0 = Some d1 ->
        open c d1 = (Value s, d2) ->
        let su := qtpy_fixed_pins.probe (recording open) (pre ++ c :: post)
                    (mkStartup None (d0, []) []) in
        let su' := qtpy_pullups.probe (recording open) (pre ++ c :: post)
                     (mkStartup None (d0, []) []) in
        seesaw_board su = Some s /\ i2c su = (d2, pre ++ [c]) /\
        seesaw_board su' = Some s /\ i2c su' = (d2, pre ++ [c])) /\
    (forall A B C d0 d1 d2 d3 eA eB s,
        open A d0 = (Fault eA, d1) ->
        open B d1 = (Fault eB, d2) ->
        open C d2 = (Value s, d3) ->
        let su := qtpy_fixed_pins.probe (recording open) [A; B; C]
                    (mkStartup None (d0, []) []) in
        let su' := qtpy_pullups.probe (recording open) [A; B; C]
                     (mkStartup None (d0, []) []) in
        seesaw_board su = Some s /\ i2c su = (d3, [A; B; C]) /\
        map render (console su) =
          ["Trying I2C address 0x" +:+ format_02x A;
           "Address 0x" +:+ format_02x A +:+ " failed: " +:+ eA;
           "Trying I2C address 0x" +:+ format_02x B;
           "Address 0x" +:+ format_02x B +:+ " failed: " +:+ eB;
           "Trying I2C address 0x" +:+ format_02x C;
           "Found seesaw at address 0x" +:+ format_02x C] /\
        seesaw_board su' = Some s /\ i2c su' = (d3, [A; B; C]) /\
        map render (console su') =
          ["Trying seesaw at 0x" +:+ format_02x A +:+ "...";
           "  0x" +:+ format_02x A +:+ " failed: " +:+ eA;
           "Trying seesaw at 0x" +:+ format_02x B +:+ "...";
           "  0x" +:+ format_02x B +:+ " failed: " +:+ eB;
           "Trying seesaw at 0x" +:+ format_02x C +:+ "...";
           "Connected to seesaw at 0x" +:+ format_02x C +:+ "!"]).
Proof.
  intros Driver Session open. split.
  - intros pre c post d0 d1 d2 s Hpre Hc su su'.
    destruct (fixed_pins_probe_first_success open pre c post d0 d1 d2 s [] None []
                Hpre Hc) as [H1 H2].
    destruct (pullups_probe_first_success open pre c post d0 d1 d2 s [] None []
                Hpre Hc) as [H3 H4].
    conj; assumption.
  - intros A B C d0 d1 d2 d3 eA eB s HA HB HC su su'.
    subst su su'. simpl.
    rewrite (recording_fault open _ _ _ _ _ HA). simpl.
    rewrite (recording_fault open _ _ _ _ _ HB). simpl.
    rewrite (recording_value open _ _ _ _ _ HC). simpl.
    conj; reflexivity.
Qed.

(** The address list of qtpy_fixed_pins.py against a board at 0x3A: 0x36
    and 0x49 are tried and fail, 0x3A is taken, 0x3B is never tried. *)
Lemma probe_in_priority_order_witness :
  let su := qtpy_fixed_pins.probe (recording board_at_3a)
              ([0x36; 0x49] ++ 0x3A :: [0x3B])%nat (mkStartup None (tt, []) []) in
  let su' := qtpy_pullups.probe (recording board_at_3a)
               ([0x36; 0x49] ++ 0x3A :: [0x3B])%nat (mkStartup None (tt, []) []) in
  seesaw_board su = Some 0x3A%nat /\ i2c su = (tt, [0x36; 0x49] ++ [0x3A])%nat /\
  seesaw_board su' = Some 0x3A%nat /\ i2c su' = (tt, [0x36; 0x49] ++ [0x3A])%nat.
Proof.
  apply (proj1 (probe_in_priority_order unit nat board_at_3a)
           [0x36; 0x49]%nat 0x3A%nat [0x3B]%nat tt tt tt 0x3A%nat);
    reflexivity.
Defined.

(** ** qtpy_fixed_pins.py: the handler does not look at the fault *)
Section FixedPins.
Import qtpy_fixed_pins.
Variables (bus : Bus) (i : nat) (st : State).

Lemma fixed_pins_handler e :
  (i < length (encoders st))%nat -> (i < length (buttons st))%nat ->
  handler i e st = (Normal tt, disabled i (printed [working_error i e] st)).
Proof.
  intros He Hb. unfold handler, bind, print. simpl.
  unfold set_encoder, set_button, assign_checked. simpl.
  destruct (Nat.ltb_spec i (length (encoders st))); [| lia]. simpl.
  destruct (Nat.ltb_spec i (length (buttons st))); [| lia].
  reflexivity.
Qed.

Lemma fixed_pins_fault_equation e :
  wf st -> (i < 4)%nat -> read_fault bus i st e ->
  exists st0,
    loop_body bus i st = handler i e st0 /\
    encoders st0 = encoders st /\ buttons st0 = buttons st.
Proof.
  intros Hwf Hi [(h & He & Hp) | (h & hb & z & He & Hp & Hb & Hv)];
    unfold loop_body;
    rewrite (bind_normal _ _ _ _ _ (getitem_some _ _ encoders _ He)).
  - exists st. conj; try reflexivity.
    apply try_raised. apply bind_raised.
    now apply raw_encoder_step_fault with h.
  - destruct (wf_lengths st i Hwf Hi) as (_ & _ & l & Hl).
    exists (after_encoder i z l st).
    rewrite encoders_after_encoder, buttons_after_encoder.
    conj; try reflexivity.
    apply try_raised.
    rewrite (bind_normal _ _ _ _ _ (raw_encoder_step_after _ _ _ _ _ _ He Hl Hp)).
    rewrite (guarded_button_step_some _ _ _ hb)
      by now rewrite buttons_after_encoder.
    apply button_step_fault with hb;
      [now rewrite buttons_after_encoder | assumption].
Qed.
End FixedPins.

(** C3 on qtpy_fixed_pins.py: every read fault, whatever its kind, sets
    both handles of the channel to [None].  After a quiet cycle, one
    input/output error on the encoder read of channel 1 disables the
    channel, and turning encoder 1 in the next cycle prints nothing;
    qtpy_working.py on the same bus logs the error, keeps the channel and
    prints "E1:2". *)
Theorem fixed_pins_disables_on_any_fault :
  (forall bus i st e,
      wf st -> (i < 4)%nat -> read_fault bus i st e ->
      exists st',
        qtpy_fixed_pins.loop_body bus i st = (Normal tt, st') /\
        encoders st' !! i = Some None /\
        buttons st' !! i = Some None) /\
  (let buses := [all_quiet; encoder1_glitch; encoder1_turned] in
   let r := qtpy_fixed_pins.main_loop buses
              (qtpy_fixed_pins.entry standard_encoders standard_buttons) in
   let r' := qtpy_working.main_loop buses
               (qtpy_working.entry standard_encoders standard_buttons) in
   transient "[Errno 5] Input/output error" /\
   encoders (snd r) = [None; Some 14; Some 17; Some 9]%nat /\
   buttons (snd r) = [None; Some 25; Some 26; Some 27]%nat /\
   map render (stdout (snd r)) =
     ["B1:RELEASE"; "B2:RELEASE"; "B3:RELEASE"; "B4:RELEASE";
      "Error reading encoder 1: [Errno 5] Input/output error"] /\
   encoders (snd r') = standard_encoders /\
   buttons (snd r') = standard_buttons /\
   map render (stdout (snd r')) =
     ["B1:RELEASE"; "B2:RELEASE"; "B3:RELEASE"; "B4:RELEASE";
      "Error reading encoder 1: [Errno 5] Input/output error"; "E1:2"]).
Proof.
  split.
  - intros bus i st e Hwf Hi Hf.
    destruct (wf_lengths st i Hwf Hi) as (L1 & L2 & _).
    destruct (fixed_pins_fault_equation bus i st e Hwf Hi Hf) as (st0 & E0 & S1 & S2).
    rewrite fixed_pins_handler in E0 by (rewrite ?S1, ?S2; assumption).
    eexists. conj; [exact E0 | |]; simpl.
    + rewrite S1. now apply list_lookup_insert_eq.
    + rewrite S2. now apply list_lookup_insert_eq.
  - vm_compute. repeat split.
Qed.

(** One input/output error on the encoder read of channel 1. *)
Lemma fixed_pins_disables_on_any_fault_witness :
  let st := qtpy_fixed_pins.entry standard_encoders standard_buttons in
  exists st',
    qtpy_fixed_pins.loop_body encoder1_glitch 0 st = (Normal tt, st') /\
    encoders st' !! 0%nat = Some None /\
    buttons st' !! 0%nat = Some None.
Proof.
  intros st.
  apply (proj1 fixed_pins_disables_on_any_fault encoder1_glitch 0%nat st
           "[Errno 5] Input/output error");
    [repeat split | lia |].
  left. exists 12%nat. split; reflexivity.
Defined.


(** * Further properties of the loops *)

(** ** What one step can do to the state *)
Section StepCases.
Variables (bus : Bus) (k : nat) (st : State).

Lemma getitem_none {A} (xs : State -> list A) :
  xs st !! k = None -> getitem xs k st = (Raised "list index out of range", st).
Proof. intros H. unfold getitem. now rewrite H. Qed.

(** A read either returns in the same state or raises in the same state. *)
Lemma pure_outcome {A} (m : Py A) :
  pure m -> (exists a, m st = (Normal a, st)) \/ (exists e, m st = (Raised e, st)).
Proof.
  intros Hp. specialize (Hp st).
  destruct (m st) as [[a | e] st1]; simpl in Hp; subst; eauto.
Qed.

(** The raw encoder step leaves the state alone or records one move. *)
Lemma raw_encoder_step_cases :
  snd (raw_encoder_step bus k st) = st \/
  exists cur l,
    cur <> l /\ last_positions st !! k = Some l /\
    snd (raw_encoder_step bus k st) = moved k cur (E (k + 1) (cur - l)) st.
Proof.
  unfold raw_encoder_step.
  destruct (pure_outcome _ (pure_encoder_position bus k)) as [[cur E1] | [e E1]].
  2: { left. now rewrite (bind_raised _ _ _ _ _ E1). }
  rewrite (bind_normal _ _ _ _ _ E1).
  destruct (last_positions st !! k) as [l |] eqn:Hl.
  2: { left. now rewrite (bind_raised _ _ _ _ _ (getitem_none _ Hl)). }
  rewrite (bind_normal _ _ _ _ _ (getitem_some _ _ last_positions _ Hl)).
  destruct (Z.eqb_spec cur l) as [| Hne]; simpl; [now left |].
  right. exists cur, l. conj; try assumption; try reflexivity.
  rewrite (bind_normal _ _ _ _ _ (getitem_some _ _ last_positions _ Hl)).
  unfold bind, print, set_last_position, assign_checked. simpl.
  apply lookup_lt_Some in Hl.
  destruct (Nat.ltb_spec k (length (last_positions st))); [reflexivity | lia].
Qed.

(** The button step leaves the state alone or records one edge. *)
Lemma button_step_cases :
  snd (button_step bus k st) = st \/
  exists b lb,
    b = negb lb /\ last_buttons st !! k = Some lb /\
    snd (button_step bus k st) = toggled k b (edge_line k b) st.
Proof.
  unfold button_step.
  destruct (pure_outcome _ (pure_button_value bus k)) as [[b E1] | [e E1]].
  2: { left. now rewrite (bind_raised _ _ _ _ _ E1). }
  rewrite (bind_normal _ _ _ _ _ E1).
  destruct (last_buttons st !! k) as [lb |] eqn:Hl.
  2: { left. now rewrite (bind_raised _ _ _ _ _ (getitem_none _ Hl)). }
  rewrite (bind_normal _ _ _ _ _ (getitem_some _ _ last_buttons _ Hl)).
  destruct (eqb b lb) eqn:Hb; simpl; [now left |].
  right. exists b, lb. conj; try assumption; try reflexivity.
  - destruct b, lb; simpl in *; congruence.
  - apply lookup_lt_Some in Hl. unfold edge_line.
    destruct b; unfold bind, print, set_last_button, assign_checked; simpl;
      destruct (Nat.ltb_spec k (length (last_buttons st))); (reflexivity || lia).
Qed.

(** The divisor-scaled step leaves the state alone or records one move
    of one step up or down. *)
Lemma grid_encoder_step_cases D :
  snd (qtpy_grid_sequencer.encoder_step_with D bus k st) = st \/
  exists s delta,
    (delta = 1 \/ delta = -1) /\
    snd (qtpy_grid_sequencer.encoder_step_with D bus k st) =
    moved k s (E_signed (k + 1) delta) st.
Proof.
  unfold qtpy_grid_sequencer.encoder_step_with.
  destruct (pure_outcome _ (pure_encoder_position bus k)) as [[raw E1] | [e E1]].
  2: { left. now rewrite (bind_raised _ _ _ _ _ E1). }
  rewrite (bind_normal _ _ _ _ _ E1).
  unfold floordiv. destruct (D =? 0); [now left |].
  assert (E2 : ret (raw / D) st = (Normal (raw / D), st)) by reflexivity.
  rewrite !(bind_normal _ _ _ _ _ E2).
  destruct (last_positions st !! k) as [l |] eqn:Hl.
  2: { left. now rewrite (bind_raised _ _ _ _ _ (getitem_none _ Hl)). }
  rewrite (bind_normal _ _ _ _ _ (getitem_some _ _ last_positions _ Hl)).
  destruct (Z.eqb_spec (raw / D) l) as [| Hne]; simpl; [now left |].
  right. exists (raw / D).
  exists (if raw / D - l >? 1 then 1 else if raw / D - l <? -1 then -1 else raw / D - l).
  split.
  - destruct (Z.gtb_spec (raw / D - l) 1); [now left |].
    destruct (Z.ltb_spec (raw / D - l) (-1)); [now right | lia].
  - rewrite (bind_normal _ _ _ _ _ (getitem_some _ _ last_positions _ Hl)).
    unfold bind, print, set_last_position, assign_checked. simpl.
    apply lookup_lt_Some in Hl.
    destruct (Nat.ltb_spec k (length (last_positions st))); [reflexivity | lia].
Qed.

(** The sign-normalized step leaves the state alone or records one move
    of one step up or down. *)
Lemma normalized_encoder_step_cases :
  snd (qtpy_normalized_steps.encoder_step bus k st) = st \/
  exists cur delta,
    (delta = 1 \/ delta = -1) /\
    snd (qtpy_normalized_steps.encoder_step bus k st) =
    moved k cur (E_signed (k + 1) delta) st.
Proof.
  unfold qtpy_normalized_steps.encoder_step.
  destruct (pure_outcome _ (pure_encoder_position bus k)) as [[cur E1] | [e E1]].
  2: { left. now rewrite (bind_raised _ _ _ _ _ E1). }
  rewrite (bind_normal _ _ _ _ _ E1).
  destruct (last_positions st !! k) as [l |] eqn:Hl.
  2: { left. now rewrite (bind_raised _ _ _ _ _ (getitem_none _ Hl)). }
  rewrite (bind_normal _ _ _ _ _ (getitem_some _ _ last_positions _ Hl)).
  destruct (Z.eqb_spec cur l) as [| Hne]; simpl; [now left |].
  right. exists cur, (if cur - l >? 0 then 1 else -1).
  split; [destruct (cur - l >? 0); auto |].
  rewrite (bind_normal _ _ _ _ _ (getitem_some _ _ last_positions _ Hl)).
  apply lookup_lt_Some in Hl.
  destruct (cur - l >? 0); unfold bind, print, set_last_position, assign_checked; simpl;
    destruct (Nat.ltb_spec k (length (last_positions st))); (reflexivity || lia).
Qed.
End StepCases.

(** ** Invariants of whole loops, from what a move, an edge, a diagnostic
    and a disabling assignment do *)
Section Scripts.
Variable R : State -> State -> Prop.
Hypothesis R_refl : forall st, R st st.
Hypothesis R_trans : forall a b c, R a b -> R b c -> R a c.
Hypothesis R_moved :
  forall k cur l st,
    cur <> l -> last_positions st !! k = Some l ->
    R st (moved k cur (E (k + 1) (cur - l)) st).
Hypothesis R_moved_signed :
  forall k s delta st,
    delta = 1 \/ delta = -1 -> R st (moved k s (E_signed (k + 1) delta) st).
Hypothesis R_toggled :
  forall k b lb st,
    b = negb lb -> last_buttons st !! k = Some lb ->
    R st (toggled k b (edge_line k b) st).
Hypothesis R_diag : forall t st, R st (printed [Diag t] st).
Hypothesis R_encoder : forall k, preserves R (set_encoder k None).
Hypothesis R_button : forall k, preserves R (set_button k None).

Lemma script_raw_encoder_step bus k : preserves R (raw_encoder_step bus k).
Proof.
  intros st.
  destruct (raw_encoder_step_cases bus k st) as [-> | (cur & l & Hne & Hl & ->)];
    [apply R_refl | now apply R_moved].
Qed.

Lemma script_button_step bus k : preserves R (button_step bus k).
Proof.
  intros st.
  destruct (button_step_cases bus k st) as [-> | (b & lb & Hne & Hl & ->)];
    [apply R_refl | now apply R_toggled with lb].
Qed.

Lemma script_grid_encoder_step bus k :
  preserves R (qtpy_grid_sequencer.encoder_step bus k).
Proof.
  intros st. unfold qtpy_grid_sequencer.encoder_step.
  destruct (grid_encoder_step_cases bus k st qtpy_grid_sequencer.ENCODER_DIVISOR)
    as [-> | (s & delta & Hd & ->)]; [apply R_refl | now apply R_moved_signed].
Qed.

Lemma script_normalized_encoder_step bus k :
  preserves R (qtpy_normalized_steps.encoder_step bus k).
Proof.
  intros st.
  destruct (normalized_encoder_step_cases bus k st)
    as [-> | (s & delta & Hd & ->)]; [apply R_refl | now apply R_moved_signed].
Qed.

Lemma script_print_diag t : preserves R (print (Diag t)).
Proof. intros st. apply R_diag. Qed.

Lemma script_guarded_button_step bus k : preserves R (guarded_button_step bus k).
Proof.
  unfold guarded_button_step. apply (preserves_bind R R_trans).
  - apply (preserves_pure R R_refl). apply pure_getitem.
  - intros [h |]; [apply script_button_step |].
    apply (preserves_pure R R_refl). apply pure_ret.
Qed.

Lemma script_guarded_encoder_step bus k :
  preserves R (qtpy_simple.guarded_encoder_step bus k).
Proof.
  unfold qtpy_simple.guarded_encoder_step. apply (preserves_bind R R_trans).
  - apply (preserves_pure R R_refl). apply pure_getitem.
  - intros [h |]; [apply script_raw_encoder_step |].
    apply (preserves_pure R R_refl). apply pure_ret.
Qed.

Lemma script_disable k : preserves R (set_encoder k None ;; set_button k None).
Proof.
  apply (preserves_bind R R_trans); [apply R_encoder | intros _; apply R_button].
Qed.

Lemma script_quad_rotary bus k :
  preserves R (qtpy_quad_rotary_script.loop_body bus k).
Proof.
  unfold qtpy_quad_rotary_script.loop_body. apply (preserves_bind R R_trans);
    [apply script_raw_encoder_step | intros _; apply script_button_step].
Qed.

Lemma script_guarded_pair bus k :
  preserves R (raw_encoder_step bus k ;; guarded_button_step bus k).
Proof.
  apply (preserves_bind R R_trans);
    [apply script_raw_encoder_step | intros _; apply script_guarded_button_step].
Qed.

Lemma script_working bus k : preserves R (qtpy_working.loop_body bus k).
Proof.
  unfold qtpy_working.loop_body. apply (preserves_bind R R_trans).
  { apply (preserves_pure R R_refl). apply pure_getitem. }
  intros [h |]; [| apply (preserves_pure R R_refl); apply pure_ret].
  apply (preserves_try R R_trans); [apply script_guarded_pair |].
  intros e. unfold qtpy_working.handler.
  apply (preserves_bind R R_trans); [apply script_print_diag | intros _].
  apply (preserves_when R R_refl).
  apply (preserves_bind R R_trans); [apply R_encoder | intros _].
  apply (preserves_bind R R_trans); [apply R_button | intros _].
  apply script_print_diag.
Qed.

Lemma script_simple bus k : preserves R (qtpy_simple.loop_body bus k).
Proof.
  unfold qtpy_simple.loop_body. apply (preserves_try R R_trans).
  - apply (preserves_bind R R_trans);
      [apply script_guarded_encoder_step | intros _; apply script_guarded_button_step].
  - intros e. unfold qtpy_simple.handler.
    destruct (contains "No such device" e); [| apply script_print_diag].
    apply (preserves_bind R R_trans); [apply script_print_diag | intros _].
    apply script_disable.
Qed.

Lemma script_fixed_pins bus k : preserves R (qtpy_fixed_pins.loop_body bus k).
Proof.
  unfold qtpy_fixed_pins.loop_body. apply (preserves_bind R R_trans).
  { apply (preserves_pure R R_refl). apply pure_getitem. }
  intros [h |]; [| apply (preserves_pure R R_refl); apply pure_ret].
  apply (preserves_try R R_trans); [apply script_guarded_pair |].
  intros e. unfold qtpy_fixed_pins.handler.
  apply (preserves_bind R R_trans); [apply script_print_diag | intros _].
  apply script_disable.
Qed.

Lemma script_fixed_from_sample bus k :
  preserves R (qtpy_fixed_from_sample.loop_body bus k).
Proof.
  unfold qtpy_fixed_from_sample.loop_body. apply (preserves_try R R_trans).
  - apply (preserves_bind R R_trans);
      [apply script_raw_encoder_step | intros _; apply script_button_step].
  - intros e. apply script_print_diag.
Qed.

Lemma script_grid_sequencer bus k :
  preserves R (qtpy_grid_sequencer.loop_body bus k).
Proof.
  unfold qtpy_grid_sequencer.loop_body. apply (preserves_try R R_trans).
  - apply (preserves_bind R R_trans);
      [apply script_grid_encoder_step | intros _; apply script_button_step].
  - intros e. apply script_print_diag.
Qed.

Lemma script_normalized_steps bus k :
  preserves R (qtpy_normalized_steps.loop_body bus k).
Proof.
  unfold qtpy_normalized_steps.loop_body. apply (preserves_try R R_trans).
  - apply (preserves_bind R R_trans);
      [apply script_normalized_encoder_step | intros _; apply script_button_step].
  - intros e. apply script_print_diag.
Qed.

(** From the bodies to the loop. *)
Lemma script_loop (body : Bus -> nat -> Py unit) buses :
  (forall bus k, preserves R (body bus k)) ->
  preserves R (while_true (fun bus => for_in (range 4) (body bus)) buses).
Proof.
  intros Hb. apply (preserves_for_in R R_refl R_trans). intros bus.
  apply (preserves_for_in R R_refl R_trans). intros k. apply Hb.
Qed.

Lemma script_raw_loops : raw_loops (fun loop => forall buses, preserves R (loop buses)).
Proof.
  unfold raw_loops. conj; intros buses; apply script_loop.
  - apply script_quad_rotary.
  - apply script_working.
  - apply script_simple.
  - apply script_fixed_pins.
  - apply script_fixed_from_sample.
Qed.

Lemma script_log_only_loops :
  log_only_loops (fun loop => forall buses, preserves R (loop buses)).
Proof.
  unfold log_only_loops. conj; intros buses; apply script_loop.
  - apply script_fixed_from_sample.
  - apply script_grid_sequencer.
  - apply script_normalized_steps.
Qed.

Lemma script_all_loops : all_loops (fun loop => forall buses, preserves R (loop buses)).
Proof.
  split; [apply script_raw_loops |].
  split; intros buses; apply script_loop.
  - apply script_grid_sequencer.
  - apply script_normalized_steps.
Qed.
End Scripts.

Lemma all_loops_impl (P Q : (list Bus -> Py unit) -> Prop) :
  (forall loop, P loop -> Q loop) -> all_loops P -> all_loops Q.
Proof. unfold all_loops, raw_loops. intuition. Qed.

Lemma raw_loops_impl (P Q : (list Bus -> Py unit) -> Prop) :
  (forall loop, P loop -> Q loop) -> raw_loops P -> raw_loops Q.
Proof. unfold raw_loops. intuition. Qed.

Lemma log_only_loops_impl (P Q : (list Bus -> Py unit) -> Prop) :
  (forall loop, P loop -> Q loop) -> log_only_loops P -> log_only_loops Q.
Proof. unfold log_only_loops. intuition. Qed.

(** ** Deltas printed over a whole run *)
Section DeltasAll.
Variable P : Z -> Prop.

Lemma deltas_all_refl st : deltas_all P st st.
Proof. exists []. split; [now rewrite app_nil_r | constructor]. Qed.

Lemma deltas_all_trans a b c :
  deltas_all P a b -> deltas_all P b c -> deltas_all P a c.
Proof.
  intros (n1 & H1 & F1) (n2 & H2 & F2). exists (n1 ++ n2). split.
  - now rewrite H2, H1, app_assoc.
  - rewrite all_encoder_deltas_app. now apply Forall_app.
Qed.

Lemma deltas_all_line l st st' :
  stdout st' = stdout st ++ [l] ->
  Forall P (all_encoder_deltas [l]) ->
  deltas_all P st st'.
Proof. intros H F. exists [l]. now split. Qed.

Lemma deltas_all_quiet st st' : stdout st' = stdout st -> deltas_all P st st'.
Proof. intros H. exists []. split; [now rewrite app_nil_r | constructor]. Qed.
End DeltasAll.

Lemma edge_line_no_delta k b : all_encoder_deltas [edge_line k b] = [].
Proof. now destruct b. Qed.

(** X1: no polling loop of the seven scripts ever prints an encoder event
    of delta 0, whatever the bus does and however long the loop runs. *)
Theorem no_zero_delta_printed :
  all_loops (fun loop =>
    forall buses st,
      exists new,
        stdout (snd (loop buses st)) = stdout st ++ new /\
        Forall (fun d => d <> 0) (all_encoder_deltas new)).
Proof.
  apply (script_all_loops (deltas_all (fun d => d <> 0))).
  - apply deltas_all_refl.
  - apply deltas_all_trans.
  - intros k cur l st Hne _. eapply deltas_all_line; [reflexivity |].
    constructor; [lia | constructor].
  - intros k s delta st Hd. eapply deltas_all_line; [reflexivity |].
    constructor; [lia | constructor].
  - intros k b lb st _ _. eapply deltas_all_line; [reflexivity |].
    rewrite edge_line_no_delta. constructor.
  - intros t st. eapply deltas_all_line; [reflexivity | constructor].
  - intros k. apply preserves_assign; [apply deltas_all_refl |].
    intros st. now apply deltas_all_quiet.
  - intros k. apply preserves_assign; [apply deltas_all_refl |].
    intros st. now apply deltas_all_quiet.
Qed.

(** X2: every encoder event printed by the loop of qtpy_grid_sequencer.py
    carries +1 or -1, whatever the bus does, faults included. *)
Theorem grid_sequencer_unit_steps :
  forall buses st,
    exists new,
      stdout (snd (qtpy_grid_sequencer.main_loop buses st)) = stdout st ++ new /\
      Forall (fun d => d = 1 \/ d = -1) (all_encoder_deltas new).
Proof.
  intros buses.
  apply (script_loop unit_steps unit_steps_refl unit_steps_trans
           qtpy_grid_sequencer.loop_body).
  intros bus k. apply script_grid_sequencer.
  - apply unit_steps_refl.
  - apply unit_steps_trans.
  - intros j s delta st Hd. exists [E_signed (j + 1) delta].
    split; [reflexivity |]. constructor; [assumption | constructor].
  - intros j b lb st _ _. exists [edge_line j b]. split; [reflexivity |].
    rewrite edge_line_no_delta. constructor.
  - intros t st. exists [Diag t]. split; [reflexivity | constructor].
Qed.

(** ** The raw deltas telescope in every raw loop *)
Lemma telescopes_moved i k cur l st :
  last_positions st !! k = Some l ->
  telescopes i st (moved k cur (E (k + 1) (cur - l)) st).
Proof.
  intros Hk. exists [E (k + 1) (cur - l)]. split; [reflexivity |].
  pose proof (lookup_lt_Some _ _ _ Hk) as Hlt.
  intros l0 Hl0. simpl. destruct (decide (k = i)) as [-> | Hne].
  - rewrite list_lookup_insert_eq by assumption.
    exists cur. split; [reflexivity |].
    rewrite Hk in Hl0. injection Hl0 as <-.
    unfold encoder_deltas. simpl.
    destruct (decide ((i + 1)%nat = (i + 1)%nat)); [simpl; lia | contradiction].
  - rewrite list_lookup_insert_ne by assumption.
    exists l0. split; [assumption |].
    unfold encoder_deltas. simpl.
    destruct (decide ((k + 1)%nat = (i + 1)%nat)); [lia | simpl; lia].
Qed.

Lemma telescopes_quiet i l st st' :
  stdout st' = stdout st ++ [l] -> encoder_deltas (i + 1) [l] = [] ->
  last_positions st' = last_positions st ->
  telescopes i st st'.
Proof.
  intros Ho Hl Hp. exists [l]. split; [assumption |].
  intros l0 H0. exists l0. rewrite Hp, Hl. split; [assumption | simpl; lia].
Qed.

(** X3: in each of the five raw-delta loops, try/except or not, the deltas
    printed for a channel over any run, faults and disabling included, add
    up to the change of that channel's [last_positions] entry. *)
Theorem raw_deltas_telescope_in_every_raw_loop :
  forall i,
    raw_loops (fun loop =>
      forall buses st l0,
        last_positions st !! i = Some l0 ->
        exists new lN,
          stdout (snd (loop buses st)) = stdout st ++ new /\
          last_positions (snd (loop buses st)) !! i = Some lN /\
          sumZ (encoder_deltas (i + 1) new) = lN - l0).
Proof.
  intros i.
  apply (raw_loops_impl (fun loop => forall buses, preserves (telescopes i) (loop buses))).
  { intros loop H buses st l0 Hl0. destruct (H buses st) as (new & Hout & Hsum).
    destruct (Hsum l0 Hl0) as (lN & HlN & Hs). eauto. }
  apply script_raw_loops.
  - apply telescopes_refl.
  - apply telescopes_trans.
  - intros k cur l st _ Hl. now apply telescopes_moved.
  - intros k b lb st _ _. eapply telescopes_quiet; try reflexivity. now destruct b.
  - intros t st. eapply telescopes_quiet; reflexivity.
  - intros k. apply preserves_assign; [apply telescopes_refl |].
    intros st. exact (telescopes_refl i st).
  - intros k. apply preserves_assign; [apply telescopes_refl |].
    intros st. exact (telescopes_refl i st).
Qed.

(** In qtpy_working.py encoder 1 is turned, lost to "No such device", and
    turned again: the deltas printed for channel 1 still add up. *)
Lemma raw_deltas_telescope_in_every_raw_loop_witness :
  let st := qtpy_working.entry standard_encoders standard_buttons in
  let buses := [encoder1_turned; encoder1_gone; encoder1_turned] in
  exists new lN,
    stdout (snd (qtpy_working.main_loop buses st)) = stdout st ++ new /\
    last_positions (snd (qtpy_working.main_loop buses st)) !! 0%nat = Some lN /\
    sumZ (encoder_deltas (0 + 1) new) = lN - 0.
Proof.
  intros st buses.
  apply (proj1 (proj2 (raw_deltas_telescope_in_every_raw_loop 0%nat)) buses st 0).
  reflexivity.
Defined.

(** ** Button events alternate *)
Section Alternation.
Variable i : nat.

Lemma last_cons_default (a : bool) l d d' :
  List.last (a :: l) d = List.last (a :: l) d'.
Proof.
  revert a. induction l as [| c l IH]; intros a; [reflexivity |].
  change (List.last (c :: l) d = List.last (c :: l) d'). apply IH.
Qed.

Lemma alternating_app lb l1 l2 :
  alternating lb l1 -> alternating (List.last l1 lb) l2 -> alternating lb (l1 ++ l2).
Proof.
  revert lb. induction l1 as [| b l1 IH]; intros lb H1 H2; simpl in *; [assumption |].
  destruct H1 as [Hb H1]. split; [assumption |].
  apply IH; [assumption |]. destruct l1 as [| c l1]; [assumption |].
  now rewrite (last_cons_default c l1 b lb).
Qed.

Lemma last_app_default (l1 l2 : list bool) lb :
  List.last (l1 ++ l2) lb = List.last l2 (List.last l1 lb).
Proof.
  revert lb. induction l1 as [| b l1 IH]; intros lb; [reflexivity |].
  destruct l2 as [| c l2]; [now rewrite app_nil_r |].
  rewrite (last_cons_default c l2 (List.last (b :: l1) lb) (List.last l1 lb)).
  rewrite <- IH. destruct l1; reflexivity.
Qed.

Lemma button_levels_app idx l1 l2 :
  button_levels idx (l1 ++ l2) = button_levels idx l1 ++ button_levels idx l2.
Proof. unfold button_levels. apply omap_app. Qed.

Lemma edges_alternate_refl st : edges_alternate i st st.
Proof.
  exists []. split; [now rewrite app_nil_r |]. intros lb Hlb. now split.
Qed.

Lemma edges_alternate_trans a b c :
  edges_alternate i a b -> edges_alternate i b c -> edges_alternate i a c.
Proof.
  intros (n1 & H1 & A1) (n2 & H2 & A2). exists (n1 ++ n2). split.
  - now rewrite H2, H1, app_assoc.
  - intros lb Hlb. destruct (A1 lb Hlb) as [Ha1 Hl1].
    destruct (A2 _ Hl1) as [Ha2 Hl2].
    rewrite button_levels_app, last_app_default.
    split; [now apply alternating_app | assumption].
Qed.

(** A line that is no button event of channel [i], with [last_buttons]
    untouched. *)
Lemma edges_alternate_quiet l st st' :
  stdout st' = stdout st ++ [l] -> button_levels (i + 1) [l] = [] ->
  last_buttons st' = last_buttons st ->
  edges_alternate i st st'.
Proof.
  intros Ho Hl Hb. exists [l]. split; [assumption |].
  intros lb H. rewrite Hl, Hb. now split.
Qed.

Lemma button_levels_edge k b :
  button_levels (i + 1) [edge_line k b] = if decide (k = i) then [b] else [].
Proof.
  unfold button_levels, edge_line. destruct b; simpl;
    destruct (decide ((k + 1)%nat = (i + 1)%nat)), (decide (k = i));
    try reflexivity; lia.
Qed.

Lemma edges_alternate_toggled k b lb st :
  b = negb lb -> last_buttons st !! k = Some lb ->
  edges_alternate i st (toggled k b (edge_line k b) st).
Proof.
  intros Hb Hk. exists [edge_line k b]. split; [reflexivity |].
  intros lb0 Hlb0. rewrite button_levels_edge. simpl.
  pose proof (lookup_lt_Some _ _ _ Hk) as Hlt.
  destruct (decide (k = i)) as [-> | Hne]; simpl.
  - rewrite Hk in Hlb0. injection Hlb0 as <-.
    rewrite list_lookup_insert_eq by assumption. auto.
  - rewrite list_lookup_insert_ne by assumption. auto.
Qed.

Lemma edges_alternate_all_loops :
  all_loops (fun loop => forall buses, preserves (edges_alternate i) (loop buses)).
Proof.
  apply script_all_loops.
  - apply edges_alternate_refl.
  - apply edges_alternate_trans.
  - intros k cur l st _ _. eapply edges_alternate_quiet; reflexivity.
  - intros k s delta st _. eapply edges_alternate_quiet; reflexivity.
  - intros k b lb st. apply edges_alternate_toggled.
  - intros t st. eapply edges_alternate_quiet; reflexivity.
  - intros k. apply preserves_assign; [apply edges_alternate_refl |].
    intros st. exact (edges_alternate_refl st).
  - intros k. apply preserves_assign; [apply edges_alternate_refl |].
    intros st. exact (edges_alternate_refl st).
Qed.
End Alternation.

(** X4: in every polling loop the button events of a channel alternate:
    over any run the first event printed for channel [i] reports the
    opposite of the level [last_buttons[i]] started with, every later one
    the opposite of the one before it, so no PRESS follows a PRESS and no
    RELEASE a RELEASE, and [last_buttons[i]] ends at the last level
    reported. *)
Theorem button_events_alternate :
  forall i,
    all_loops (fun loop =>
      forall buses st lb,
        last_buttons st !! i = Some lb ->
        exists new,
          stdout (snd (loop buses st)) = stdout st ++ new /\
          alternating lb (button_levels (i + 1) new) /\
          last_buttons (snd (loop buses st)) !! i =
          Some (List.last (button_levels (i + 1) new) lb)).
Proof.
  intros i.
  apply (all_loops_impl
           (fun loop => forall buses, preserves (edges_alternate i) (loop buses))).
  - intros loop H buses st lb Hlb. destruct (H buses st) as (new & Hout & Ha).
    exists new. split; [assumption | now apply Ha].
  - apply edges_alternate_all_loops.
Qed.

(** Button 2 of qtpy_simple.py held over two cycles, released, pressed. *)
Lemma button_events_alternate_witness :
  let st := qtpy_simple.entry standard_encoders standard_buttons in
  exists new,
    stdout (snd (qtpy_simple.main_loop press_release_press st)) = stdout st ++ new /\
    alternating false (button_levels (1 + 1) new) /\
    last_buttons (snd (qtpy_simple.main_loop press_release_press st)) !! 1%nat =
    Some (List.last (button_levels (1 + 1) new) false).
Proof.
  intros st.
  apply (proj1 (proj2 (proj2 (proj1 (button_events_alternate 1%nat))))
           press_release_press st false).
  reflexivity.
Defined.

(** ** Loops whose handler only prints *)
Section LogOnly.

Lemma never_raises_try_print body (msg : string -> Line) :
  never_raises (try_except body (fun e => print (msg e))).
Proof.
  intros st. unfold try_except.
  destruct (body st) as [[[] | e] st1]; reflexivity.
Qed.

Lemma never_raises_for_in {A} (l : list A) (body : A -> Py unit) :
  (forall x, never_raises (body x)) -> never_raises (for_in l body).
Proof.
  intros Hb. induction l as [| x l IH]; intros st; simpl; [reflexivity |].
  unfold bind. specialize (Hb x st).
  destruct (body x st) as [[[] | e] st1]; simpl in Hb; [apply IH | discriminate].
Qed.

Lemma never_raises_loop (body : Bus -> nat -> Py unit) buses :
  (forall bus k, never_raises (body bus k)) ->
  never_raises (while_true (fun bus => for_in (range 4) (body bus)) buses).
Proof.
  intros Hb. apply never_raises_for_in. intros bus.
  apply never_raises_for_in. intros k. apply Hb.
Qed.

Lemma same_handles_refl st : same_handles st st.
Proof. now split. Qed.

Lemma same_handles_trans a b c :
  same_handles a b -> same_handles b c -> same_handles a c.
Proof. unfold same_handles. intuition congruence. Qed.

Lemma same_handles_log_only :
  log_only_loops (fun loop => forall buses, preserves same_handles (loop buses)).
Proof.
  apply script_log_only_loops;
    [apply same_handles_refl | apply same_handles_trans | ..];
    intros; now split.
Qed.
End LogOnly.

(** X5: the loops of qtpy_fixed_from_sample.py, qtpy_grid_sequencer.py and
    qtpy_normalized_steps.py never end and never give a channel up: from
    any state and on any bus, faults of any kind included, the loop returns
    and both handle lists are what they were. *)
Theorem log_only_loops_never_stop_never_disable :
  log_only_loops (fun loop =>
    forall buses st,
      exists st',
        loop buses st = (Normal tt, st') /\
        encoders st' = encoders st /\ buttons st' = buttons st).
Proof.
  assert (H := same_handles_log_only).
  unfold log_only_loops in *. destruct H as (H1 & H2 & H3).
  conj; intros buses st.
  - pose proof (never_raises_loop qtpy_fixed_from_sample.loop_body buses
                  (fun bus k => never_raises_try_print _ _) st) as Hn.
    specialize (H1 buses st). unfold qtpy_fixed_from_sample.main_loop,
      qtpy_fixed_from_sample.cycle in *.
    destruct (while_true _ buses st) as [o st']. simpl in *. subst o.
    exists st'. destruct H1. auto.
  - pose proof (never_raises_loop qtpy_grid_sequencer.loop_body buses
                  (fun bus k => never_raises_try_print _ _) st) as Hn.
    specialize (H2 buses st). unfold qtpy_grid_sequencer.main_loop,
      qtpy_grid_sequencer.cycle in *.
    destruct (while_true _ buses st) as [o st']. simpl in *. subst o.
    exists st'. destruct H2. auto.
  - pose proof (never_raises_loop qtpy_normalized_steps.loop_body buses
                  (fun bus k => never_raises_try_print _ _) st) as Hn.
    specialize (H3 buses st). unfold qtpy_normalized_steps.main_loop,
      qtpy_normalized_steps.cycle in *.
    destruct (while_true _ buses st) as [o st']. simpl in *. subst o.
    exists st'. destruct H3. auto.
Qed.

(** ** The probe when nothing, or something, answers *)
Section ProbeExhaustion.
Context {Driver Session : Type}.
Variable open : Opener Driver Session.






End ProbeExhaustion.



(** ** Start-up: what a set-up turn leaves in [encoder] and [button] *)
Section Attempt.
Variables (board : Board) (ep bp : nat) (mid fin : list Line) (loc : Locals).

Lemma attempt_encoder :
  encoder (fst (attempt board ep bp mid fin loc)) =
  if answered (IncrementalEncoder board ep) then Some ep else encoder loc.
Proof.
  unfold attempt.
  destruct (IncrementalEncoder board ep), (DigitalIO board bp),
    (set_direction board bp), (set_pull board bp); reflexivity.
Qed.

Lemma attempt_button :
  button (fst (attempt board ep bp mid fin loc)) =
  if answered (IncrementalEncoder board ep) && answered (DigitalIO board bp)
  then Some bp else button loc.
Proof.
  unfold attempt.
  destruct (IncrementalEncoder board ep), (DigitalIO board bp),
    (set_direction board bp), (set_pull board bp); reflexivity.
Qed.

Lemma attempt_succeeds :
  snd (attempt board ep bp mid fin loc) = None <->
  answered (IncrementalEncoder board ep) && answered (DigitalIO board bp) &&
  answered (set_direction board bp) && answered (set_pull board bp) = true.
Proof.
  unfold attempt.
  destruct (IncrementalEncoder board ep), (DigitalIO board bp),
    (set_direction board bp), (set_pull board bp); simpl; split; congruence.
Qed.
End Attempt.

Lemma working_setup_channel_handles board i :
  encoder (qtpy_working_setup.setup_channel board i) =
    (if answered (IncrementalEncoder board (encoder_pins !!! i))
     then Some (encoder_pins !!! i) else None) /\
  button (qtpy_working_setup.setup_channel board i) =
    (if answered (IncrementalEncoder board (encoder_pins !!! i)) &&
        answered (DigitalIO board (button_pins !!! i))
     then Some (button_pins !!! i) else None).
Proof.
  unfold qtpy_working_setup.setup_channel, attempt. cbv zeta.
  destruct (IncrementalEncoder board (encoder_pins !!! i)),
    (DigitalIO board (button_pins !!! i)),
    (set_direction board (button_pins !!! i)),
    (set_pull board (button_pins !!! i)); split; reflexivity.
Qed.

Lemma simple_setup_channel_handles board i :
  encoder (qtpy_simple_setup.setup_channel board i) =
    (if answered (IncrementalEncoder board (encoder_pins !!! i))
     then Some (encoder_pins !!! i) else None) /\
  button (qtpy_simple_setup.setup_channel board i) =
    (if answered (IncrementalEncoder board (encoder_pins !!! i)) &&
        answered (DigitalIO board (button_pins !!! i))
     then Some (button_pins !!! i) else None).
Proof.
  unfold qtpy_simple_setup.setup_channel, attempt.
  destruct (IncrementalEncoder board (encoder_pins !!! i)),
    (DigitalIO board (button_pins !!! i)),
    (set_direction board (button_pins !!! i)),
    (set_pull board (button_pins !!! i)); split; reflexivity.
Qed.

(** The lists a set-up loop builds. *)
Lemma setup_loop_lists turn banner :
  let st := setup_loop turn (before_setup banner) in
  encoders st = map (fun i => encoder (turn i)) (range 4) /\
  buttons st = map (fun i => button (turn i)) (range 4) /\
  last_positions st = [0; 0; 0; 0] /\
  last_buttons st = [false; false; false; false].
Proof. repeat split. Qed.

Lemma coupled_of_lists (st : State) (turn : nat -> Locals) :
  encoders st = map (fun i => encoder (turn i)) (range 4) ->
  buttons st = map (fun i => button (turn i)) (range 4) ->
  (forall i hb, button (turn i) = Some hb -> exists h, encoder (turn i) = Some h) ->
  coupled st.
Proof.
  intros He Hb Hturn j hb. rewrite He, Hb, !list_lookup_fmap.
  destruct (range 4 !! j) as [i |]; simpl; [| discriminate].
  intros [= H]. destruct (Hturn i hb H) as [h Hh]. exists h. now rewrite Hh.
Qed.

(** What the polling loops need of set-up: four slots everywhere and no
    button without its encoder. *)
Lemma setup_wf_coupled board :
  (wf (qtpy_working_setup.setup board) /\
   coupled (qtpy_working_setup.setup board)) /\
  (wf (qtpy_simple_setup.setup board) /\
   coupled (qtpy_simple_setup.setup board)).
Proof.
  conj.
  - repeat split.
  - apply (coupled_of_lists _ (qtpy_working_setup.setup_channel board));
      try reflexivity.
    intros i hb. destruct (working_setup_channel_handles board i) as [-> ->].
    destruct (answered (IncrementalEncoder board _)); simpl; [eauto | discriminate].
  - repeat split.
  - apply (coupled_of_lists _ (qtpy_simple_setup.setup_channel board));
      try reflexivity.
    intros i hb. destruct (simple_setup_channel_handles board i) as [-> ->].
    destruct (answered (IncrementalEncoder board _)); simpl; [eauto | discriminate].
Qed.

(** X7: the set-up loops of qtpy_working.py and qtpy_simple.py always
    leave four slots in each list; slot [i] of [encoders] holds an object
    exactly when building the encoder on pin [encoder_pins[i]] succeeded,
    and slot [i] of [buttons] holds one exactly when the encoder and then
    the button object on [button_pins[i]] could be built, whether or not
    writing its direction and pull-up succeeded; so a button is never
    present without its encoder. *)
Theorem setup_lists_aligned :
  forall board,
    let handles i :=
      (Some (if answered (IncrementalEncoder board (encoder_pins !!! i))
             then Some (encoder_pins !!! i) else None),
       Some (if answered (IncrementalEncoder board (encoder_pins !!! i)) &&
                answered (DigitalIO board (button_pins !!! i))
             then Some (button_pins !!! i) else None)) in
    (let st := qtpy_working_setup.setup board in
     wf st /\ coupled st /\
     forall i, (i < 4)%nat -> (encoders st !! i, buttons st !! i) = handles i) /\
    (let st := qtpy_simple_setup.setup board in
     wf st /\ coupled st /\
     forall i, (i < 4)%nat -> (encoders st !! i, buttons st !! i) = handles i).
Proof.
  intros board handles. split; intros st.
  - conj.
    + repeat split.
    + apply (coupled_of_lists st (qtpy_working_setup.setup_channel board));
        try reflexivity.
      intros i hb. destruct (working_setup_channel_handles board i) as [-> ->].
      destruct (answered (IncrementalEncoder board _)); simpl; [eauto | discriminate].
    + intros i Hi. subst handles.
      assert (He : encoders st =
                   map (fun i => encoder (qtpy_working_setup.setup_channel board i)) (range 4))
        by reflexivity.
      assert (Hb : buttons st =
                   map (fun i => button (qtpy_working_setup.setup_channel board i)) (range 4))
        by reflexivity.
      rewrite He, Hb, !list_lookup_fmap. unfold range.
      rewrite lookup_seq_lt by lia. simpl.
      now destruct (working_setup_channel_handles board i) as [-> ->].
  - conj.
    + repeat split.
    + apply (coupled_of_lists st (qtpy_simple_setup.setup_channel board));
        try reflexivity.
      intros i hb. destruct (simple_setup_channel_handles board i) as [-> ->].
      destruct (answered (IncrementalEncoder board _)); simpl; [eauto | discriminate].
    + intros i Hi. subst handles.
      assert (He : encoders st =
                   map (fun i => encoder (qtpy_simple_setup.setup_channel board i)) (range 4))
        by reflexivity.
      assert (Hb : buttons st =
                   map (fun i => button (qtpy_simple_setup.setup_channel board i)) (range 4))
        by reflexivity.
      rewrite He, Hb, !list_lookup_fmap. unfold range.
      rewrite lookup_seq_lt by lia. simpl.
      now destruct (simple_setup_channel_handles board i) as [-> ->].
Qed.

(** On a board whose buttons refuse the direction write, qtpy_simple.py
    still ends set-up with button 3 on pin 26. *)
Lemma setup_lists_aligned_witness :
  let st := qtpy_simple_setup.setup deaf_buttons_board in
  (encoders st !! 2%nat, buttons st !! 2%nat) =
  (Some (Some 17%nat), Some (Some 26%nat)).
Proof.
  intros st.
  apply (proj2 (proj2 (proj2 (setup_lists_aligned deaf_buttons_board))) 2%nat).
  lia.
Defined.

(** ** From set-up through any run: the handles only dwindle, together *)
Section Dwindling.

Lemma encoders_after_button i b lb st : encoders (after_button i b lb st) = encoders st.
Proof. unfold after_button. now destruct (eqb b lb). Qed.

Lemma buttons_after_button i b lb st : buttons (after_button i b lb st) = buttons st.
Proof. unfold after_button. now destruct (eqb b lb). Qed.

Lemma simple_button_absent bus i st h z l :
  encoders st !! i = Some (Some h) ->
  last_positions st !! i = Some l ->
  position (bus i) = Value z ->
  buttons st !! i = Some None ->
  qtpy_simple.loop_body bus i st = (Normal tt, after_encoder i z l st).
Proof.
  intros He Hl Hp Hb.
  assert (qtpy_simple.guarded_encoder_step bus i st = (Normal tt, after_encoder i z l st)) as Hg.
  { rewrite (simple_guarded_encoder_some bus i st h) by assumption.
    now apply raw_encoder_step_after with h. }
  unfold qtpy_simple.loop_body. apply try_normal.
  rewrite (bind_normal _ _ _ _ _ Hg).
  apply guarded_button_step_none. now rewrite buttons_after_encoder.
Qed.

Lemma simple_values bus i st h hb z l b lb :
  encoders st !! i = Some (Some h) ->
  last_positions st !! i = Some l ->
  position (bus i) = Value z ->
  buttons st !! i = Some (Some hb) ->
  last_buttons st !! i = Some lb ->
  value (bus i) = Value b ->
  qtpy_simple.loop_body bus i st =
  (Normal tt, after_button i b lb (after_encoder i z l st)).
Proof.
  intros He Hl Hp Hb Hlb Hv.
  assert (qtpy_simple.guarded_encoder_step bus i st = (Normal tt, after_encoder i z l st)) as Hg.
  { rewrite (simple_guarded_encoder_some bus i st h) by assumption.
    now apply raw_encoder_step_after with h. }
  unfold qtpy_simple.loop_body. apply try_normal.
  rewrite (bind_normal _ _ _ _ _ Hg).
  rewrite (guarded_button_step_some _ _ _ hb) by now rewrite buttons_after_encoder.
  apply button_step_after with hb;
    [now rewrite buttons_after_encoder
    | now rewrite last_buttons_after_encoder | assumption].
Qed.

Lemma working_handles_cases bus i st :
  wf st -> (i < 4)%nat ->
  exists st',
    qtpy_working.loop_body bus i st = (Normal tt, st') /\
    handles_kept_or_dropped i st st'.
Proof.
  intros Hwf Hi. pose proof Hwf as (W1 & W2 & W3 & W4).
  assert (Hfault : forall e, read_fault bus i st e ->
            exists st',
              qtpy_working.loop_body bus i st = (Normal tt, st') /\
              handles_kept_or_dropped i st st').
  { intros e Hf.
    destruct (working_fault_converted bus i st e Hwf Hi Hf) as (st0 & S1 & S2 & E0).
    eexists. split; [exact E0 |].
    destruct (contains "No such device" e); [right | left]; simpl;
      rewrite ?S1, ?S2; now split. }
  destruct (lookup_lt_is_Some_2 (encoders st) i ltac:(lia)) as [[h |] He].
  2: { exists st. split; [now apply working_skip | left; now split]. }
  destruct (lookup_lt_is_Some_2 (last_positions st) i ltac:(lia)) as [l Hl].
  destruct (lookup_lt_is_Some_2 (last_buttons st) i ltac:(lia)) as [lb Hlb].
  destruct (position (bus i)) as [z | e] eqn:Hp.
  2: { apply (Hfault e). left. eauto. }
  destruct (lookup_lt_is_Some_2 (buttons st) i ltac:(lia)) as [[hb |] Hb].
  - destruct (value (bus i)) as [b | e] eqn:Hv.
    + eexists. split; [now apply (working_values bus i st h hb z l b lb) |].
      left. split.
      * now rewrite encoders_after_button, encoders_after_encoder.
      * now rewrite buttons_after_button, buttons_after_encoder.
    + apply (Hfault e). right. eauto 8.
  - eexists. split; [now apply (working_button_absent bus i st h z l) |].
    left. split; [apply encoders_after_encoder | apply buttons_after_encoder].
Qed.

Lemma simple_handles_cases bus i st :
  wf st -> coupled st -> (i < 4)%nat ->
  exists st',
    qtpy_simple.loop_body bus i st = (Normal tt, st') /\
    handles_kept_or_dropped i st st'.
Proof.
  intros Hwf Hc Hi. pose proof Hwf as (W1 & W2 & W3 & W4).
  assert (Hfault : forall e, read_fault bus i st e ->
            exists st',
              qtpy_simple.loop_body bus i st = (Normal tt, st') /\
              handles_kept_or_dropped i st st').
  { intros e Hf.
    destruct (simple_fault_equation bus i st e Hwf Hi Hf) as (st0 & E0 & S1 & S2).
    destruct (contains "No such device" e) eqn:Hd.
    - rewrite simple_handler_absent in E0 by (rewrite ?S1, ?S2; (assumption || lia)).
      eexists. split; [exact E0 |]. right. simpl. now rewrite S1, S2.
    - rewrite simple_handler_transient in E0 by assumption.
      eexists. split; [exact E0 |]. left. now split. }
  destruct (lookup_lt_is_Some_2 (buttons st) i ltac:(lia)) as [[hb |] Hb].
  - destruct (Hc i hb Hb) as [h He].
    destruct (lookup_lt_is_Some_2 (last_positions st) i ltac:(lia)) as [l Hl].
    destruct (lookup_lt_is_Some_2 (last_buttons st) i ltac:(lia)) as [lb Hlb].
    destruct (position (bus i)) as [z | e] eqn:Hp.
    2: { apply (Hfault e). left. eauto. }
    destruct (value (bus i)) as [b | e] eqn:Hv.
    + eexists. split; [now apply (simple_values bus i st h hb z l b lb) |].
      left. split.
      * now rewrite encoders_after_button, encoders_after_encoder.
      * now rewrite buttons_after_button, buttons_after_encoder.
    + apply (Hfault e). right. eauto 8.
  - destruct (lookup_lt_is_Some_2 (encoders st) i ltac:(lia)) as [[h |] He].
    2: { exists st. split; [now apply simple_skip | left; now split]. }
    destruct (lookup_lt_is_Some_2 (last_positions st) i ltac:(lia)) as [l Hl].
    destruct (position (bus i)) as [z | e] eqn:Hp.
    2: { apply (Hfault e). left. eauto. }
    eexists. split; [now apply (simple_button_absent bus i st h z l) |].
    left. split; [apply encoders_after_encoder | apply buttons_after_encoder].
Qed.

Lemma dwindles_refl st : dwindles st st.
Proof. intros j. auto. Qed.

Lemma dwindles_trans a b c : dwindles a b -> dwindles b c -> dwindles a c.
Proof.
  intros H1 H2 j. destruct (H1 j) as [E1 B1], (H2 j) as [E2 B2]. split.
  - destruct E2 as [-> | ->]; auto.
  - destruct B2 as [-> | ->]; auto.
Qed.

Lemma kept_or_dropped_invariant i st st' :
  handles_kept_or_dropped i st st' ->
  wf st /\ coupled st ->
  length (last_positions st') = length (last_positions st) ->
  length (last_buttons st') = length (last_buttons st) ->
  (wf st' /\ coupled st') /\ dwindles st st'.
Proof.
  intros [[He Hb] | [He Hb]] [(W1 & W2 & W3 & W4) Hc] L1 L2.
  - conj.
    + unfold wf. rewrite He, Hb, L1, L2. auto.
    + intros j hb. rewrite He, Hb. apply Hc.
    + intros j. rewrite He, Hb. auto.
  - conj.
    + unfold wf. rewrite He, Hb, L1, L2, !length_insert. auto.
    + intros j hb. rewrite He, Hb. destruct (decide (i = j)) as [-> | Hne].
      * destruct (decide (j < length (buttons st))%nat).
        -- rewrite list_lookup_insert_eq by assumption. discriminate.
        -- rewrite list_insert_ge by lia. rewrite lookup_ge_None_2 by lia. discriminate.
      * rewrite !list_lookup_insert_ne by assumption. apply Hc.
    + intros j. rewrite He, Hb. destruct (decide (i = j)) as [-> | Hne].
      * destruct (decide (j < 4)%nat).
        -- split; right; apply list_lookup_insert_eq; lia.
        -- rewrite !list_insert_ge by lia. auto.
      * rewrite !list_lookup_insert_ne by assumption. auto.
Qed.

(** A loop keeps an invariant and a relation that each turn of its body
    keeps. *)
Lemma for_in_invariant {A} (Inv : State -> Prop) (Rel : State -> State -> Prop)
    (body : A -> Py unit) (P : A -> Prop) (l : list A) :
  (forall st, Rel st st) ->
  (forall a b c, Rel a b -> Rel b c -> Rel a c) ->
  (forall x st, P x -> Inv st ->
     exists st', body x st = (Normal tt, st') /\ Inv st' /\ Rel st st') ->
  Forall P l ->
  forall st, Inv st ->
    exists st', for_in l body st = (Normal tt, st') /\ Inv st' /\ Rel st st'.
Proof.
  intros Hrefl Htrans Hb. induction 1 as [| x l Hx Hl IH]; intros st Hinv; simpl.
  - exists st. auto.
  - destruct (Hb x st Hx Hinv) as (st1 & E1 & Hinv1 & R1).
    rewrite (bind_normal _ _ _ _ _ E1).
    destruct (IH st1 Hinv1) as (st' & E' & Hinv' & R').
    exists st'. eauto.
Qed.

Lemma working_run buses st :
  wf st /\ coupled st ->
  exists st',
    qtpy_working.main_loop buses st = (Normal tt, st') /\
    (wf st' /\ coupled st') /\ dwindles st st'.
Proof.
  revert st. unfold qtpy_working.main_loop, while_true.
  apply (for_in_invariant (fun st => wf st /\ coupled st) dwindles
           qtpy_working.cycle (fun _ => True) buses);
    [apply dwindles_refl | apply dwindles_trans | | now apply Forall_forall].
  intros bus st0 _. unfold qtpy_working.cycle.
  apply (for_in_invariant (fun st => wf st /\ coupled st) dwindles
           (qtpy_working.loop_body bus) (fun j => (j < 4)%nat) (range 4));
    [apply dwindles_refl | apply dwindles_trans | | apply range_lt].
  intros j st1 Hj Hinv.
  destruct (working_handles_cases bus j st1 (proj1 Hinv) Hj) as (st' & E' & Hk).
  pose proof (same_shape_working bus j st1) as (_ & _ & L1 & L2).
  rewrite E' in L1, L2. exists st'. split; [assumption |].
  now apply (kept_or_dropped_invariant j).
Qed.

Lemma simple_run buses st :
  wf st /\ coupled st ->
  exists st',
    qtpy_simple.main_loop buses st = (Normal tt, st') /\
    (wf st' /\ coupled st') /\ dwindles st st'.
Proof.
  revert st. unfold qtpy_simple.main_loop, while_true.
  apply (for_in_invariant (fun st => wf st /\ coupled st) dwindles
           qtpy_simple.cycle (fun _ => True) buses);
    [apply dwindles_refl | apply dwindles_trans | | now apply Forall_forall].
  intros bus st0 _. unfold qtpy_simple.cycle.
  apply (for_in_invariant (fun st => wf st /\ coupled st) dwindles
           (qtpy_simple.loop_body bus) (fun j => (j < 4)%nat) (range 4));
    [apply dwindles_refl | apply dwindles_trans | | apply range_lt].
  intros j st1 Hj Hinv.
  destruct (simple_handles_cases bus j st1 (proj1 Hinv) (proj2 Hinv) Hj)
    as (st' & E' & Hk).
  pose proof (same_shape_simple bus j st1) as (_ & _ & L1 & L2).
  rewrite E' in L1, L2. exists st'. split; [assumption |].
  now apply (kept_or_dropped_invariant j).
Qed.
End Dwindling.

(** X8: qtpy_working.py and qtpy_simple.py, from the set-up loop through
    any number of polling cycles on any board and bus: the loop never
    raises, the four lists keep their four slots, every handle is the one
    set-up left or has become [None], and no button is ever present without
    its encoder; so the branch of qtpy_simple.py that polls a button whose
    encoder is gone is never taken. *)
Theorem handles_dwindle_together :
  forall board buses,
    (let st0 := qtpy_working_setup.setup board in
     exists st,
       qtpy_working_setup.program board buses = (Normal tt, st) /\
       wf st /\ coupled st /\ dwindles st0 st) /\
    (let st0 := qtpy_simple_setup.setup board in
     exists st,
       qtpy_simple_setup.program board buses = (Normal tt, st) /\
       wf st /\ coupled st /\ dwindles st0 st /\
       forall j, encoders st !! j = Some None -> buttons st !! j = Some None).
Proof.
  intros board buses.
  destruct (setup_wf_coupled board) as [[Hw1 Hw2] [Hs1 Hs2]].
  split; intros st0.
  - destruct (working_run buses st0 (conj Hw1 Hw2)) as (st & E & [Hwf Hc] & Hd).
    exists st. auto.
  - destruct (simple_run buses st0 (conj Hs1 Hs2)) as (st & E & [Hwf Hc] & Hd).
    exists st. conj; try assumption.
    intros j Hj. pose proof Hwf as (W1 & W2 & _).
    pose proof (lookup_lt_Some _ _ _ Hj) as Hlt.
    destruct (lookup_lt_is_Some_2 (buttons st) j ltac:(lia)) as [[hb |] Hb];
      [| assumption].
    destruct (Hc j hb Hb) as [h Hh]. congruence.
Qed.

(** ** Start-up of qtpy_fixed_pins.py *)
Section FixedPinsSetup.
Import qtpy_fixed_pins_setup.
Variables (board : Board) (i : nat).

Lemma attempt_fst_snd ep bp mid fin loc loc' r :
  attempt board ep bp mid fin loc = (loc', r) ->
  encoder loc' = (if answered (IncrementalEncoder board ep) then Some ep
                  else encoder loc) /\
  button loc' = (if answered (IncrementalEncoder board ep) &&
                    answered (DigitalIO board bp)
                 then Some bp else button loc) /\
  (r = None -> answered (IncrementalEncoder board ep) = true).
Proof.
  intros H.
  pose proof (attempt_encoder board ep bp mid fin loc) as He.
  pose proof (attempt_button board ep bp mid fin loc) as Hb.
  pose proof (attempt_succeeds board ep bp mid fin loc) as Hs.
  rewrite H in He, Hb, Hs. simpl in *. conj; try assumption.
  intros ->. destruct Hs as [Hs _]. specialize (Hs eq_refl).
  now destruct (answered (IncrementalEncoder board ep)).
Qed.

Lemma try_alternatives_encoder_none alts :
  forall loc,
    encoder (try_alternatives board i alts loc) = None <->
    encoder loc = None /\
    no_encoder_on board (map (fun alt => (alt_encoder_pins !!! alt) !!! i) alts).
Proof.
  unfold no_encoder_on.
  induction alts as [| alt alts IH]; intros loc; simpl.
  - split; [intros H; split; [assumption | constructor] | now intros [H _]].
  - destruct (attempt board _ _ [] _ loc) as [loc' r] eqn:E.
    destruct (attempt_fst_snd _ _ _ _ _ _ _ E) as (He & _ & Hr).
    rewrite Forall_cons.
    destruct r as [e2 |].
    + rewrite IH. simpl. rewrite He.
      destruct (answered (IncrementalEncoder board _)); intuition congruence.
    + rewrite He, (Hr eq_refl). intuition congruence.
Qed.

Lemma fixed_pins_channel_encoder_none :
  encoder (setup_channel board i) = None <->
  no_encoder_on board (encoder_candidates i).
Proof.
  unfold setup_channel, encoder_candidates, no_encoder_on. cbv zeta.
  destruct (attempt board _ _ [] _ (mkLocals None None [])) as [loc' r] eqn:E.
  destruct (attempt_fst_snd _ _ _ _ _ _ _ E) as (He & _ & Hr).
  rewrite Forall_cons. simpl in He.
  destruct r as [e |].
  - rewrite try_alternatives_encoder_none. simpl. rewrite He.
    unfold no_encoder_on.
    destruct (answered (IncrementalEncoder board _)); intuition congruence.
  - rewrite He, (Hr eq_refl). intuition congruence.
Qed.

Lemma fixed_pins_channel_main_pins :
  answered (IncrementalEncoder board (encoder_pins !!! i)) &&
  answered (DigitalIO board (button_pins !!! i)) &&
  answered (set_direction board (button_pins !!! i)) &&
  answered (set_pull board (button_pins !!! i)) = true ->
  encoder (setup_channel board i) = Some (encoder_pins !!! i) /\
  button (setup_channel board i) = Some (button_pins !!! i) /\
  said (setup_channel board i) =
    [Diag ("Encoder " +:+ pretty (i + 1)%nat +:+ " setup with pins "
           +:+ pretty (encoder_pins !!! i) +:+ "/"
           +:+ pretty (button_pins !!! i))].
Proof.
  unfold setup_channel, attempt. cbv zeta.
  destruct (IncrementalEncoder board (encoder_pins !!! i)),
    (DigitalIO board (button_pins !!! i)),
    (set_direction board (button_pins !!! i)),
    (set_pull board (button_pins !!! i)); simpl; intros H;
    try discriminate. repeat split.
Qed.

(** The encoder of the first alternative and the button of the main pins
    end up in the same channel. *)
Lemma fixed_pins_channel_mixed :
  let ep0 := (alt_encoder_pins !!! 0%nat) !!! i in
  let bp0 := (alt_button_pins !!! 0%nat) !!! i in
  answered (IncrementalEncoder board (encoder_pins !!! i)) = true ->
  answered (DigitalIO board (button_pins !!! i)) = true ->
  answered (set_direction board (button_pins !!! i)) &&
  answered (set_pull board (button_pins !!! i)) = false ->
  answered (IncrementalEncoder board ep0) = true ->
  answered (DigitalIO board bp0) = false ->
  no_encoder_on board (map (fun alt => (alt_encoder_pins !!! alt) !!! i) [1; 2]%nat) ->
  encoder (setup_channel board i) = Some ep0 /\
  button (setup_channel board i) = Some (button_pins !!! i).
Proof.
  intros ep0 bp0 H1 H2 H3 H4 H5 H6.
  apply Forall_cons in H6 as [H6 H7]. apply Forall_cons in H7 as [H7 _].
  unfold setup_channel, range. simpl seq. cbv zeta.
  unfold try_alternatives, attempt. fold ep0 bp0.
  destruct (IncrementalEncoder board (encoder_pins !!! i)); [| discriminate].
  destruct (DigitalIO board (button_pins !!! i)); [| discriminate].
  destruct (IncrementalEncoder board ep0); [| discriminate].
  destruct (DigitalIO board bp0); [discriminate |].
  destruct (IncrementalEncoder board ((alt_encoder_pins !!! 1%nat) !!! i));
    [discriminate |].
  destruct (IncrementalEncoder board ((alt_encoder_pins !!! 2%nat) !!! i));
    [discriminate |].
  destruct (set_direction board (button_pins !!! i)),
    (set_pull board (button_pins !!! i)); try discriminate; now split.
Qed.
End FixedPinsSetup.

Lemma count_present_zero hs : count_present hs = 0%nat <-> Forall (fun h => h = None) hs.
Proof.
  unfold count_present. induction hs as [| [h |] hs IH]; simpl.
  - split; [constructor | reflexivity].
  - split; [discriminate | intros H; apply Forall_cons in H as [H _]; discriminate].
  - rewrite IH, Forall_cons. tauto.
Qed.

(** The console after set-up: the banner, what each turn said, the count. *)
Lemma fixed_pins_setup_stdout board :
  let st := qtpy_fixed_pins_setup.setup board in
  stdout st =
    Diag "Setting up encoders..." ::
    flat_map (fun i => said (qtpy_fixed_pins_setup.setup_channel board i)) (range 4) ++
    [Diag ("Successfully initialized "
           +:+ pretty (count_present (encoders st)) +:+ " encoders")].
Proof.
  intros st. subst st. unfold qtpy_fixed_pins_setup.setup.
  generalize (qtpy_fixed_pins_setup.setup_channel board). intros turn.
  unfold setup_loop, range. simpl.
  rewrite !app_nil_r, <- !app_assoc. reflexivity.
Qed.

Lemma fixed_pins_setup_encoders board :
  encoders (qtpy_fixed_pins_setup.setup board) =
  map (fun i => encoder (qtpy_fixed_pins_setup.setup_channel board i)) (range 4) /\
  buttons (qtpy_fixed_pins_setup.setup board) =
  map (fun i => button (qtpy_fixed_pins_setup.setup_channel board i)) (range 4).
Proof. split; reflexivity. Qed.

(** X9: the set-up of qtpy_fixed_pins.py.  Slot [i] of [encoders] is
    [None] exactly when no encoder can be built on the main pin of the
    channel nor on any of its three alternatives, whatever the buttons do;
    when the main pins answer, they are the ones kept and the turn prints
    one line, "Encoder i setup with pins e/b", and nothing else; the
    console after set-up is the banner, what the four turns printed, in
    order, and the count of encoders; and the script goes idle instead of
    entering the polling loop exactly when all four slots are [None]. *)
Theorem fixed_pins_setup_outcome :
  forall board,
    let st := qtpy_fixed_pins_setup.setup board in
    wf st /\
    (forall i, (i < 4)%nat ->
       (encoders st !! i = Some None <-> no_encoder_on board (encoder_candidates i))) /\
    (forall i, (i < 4)%nat ->
       answered (IncrementalEncoder board (encoder_pins !!! i)) &&
       answered (DigitalIO board (button_pins !!! i)) &&
       answered (set_direction board (button_pins !!! i)) &&
       answered (set_pull board (button_pins !!! i)) = true ->
       encoders st !! i = Some (Some (encoder_pins !!! i)) /\
       buttons st !! i = Some (Some (button_pins !!! i)) /\
       said (qtpy_fixed_pins_setup.setup_channel board i) =
         [Diag ("Encoder " +:+ pretty (i + 1)%nat +:+ " setup with pins "
                +:+ pretty (encoder_pins !!! i) +:+ "/"
                +:+ pretty (button_pins !!! i))]) /\
    stdout st =
      Diag "Setting up encoders..." ::
      flat_map (fun i => said (qtpy_fixed_pins_setup.setup_channel board i))
               (range 4) ++
      [Diag ("Successfully initialized "
             +:+ pretty (count_present (encoders st)) +:+ " encoders")] /\
    ((forall i, (i < 4)%nat -> no_encoder_on board (encoder_candidates i)) ->
     forall buses,
       qtpy_fixed_pins_setup.program board buses =
       (Normal tt,
        printed [Diag "No encoders working! Check wiring and I2C address."] st)) /\
    ((exists i, (i < 4)%nat /\ ~ no_encoder_on board (encoder_candidates i)) ->
     forall buses,
       qtpy_fixed_pins_setup.program board buses =
       qtpy_fixed_pins.main_loop buses
         (printed [Diag "QT-PY Quad Rotary Encoder Controller Ready"] st)).
Proof.
  intros board st.
  destruct (fixed_pins_setup_encoders board) as [He Hb]. fold st in He, Hb.
  assert (Hlook : forall i, (i < 4)%nat ->
            encoders st !! i =
              Some (encoder (qtpy_fixed_pins_setup.setup_channel board i)) /\
            buttons st !! i =
              Some (button (qtpy_fixed_pins_setup.setup_channel board i))).
  { intros i Hi. rewrite He, Hb, !list_lookup_fmap. unfold range.
    rewrite lookup_seq_lt by lia. now split. }
  assert (Hnone : forall i, (i < 4)%nat ->
            (encoders st !! i = Some None <-> no_encoder_on board (encoder_candidates i))).
  { intros i Hi. destruct (Hlook i Hi) as [-> _].
    rewrite <- fixed_pins_channel_encoder_none. split; congruence. }
  assert (Hidle : count_present (encoders st) = 0%nat <->
                  forall i, (i < 4)%nat -> no_encoder_on board (encoder_candidates i)).
  { rewrite count_present_zero, Forall_lookup. split.
    - intros H i Hi. apply Hnone; [assumption |].
      destruct (Hlook i Hi) as [Hl _]. rewrite Hl. f_equal. now apply (H i).
    - intros H i x Hx. assert (Hi : (i < 4)%nat).
      { apply lookup_lt_Some in Hx. rewrite He, length_map in Hx.
        unfold range in Hx. now rewrite length_seq in Hx. }
      pose proof (proj2 (Hnone i Hi) (H i Hi)) as Hn. congruence. }
  conj.
  - repeat split.
  - exact Hnone.
  - intros i Hi Hok. destruct (Hlook i Hi) as [-> ->].
    destruct (fixed_pins_channel_main_pins board i Hok) as (-> & -> & ->).
    now conj.
  - apply fixed_pins_setup_stdout.
  - intros Hdead buses. unfold qtpy_fixed_pins_setup.program. fold st.
    apply Hidle in Hdead. now rewrite Hdead.
  - intros (i & Hi & Hlive) buses. unfold qtpy_fixed_pins_setup.program. fold st.
    destruct (Nat.eqb_spec (count_present (encoders st)) 0) as [Hz |]; [| reflexivity].
    exfalso. apply Hlive. now apply Hidle.
Qed.

(** On the healthy board channel 2 of qtpy_fixed_pins.py is on its main
    pins, 14 and 25, and set-up prints one line for each channel. *)
Lemma fixed_pins_setup_outcome_witness :
  let st := qtpy_fixed_pins_setup.setup healthy_board in
  (encoders st !! 1%nat = Some (Some 14%nat) /\
   buttons st !! 1%nat = Some (Some 25%nat) /\
   map render (said (qtpy_fixed_pins_setup.setup_channel healthy_board 1)) =
     ["Encoder 2 setup with pins 14/25"]) /\
  map render (stdout st) =
    ["Setting up encoders...";
     "Encoder 1 setup with pins 12/24"; "Encoder 2 setup with pins 14/25";
     "Encoder 3 setup with pins 17/26"; "Encoder 4 setup with pins 9/27";
     "Successfully initialized 4 encoders"].
Proof.
  intros st. split.
  - destruct (proj1 (proj2 (proj2 (fixed_pins_setup_outcome healthy_board)))
                1%nat ltac:(lia) eq_refl) as (He & Hb & Hs).
    rewrite Hs. conj; [exact He | exact Hb | reflexivity].
  - subst st.
    rewrite (proj1 (proj2 (proj2 (proj2 (fixed_pins_setup_outcome healthy_board))))).
    reflexivity.
Defined.

(** X10: in the set-up of qtpy_fixed_pins.py the two locals are not reset
    between attempts.  When the main pins give an encoder and a button
    object but the button's direction or pull write fails, the first
    alternative gives an encoder but no button object, and the other two
    alternatives give no encoder, the channel ends up with the encoder of
    the first alternative and the button of the main pins. *)
Theorem fixed_pins_setup_mixes_pin_sets :
  forall board i,
    (i < 4)%nat ->
    let ep0 := (qtpy_fixed_pins_setup.alt_encoder_pins !!! 0%nat) !!! i in
    let bp0 := (qtpy_fixed_pins_setup.alt_button_pins !!! 0%nat) !!! i in
    answered (IncrementalEncoder board (encoder_pins !!! i)) = true ->
    answered (DigitalIO board (button_pins !!! i)) = true ->
    answered (set_direction board (button_pins !!! i)) &&
    answered (set_pull board (button_pins !!! i)) = false ->
    answered (IncrementalEncoder board ep0) = true ->
    answered (DigitalIO board bp0) = false ->
    no_encoder_on board
      (map (fun alt => (qtpy_fixed_pins_setup.alt_encoder_pins !!! alt) !!! i)
           [1; 2]%nat) ->
    let st := qtpy_fixed_pins_setup.setup board in
    encoders st !! i = Some (Some ep0) /\
    buttons st !! i = Some (Some (button_pins !!! i)).
Proof.
  intros board i Hi ep0 bp0 H1 H2 H3 H4 H5 H6 st.
  destruct (fixed_pins_setup_encoders board) as [He Hb]. fold st in He, Hb.
  rewrite He, Hb, !list_lookup_fmap. unfold range.
  rewrite lookup_seq_lt by lia. simpl.
  destruct (fixed_pins_channel_mixed board i H1 H2 H3 H4 H5 H6) as [-> ->].
  now split.
Qed.

(** Channel 1 on the patchy board: encoder on pin 5, button on pin 24. *)
Lemma fixed_pins_setup_mixes_pin_sets_witness :
  let st := qtpy_fixed_pins_setup.setup patchy_board in
  encoders st !! 0%nat = Some (Some 5%nat) /\
  buttons st !! 0%nat = Some (Some 24%nat).
Proof.
  apply (fixed_pins_setup_mixes_pin_sets patchy_board 0%nat);
    [lia | reflexivity | reflexivity | reflexivity | reflexivity | reflexivity |].
  repeat constructor.
Defined.

(** ** Pulling the board off the bus *)
Section Unplugged.
Variable body : Bus -> nat -> Py unit.
Variable loop : list Bus -> Py unit.
Hypothesis body_coupled : coupled_disable body loop.
Hypothesis body_shape : forall bus k, preserves same_shape (body bus k).

Lemma read_fault_untouched bus j st st' e :
  untouched j st st' -> read_fault bus j st e -> read_fault bus j st' e.
Proof.
  intros (He & Hb & _) [(h & H1 & H2) | (h & hb & z & H1 & H2 & H3 & H4)].
  - left. exists h. rewrite He. auto.
  - right. exists h, hb, z. rewrite He, Hb. auto.
Qed.

Lemma silenced_for_in bus (js : list nat) st :
  (forall j, j ∈ js -> encoders st !! j = Some None /\ buttons st !! j = Some None) ->
  for_in js (body bus) st = (Normal tt, st).
Proof.
  destruct body_coupled as (_ & _ & Hskip & _).
  induction js as [| j js IH]; intros H; simpl; [reflexivity |].
  destruct (H j ltac:(left)) as [He Hb].
  rewrite (bind_normal _ _ _ _ _ (Hskip bus j st He Hb)).
  apply IH. intros k Hk. apply H. now right.
Qed.

Lemma silenced_loop buses st :
  silenced st ->
  while_true (fun bus => for_in (range 4) (body bus)) buses st = (Normal tt, st).
Proof.
  intros Hs. unfold while_true. induction buses as [| bus buses IH]; simpl;
    [reflexivity |].
  assert (E : for_in (range 4) (body bus) st = (Normal tt, st)).
  { apply silenced_for_in. intros j Hj. apply Hs. apply elem_of_seq in Hj. lia. }
  rewrite (bind_normal _ _ _ _ _ E). exact IH.
Qed.

Lemma unplugged_for_in bus (js : list nat) :
  NoDup js -> (forall j, j ∈ js -> (j < 4)%nat) ->
  forall st,
    wf st ->
    (forall j, j ∈ js ->
       (encoders st !! j = Some None /\ buttons st !! j = Some None) \/
       (exists e, read_fault bus j st e /\ device_absent e)) ->
    exists st',
      for_in js (body bus) st = (Normal tt, st') /\ wf st' /\
      (forall j, j ∈ js -> encoders st' !! j = Some None /\ buttons st' !! j = Some None) /\
      (forall j, j ∉ js -> untouched j st st').
Proof.
  destruct body_coupled as (Hdis & _ & Hskip & _).
  induction js as [| k js IH]; intros Hnd Hlt st Hwf Hun.
  - exists st. conj; try assumption; try reflexivity.
    + intros j Hj. now apply elem_of_nil in Hj.
    + intros j _. apply untouched_refl.
  - apply NoDup_cons in Hnd as [Hk Hnd].
    assert (Hk4 : (k < 4)%nat) by (apply Hlt; left).
    assert (exists st1,
              body bus k st = (Normal tt, st1) /\
              encoders st1 !! k = Some None /\ buttons st1 !! k = Some None /\
              (forall j, j <> k -> untouched j st st1)) as (st1 & E1 & He1 & Hb1 & Hu1).
    { destruct (Hun k ltac:(left)) as [[He Hb] | (e & Hf & Ha)].
      - exists st. conj; auto. intros j _. apply untouched_refl.
      - exact (Hdis bus k st e Hwf Hk4 Hf Ha). }
    assert (Hwf1 : wf st1).
    { pose proof (body_shape bus k st) as Hs. rewrite E1 in Hs.
      exact (same_shape_wf _ _ Hs Hwf). }
    destruct (IH Hnd (fun j Hj => Hlt j (list_elem_of_further _ _ _ Hj)) st1 Hwf1)
      as (st' & E' & Hwf' & Hnone' & Hu').
    { intros j Hj. assert (Hjk : j <> k) by (intros ->; contradiction).
      pose proof (Hu1 j Hjk) as Hu.
      destruct (Hun j ltac:(now right)) as [[He Hb] | (e & Hf & Ha)].
      - left. destruct Hu as (-> & -> & _). now split.
      - right. exists e. split; [now apply (read_fault_untouched bus j st) | assumption]. }
    exists st'. simpl. rewrite (bind_normal _ _ _ _ _ E1).
    conj; try assumption.
    + intros j Hj. apply elem_of_cons in Hj as [-> | Hj]; [| now apply Hnone'].
      destruct (Hu' k Hk) as (-> & -> & _). now split.
    + intros j Hj. apply not_elem_of_cons in Hj as [Hjk Hj].
      apply untouched_trans with st1; [now apply Hu1 | now apply Hu'].
Qed.

Lemma unplugged_loop bus st :
  wf st -> unplugged bus st ->
  exists st',
    for_in (range 4) (body bus) st = (Normal tt, st') /\ silenced st' /\
    forall rest,
      while_true (fun bus => for_in (range 4) (body bus)) (bus :: rest) st =
      (Normal tt, st').
Proof.
  intros Hwf Hun.
  destruct (unplugged_for_in bus (range 4)) with (st := st)
    as (st' & E' & Hwf' & Hnone & _); try assumption.
  - apply NoDup_seq.
  - intros j Hj. apply elem_of_seq in Hj. lia.
  - intros j Hj. apply Hun. apply elem_of_seq in Hj. lia.
  - assert (Hs : silenced st').
    { intros j Hj. apply Hnone. apply elem_of_seq. lia. }
    exists st'. conj; try assumption.
    intros rest. unfold while_true. simpl. rewrite (bind_normal _ _ _ _ _ E').
    now apply silenced_loop.
Qed.
End Unplugged.

(** X11: pulling the board off the bus silences qtpy_working.py and
    qtpy_simple.py for good.  After a cycle in which every channel that
    still had a handle met a device-absent fault, no channel has a handle
    left, and whatever the bus does in later cycles, the board plugged
    back in included, the loop reads nothing and prints nothing more. *)
Theorem unplugging_is_final :
  forall bus st,
    wf st -> unplugged bus st ->
    (exists st',
        qtpy_working.cycle bus st = (Normal tt, st') /\ silenced st' /\
        forall rest, qtpy_working.main_loop (bus :: rest) st = (Normal tt, st')) /\
    (exists st',
        qtpy_simple.cycle bus st = (Normal tt, st') /\ silenced st' /\
        forall rest, qtpy_simple.main_loop (bus :: rest) st = (Normal tt, st')).
Proof.
  intros bus st Hwf Hun. split.
  - exact (unplugged_loop qtpy_working.loop_body qtpy_working.main_loop
             working_coupled same_shape_working bus st Hwf Hun).
  - exact (unplugged_loop qtpy_simple.loop_body qtpy_simple.main_loop
             simple_coupled same_shape_simple bus st Hwf Hun).
Qed.

(** The board is pulled in the first cycle of qtpy_working.py and put
    back for the second. *)
Lemma unplugging_is_final_witness :
  let st := qtpy_working.entry standard_encoders standard_buttons in
  exists st',
    qtpy_working.cycle board_gone st = (Normal tt, st') /\ silenced st' /\
    forall rest, qtpy_working.main_loop (board_gone :: rest) st = (Normal tt, st').
Proof.
  intros st.
  apply (proj1 (unplugging_is_final board_gone st ltac:(repeat split)
                  ltac:(intros i Hi; right;
                        exists "[Errno 19] No such device"; split; [| reflexivity];
                        left;
                        do 4 (destruct i as [| i];
                              [eexists; split; reflexivity |]); lia))).
Defined.

(** ** The loop of qtpy_pullups.py keeps the console clean *)
Section Pullups.
Import qtpy_pullups_polling.

Lemma events_only_refl st : events_only st st.
Proof. exists []. split; [now rewrite app_nil_r | constructor]. Qed.

Lemma events_only_trans a b c : events_only a b -> events_only b c -> events_only a c.
Proof.
  intros (n1 & H1 & F1) (n2 & H2 & F2). exists (n1 ++ n2). split.
  - now rewrite H2, H1, app_assoc.
  - now apply Forall_app.
Qed.

Lemma events_only_line l st st' :
  stdout st' = stdout st ++ [l] -> is_event l = true -> events_only st st'.
Proof. intros H E. exists [l]. split; [assumption | now constructor]. Qed.

Lemma events_only_loop_body bus k : preserves events_only (loop_body bus k).
Proof.
  unfold loop_body.
  apply (preserves_bind _ events_only_trans).
  { apply (preserves_pure _ events_only_refl). apply pure_getitem. }
  intros [h |]; [| apply (preserves_pure _ events_only_refl); apply pure_ret].
  apply (preserves_try _ events_only_trans).
  - apply (script_guarded_pair _ events_only_refl events_only_trans).
    + intros j cur l st _ _. eapply events_only_line; reflexivity.
    + intros j b lb st _ _. eapply events_only_line; [reflexivity | now destruct b].
  - intros e. unfold handler. apply (preserves_when _ events_only_refl).
    apply (preserves_bind _ events_only_trans); [| intros _];
      (apply preserves_assign; [apply events_only_refl |]);
      intros st; exact (events_only_refl st).
Qed.

Lemma pullups_encoder_fault bus i st h e :
  encoders st !! i = Some (Some h) -> position (bus i) = Fault e ->
  loop_body bus i st = handler i e st.
Proof.
  intros He Hp. unfold loop_body.
  rewrite (bind_normal _ _ _ _ _ (getitem_some _ _ encoders _ He)).
  apply try_raised. apply bind_raised.
  now apply raw_encoder_step_fault with h.
Qed.

Lemma pullups_handler_transient i st e :
  transient e -> handler i e st = (Normal tt, st).
Proof. intros Hc. unfold handler. now rewrite Hc. Qed.

Lemma pullups_handler_absent i st e :
  device_absent e ->
  (i < length (encoders st))%nat -> (i < length (buttons st))%nat ->
  handler i e st = (Normal tt, disabled i st).
Proof.
  intros Hc He Hb. unfold handler. rewrite Hc. simpl.
  unfold bind, set_encoder, set_button, assign_checked. simpl.
  destruct (Nat.ltb_spec i (length (encoders st))); [| lia]. simpl.
  destruct (Nat.ltb_spec i (length (buttons st))); [| lia].
  reflexivity.
Qed.
End Pullups.

(** X12: the polling loop of qtpy_pullups.py never puts a diagnostic on
    the console: over any run, on any bus, every line it prints is an
    encoder or button event.  A fault on the encoder read that is not of
    the device-absent kind leaves no trace at all, the state after the
    turn is the state before it; a device-absent one sets both handles of
    the channel to [None], equally without a word. *)
Theorem pullups_loop_prints_only_events :
  (forall buses st,
      exists new,
        stdout (snd (qtpy_pullups_polling.main_loop buses st)) = stdout st ++ new /\
        Forall (fun l => is_event l = true) new) /\
  (forall bus i st h e,
      encoders st !! i = Some (Some h) -> position (bus i) = Fault e ->
      transient e ->
      qtpy_pullups_polling.loop_body bus i st = (Normal tt, st)) /\
  (forall bus i st h e,
      wf st -> (i < 4)%nat ->
      encoders st !! i = Some (Some h) -> position (bus i) = Fault e ->
      device_absent e ->
      qtpy_pullups_polling.loop_body bus i st = (Normal tt, disabled i st)).
Proof.
  conj.
  - intros buses.
    apply (script_loop events_only events_only_refl events_only_trans
             qtpy_pullups_polling.loop_body).
    apply events_only_loop_body.
  - intros bus i st h e He Hp Ht.
    rewrite (pullups_encoder_fault bus i st h e He Hp).
    now apply pullups_handler_transient.
  - intros bus i st h e Hwf Hi He Hp Ha.
    destruct (wf_lengths st i Hwf Hi) as (L1 & L2 & _).
    rewrite (pullups_encoder_fault bus i st h e He Hp).
    now apply pullups_handler_absent.
Qed.

(** One input/output error on encoder 1 of qtpy_pullups.py. *)
Lemma pullups_loop_prints_only_events_witness :
  let st := loop_entry standard_encoders standard_buttons false in
  qtpy_pullups_polling.loop_body encoder1_glitch 0 st = (Normal tt, st).
Proof.
  intros st.
  apply (proj1 (proj2 pullups_loop_prints_only_events) encoder1_glitch 0%nat st
           12%nat "[Errno 5] Input/output error"); reflexivity.
Defined.

(** ** The set-up of qtpy_simple_rotary.py *)
Section SimpleRotarySetup.
Import qtpy_simple_rotary_setup.
Variable board : Board.

Lemma simple_rotary_channel i :
  fst (fst (setup_channel board i)) =
    (if answered (IncrementalEncoder board (encoder_pins !!! i))
     then if half_built board i
          then [Some (encoder_pins !!! i); None]
          else [Some (encoder_pins !!! i)]
     else [None]) /\
  snd (fst (setup_channel board i)) =
    (if answered (IncrementalEncoder board (encoder_pins !!! i)) &&
        negb (half_built board i)
     then [Some (button_pins !!! i)] else [None]).
Proof.
  unfold setup_channel, half_built. cbv zeta.
  destruct (IncrementalEncoder board (encoder_pins !!! i)),
    (DigitalIO board (button_pins !!! i)),
    (set_direction board (button_pins !!! i)),
    (set_pull board (button_pins !!! i)); split; reflexivity.
Qed.

Lemma simple_rotary_lists :
  encoders (setup board) =
    concat (map (fun i => fst (fst (setup_channel board i))) (range 4)) /\
  buttons (setup board) =
    concat (map (fun i => snd (fst (setup_channel board i))) (range 4)).
Proof.
  unfold setup, range. simpl.
  destruct (setup_channel board 0) as [[es0 bs0] ls0].
  destruct (setup_channel board 1) as [[es1 bs1] ls1].
  destruct (setup_channel board 2) as [[es2 bs2] ls2].
  destruct (setup_channel board 3) as [[es3 bs3] ls3].
  simpl. rewrite !app_nil_r, <- !app_assoc. now split.
Qed.

Lemma half_built_answered i :
  answered (IncrementalEncoder board (encoder_pins !!! i)) = false ->
  half_built board i = false.
Proof. intros H. unfold half_built. now rewrite H. Qed.

Lemma simple_rotary_setup_lengths :
  length (buttons (setup board)) = 4%nat /\
  length (encoders (setup board)) =
    (4 + length (List.filter (half_built board) (range 4)))%nat.
Proof.
  destruct simple_rotary_lists as [He Hb].
  rewrite He, Hb. unfold range. simpl seq. simpl map. simpl List.filter.
  rewrite !(proj1 (simple_rotary_channel _)), !(proj2 (simple_rotary_channel _)).
  split.
  - destruct (answered (IncrementalEncoder board (encoder_pins !!! 0%nat)) && _),
      (answered (IncrementalEncoder board (encoder_pins !!! 1%nat)) && _),
      (answered (IncrementalEncoder board (encoder_pins !!! 2%nat)) && _),
      (answered (IncrementalEncoder board (encoder_pins !!! 3%nat)) && _);
      reflexivity.
  - destruct (answered (IncrementalEncoder board (encoder_pins !!! 0%nat))) eqn:A0;
      [| rewrite (half_built_answered 0%nat A0)];
    destruct (answered (IncrementalEncoder board (encoder_pins !!! 1%nat))) eqn:A1;
      try rewrite (half_built_answered 1%nat A1);
    destruct (answered (IncrementalEncoder board (encoder_pins !!! 2%nat))) eqn:A2;
      try rewrite (half_built_answered 2%nat A2);
    destruct (answered (IncrementalEncoder board (encoder_pins !!! 3%nat))) eqn:A3;
      try rewrite (half_built_answered 3%nat A3);
    destruct (half_built board 0), (half_built board 1),
      (half_built board 2), (half_built board 3); reflexivity.
Qed.
End SimpleRotarySetup.

(** X13: the set-up loop of qtpy_simple_rotary.py appends the encoder
    before it builds the button and appends [None] to both lists when
    anything fails.  [buttons] always gets four entries, but [encoders]
    gets one entry more for every channel whose encoder was built and whose
    button was not, so the two lists are of equal length only when no
    channel is half built; when channel 1 is, slot 1 of [encoders] (polled
    as channel 2) is the [None] appended by the handler and the encoder of
    channel 2 sits in slot 2 (polled as channel 3). *)
Theorem simple_rotary_setup_misaligns :
  forall board,
    let st := qtpy_simple_rotary_setup.setup board in
    length (buttons st) = 4%nat /\
    length (encoders st) =
      (4 + length (List.filter (half_built board) (range 4)))%nat /\
    (half_built board 0 = true ->
     encoders st !! 0%nat = Some (Some (encoder_pins !!! 0%nat)) /\
     encoders st !! 1%nat = Some None /\
     buttons st !! 0%nat = Some None /\
     (answered (IncrementalEncoder board (encoder_pins !!! 1%nat)) = true ->
      encoders st !! 2%nat = Some (Some (encoder_pins !!! 1%nat)))).
Proof.
  intros board st.
  destruct (simple_rotary_setup_lengths board) as [Lb Le]. fold st in Lb, Le.
  conj; [exact Lb | exact Le |].
  destruct (simple_rotary_lists board) as [He Hb]. fold st in He, Hb.
  rewrite He, Hb. unfold range. simpl seq. simpl map.
  rewrite !(proj1 (simple_rotary_channel board _)),
    !(proj2 (simple_rotary_channel board _)).
  intros H0. rewrite H0.
  assert (A0 : answered (IncrementalEncoder board (encoder_pins !!! 0%nat)) = true)
    by (unfold half_built in H0; now apply andb_true_iff in H0 as [H0 _]).
  rewrite A0. simpl. conj; try reflexivity.
  intros A1. rewrite A1. now destruct (half_built board 1).
Qed.

(** On the board whose buttons refuse the direction write every channel
    is half built: [encoders] ends up with eight entries. *)
Lemma simple_rotary_setup_misaligns_witness :
  let st := qtpy_simple_rotary_setup.setup deaf_buttons_board in
  encoders st !! 0%nat = Some (Some (encoder_pins !!! 0%nat)) /\
  encoders st !! 1%nat = Some None /\
  buttons st !! 0%nat = Some None /\
  (answered (IncrementalEncoder deaf_buttons_board (encoder_pins !!! 1%nat)) = true ->
   encoders st !! 2%nat = Some (Some (encoder_pins !!! 1%nat))).
Proof.
  apply (proj2 (proj2 (simple_rotary_setup_misaligns deaf_buttons_board))).
  reflexivity.
Defined.

(** ** The two halves in qtpy_debug_buttons.py *)
Section DebugButtons.
Import qtpy_debug_buttons.

Lemma e3_deltas_app l1 l2 : e3_deltas (l1 ++ l2) = e3_deltas l1 ++ e3_deltas l2.
Proof. unfold e3_deltas. apply omap_app. Qed.

(** With the button gone a good encoder read is all a turn does. *)
Lemma cycle_encoder_only r v cur :
  button3 v = None -> position r = Value cur ->
  exists v',
    cycle r v = (Normal tt, v') /\ button3 v' = None /\
    last_position v' = cur /\
    last_button v' = last_button v /\ counter v' = (counter v + 1)%nat /\
    exists new,
      out v' = out v ++ new /\ Forall (fun l => exists d, l = E 3 d) new /\
      sumZ (e3_deltas new) = cur - last_position v.
Proof.
  intros Hb Hp. unfold cycle. rewrite Hp. simpl.
  destruct (Z.eqb_spec cur (last_position v)) as [-> | Hne]; simpl; rewrite Hb.
  - eexists. conj; try reflexivity. exists []. simpl. rewrite app_nil_r.
    conj; [reflexivity | constructor | lia].
  - eexists. conj; try reflexivity. exists [E 3 (cur - last_position v)].
    conj; [reflexivity | | simpl; lia].
    constructor; [eauto | constructor].
Qed.

Lemma main_loop_encoder_only reads :
  forall v,
    button3 v = None ->
    Forall (fun r => exists z, position r = Value z) reads ->
    exists v',
      main_loop reads v = (Normal tt, v') /\ button3 v' = None /\
      last_button v' = last_button v /\
      counter v' = (counter v + length reads)%nat /\
      exists new,
        out v' = out v ++ new /\ Forall (fun l => exists d, l = E 3 d) new /\
        sumZ (e3_deltas new) = last_position v' - last_position v.
Proof.
  induction reads as [| r reads IH]; intros v Hb Hall.
  - exists v. conj; try reflexivity; try assumption; [simpl; lia |].
    exists []. rewrite app_nil_r. conj; [reflexivity | constructor | simpl; lia].
  - apply Forall_cons in Hall as [[z Hz] Hall].
    destruct (cycle_encoder_only r v z Hb Hz)
      as (v1 & E1 & Hb1 & Hl1 & Hlb1 & Hc1 & n1 & O1 & F1 & S1).
    destruct (IH v1 Hb1 Hall) as (v' & E' & Hb' & Hlb' & Hc' & n2 & O2 & F2 & S2).
    exists v'. simpl. rewrite E1. conj; try assumption.
    + congruence.
    + rewrite Hc', Hc1. lia.
    + exists (n1 ++ n2). conj.
      * now rewrite O2, O1, app_assoc.
      * now apply Forall_app.
      * rewrite e3_deltas_app, sumZ_app. lia.
Qed.
End DebugButtons.

(** X14: in qtpy_debug_buttons.py the two halves are treated differently.
    A fault of any kind on the button read costs the button and nothing
    else: the turn returns in exactly the state a good turn without button
    would have left (the counter one up, the position just read kept and
    its "E3" line, if it moved, printed, [last_button] as it was), but for
    the "Button read error" line and [button3] set to [None].  From then
    on, as long as the encoder answers, the loop goes on: it prints "E3"
    lines and nothing else, whose deltas add up to the change of
    [last_position], [last_button] stays what it was and the counter
    counts the turns.  A fault on the encoder read is not caught: it ends
    the loop at once, nothing printed, nothing changed but the counter. *)
Theorem debug_buttons_drops_button_only :
  (forall r v pin cur e,
      qtpy_debug_buttons.button3 v = Some pin ->
      position r = Value cur -> value r = Fault e ->
      qtpy_debug_buttons.cycle r v =
      (Normal tt,
       qtpy_debug_buttons.mkVars
         None cur (qtpy_debug_buttons.last_button v)
         (qtpy_debug_buttons.counter v + 1)
         (qtpy_debug_buttons.out v ++
          (if cur =? qtpy_debug_buttons.last_position v then []
           else [E 3 (cur - qtpy_debug_buttons.last_position v)]) ++
          [Diag ("Button read error: " +:+ e)]))) /\
  (forall reads v,
      qtpy_debug_buttons.button3 v = None ->
      Forall (fun r => exists z, position r = Value z) reads ->
      exists v',
        qtpy_debug_buttons.main_loop reads v = (Normal tt, v') /\
        qtpy_debug_buttons.button3 v' = None /\
        qtpy_debug_buttons.last_button v' = qtpy_debug_buttons.last_button v /\
        qtpy_debug_buttons.counter v' =
          (qtpy_debug_buttons.counter v + length reads)%nat /\
        exists new,
          qtpy_debug_buttons.out v' = qtpy_debug_buttons.out v ++ new /\
          Forall (fun l => exists d, l = E 3 d) new /\
          sumZ (e3_deltas new) =
          qtpy_debug_buttons.last_position v' - qtpy_debug_buttons.last_position v) /\
  (forall r rest v e,
      position r = Fault e ->
      qtpy_debug_buttons.main_loop (r :: rest) v =
      (Raised e,
       qtpy_debug_buttons.mkVars
         (qtpy_debug_buttons.button3 v) (qtpy_debug_buttons.last_position v)
         (qtpy_debug_buttons.last_button v) (qtpy_debug_buttons.counter v + 1)
         (qtpy_debug_buttons.out v))).
Proof.
  conj.
  - intros r v pin cur e Hb Hp Hv. unfold qtpy_debug_buttons.cycle.
    rewrite Hp. simpl.
    destruct (Z.eqb_spec cur (qtpy_debug_buttons.last_position v)) as [-> | Hne];
      simpl; rewrite Hb; unfold qtpy_debug_buttons.check_button; rewrite Hv;
      simpl; rewrite <- ?app_assoc; reflexivity.
  - intros reads v. apply main_loop_encoder_only.
  - intros r rest v e Hp. simpl. unfold qtpy_debug_buttons.cycle. rewrite Hp.
    reflexivity.
Qed.

(** The button read of qtpy_debug_buttons.py fails in the first turn,
    while the encoder has moved to 4. *)
Lemma debug_buttons_drops_button_only_witness :
  qtpy_debug_buttons.cycle
    (mkReads (Value 4) (Fault "[Errno 5] Input/output error"))
    (qtpy_debug_buttons.entry (Some 26%nat)) =
  (Normal tt,
   qtpy_debug_buttons.mkVars None 4 (Some true) 1
     [E 3 4; Diag "Button read error: [Errno 5] Input/output error"]).
Proof.
  apply (proj1 debug_buttons_drops_button_only
           (mkReads (Value 4) (Fault "[Errno 5] Input/output error"))
           (qtpy_debug_buttons.entry (Some 26%nat)) 26%nat 4
           "[Errno 5] Input/output error"); reflexivity.
Defined.

(** X15: the request body built by [LocalLLM.generate] in
    local_llm_tool.py always carries the model, the prompt, [stream] set to
    false and the temperature; it carries a [system] entry exactly when a
    non-empty system message was given, and a [num_predict] option exactly
    when [max_tokens] was given and is not 0: an empty system message and
    [max_tokens = 0] are dropped in silence. *)
Theorem generate_payload_fields :
  forall (T : Type) model prompt system (temperature : T) max_tokens,
    let p := local_llm_tool.payload model prompt system temperature max_tokens in
    let o := local_llm_tool.options temperature max_tokens in
    local_llm_tool.get "model" p =
      Some (local_llm_tool.JPlain (local_llm_tool.JStr model)) /\
    local_llm_tool.get "prompt" p =
      Some (local_llm_tool.JPlain (local_llm_tool.JStr prompt)) /\
    local_llm_tool.get "stream" p =
      Some (local_llm_tool.JPlain (local_llm_tool.JBool false)) /\
    local_llm_tool.get "options" p = Some (local_llm_tool.JObj o) /\
    local_llm_tool.get "temperature" o = Some (local_llm_tool.JTemp temperature) /\
    local_llm_tool.get "system" p =
      match system with
      | Some s => if String.eqb s "" then None
                  else Some (local_llm_tool.JPlain (local_llm_tool.JStr s))
      | None => None
      end /\
    local_llm_tool.get "num_predict" o =
      match max_tokens with
      | Some n => if n =? 0 then None else Some (local_llm_tool.JInt n)
      | None => None
      end.
Proof.
  intros T model prompt system temperature max_tokens p o. subst p o.
  unfold local_llm_tool.payload, local_llm_tool.options.
  destruct system as [s |], max_tokens as [n |]; simpl;
    try destruct (String.eqb s ""); try destruct (n =? 0); simpl;
    repeat split.
Qed.

(** ** qtpy_encoder_script.py starts from the resting level *)
Section EncoderScript.
Import qtpy_encoder_script.

Lemma encoder_script_entry_wf : wf entry.
Proof. repeat split. Qed.

Lemma encoder_script_entry_all_present : all_present entry.
Proof.
  intros j Hj. do 4 (destruct j as [| j]; [split; eexists; reflexivity |]). lia.
Qed.

Lemma encoder_script_cycle_at_rest bus :
  at_rest bus -> cycle bus entry = (Normal tt, entry).
Proof.
  intros H.
  destruct (H 0%nat ltac:(lia)) as [P0 V0], (H 1%nat ltac:(lia)) as [P1 V1],
    (H 2%nat ltac:(lia)) as [P2 V2], (H 3%nat ltac:(lia)) as [P3 V3].
  unfold cycle, range, loop_body, raw_encoder_step, button_step,
    encoder_position, button_value, read_attr, entry, loop_entry.
  simpl. unfold bind, getitem. simpl.
  rewrite P0, V0. simpl. rewrite P1, V1. simpl.
  rewrite P2, V2. simpl. rewrite P3, V3. reflexivity.
Qed.

Lemma encoder_script_loop_at_rest buses :
  Forall at_rest buses -> main_loop buses entry = (Normal tt, entry).
Proof.
  induction 1 as [| bus buses Hb _ IH]; [reflexivity |].
  unfold main_loop, while_true in *. simpl.
  rewrite (bind_normal _ _ _ _ _ (encoder_script_cycle_at_rest bus Hb)).
  exact IH.
Qed.
End EncoderScript.

(** X16: qtpy_encoder_script.py starts [last_buttons] at the resting level
    of its pulled-up buttons.  However many cycles pass with nothing turned
    and nothing pressed, it prints nothing and its state stays what it was
    at the start; over any run the first button line of a channel, if there
    is one, is a PRESS; and, no read being guarded, the first read that
    fails, after any number of cycles without a fault and whatever they
    did, ends the program with that error: what the bus would have done
    in later cycles makes no difference. *)
Theorem encoder_script_quiet_until_touched :
  (forall buses,
      Forall at_rest buses ->
      qtpy_encoder_script.main_loop buses qtpy_encoder_script.entry =
      (Normal tt, qtpy_encoder_script.entry)) /\
  (forall buses i,
      (i < 4)%nat ->
      let levels :=
        button_levels (i + 1)
          (stdout (snd (qtpy_encoder_script.main_loop buses
                          qtpy_encoder_script.entry))) in
      levels = [] \/ exists rest, levels = false :: rest) /\
  (forall before bus i e,
      Forall fault_free before ->
      (i < 4)%nat ->
      (forall j, (j < i)%nat -> good_reads bus j) ->
      bad_read bus i e ->
      exists st',
        forall rest,
          qtpy_encoder_script.main_loop (before ++ bus :: rest)
            qtpy_encoder_script.entry = (Raised e, st')).
Proof.
  conj.
  - apply encoder_script_loop_at_rest.
  - intros buses i Hi levels.
    destruct (proj1 (proj1 (edges_alternate_all_loops i)) buses
                qtpy_encoder_script.entry) as (new & Hout & Ha).
    destruct (Ha true) as [Halt _].
    { do 4 (destruct i as [| i]; [reflexivity |]). lia. }
    subst levels.
    change (qtpy_encoder_script.main_loop buses qtpy_encoder_script.entry)
      with (qtpy_quad_rotary_script.main_loop buses qtpy_encoder_script.entry).
    rewrite Hout. simpl.
    destruct (button_levels (i + 1) new) as [| b rest]; [now left |].
    right. exists rest. destruct Halt as [-> _]. reflexivity.
  - intros before bus i e Hbefore Hi Hgood Hbad.
    destruct (main_loop_fault_free before Hbefore qtpy_encoder_script.entry
                encoder_script_entry_wf encoder_script_entry_all_present)
      as (st1 & E1 & Hwf1 & Hp1 & _).
    destruct (quad_rotary_fault_propagates bus i st1 e Hwf1 Hp1 Hi Hgood Hbad)
      as (st' & Hrun & _).
    exists st'. intros rest.
    change (qtpy_encoder_script.main_loop (before ++ bus :: rest)
              qtpy_encoder_script.entry)
      with (for_in (before ++ bus :: rest) qtpy_quad_rotary_script.cycle
              qtpy_encoder_script.entry).
    rewrite for_in_app.
    change (for_in before qtpy_quad_rotary_script.cycle)
      with (qtpy_quad_rotary_script.main_loop before).
    rewrite (bind_normal _ _ _ _ _ E1). apply Hrun.
Qed.

(** Two idle cycles of qtpy_encoder_script.py, then button 3 goes down;
    and encoder 2 is turned in one cycle, then its read fails in the next. *)
Lemma encoder_script_quiet_until_touched_witness :
  qtpy_encoder_script.main_loop (firstn 2 rest_rest_press3)
    qtpy_encoder_script.entry = (Normal tt, qtpy_encoder_script.entry) /\
  map render
    (stdout (snd (qtpy_encoder_script.main_loop rest_rest_press3
                    qtpy_encoder_script.entry))) = ["B3:PRESS"] /\
  exists st',
    forall rest,
      qtpy_encoder_script.main_loop
        ([only 1 (mkReads (Value 3) (Value true))] ++
         only 1 (mkReads (Fault "[Errno 5] Input/output error") (Value true))
         :: rest)
        qtpy_encoder_script.entry =
      (Raised "[Errno 5] Input/output error", st').
Proof.
  conj.
  - apply (proj1 encoder_script_quiet_until_touched).
    repeat constructor.
  - vm_compute. reflexivity.
  - apply (proj2 (proj2 encoder_script_quiet_until_touched)
             [only 1 (mkReads (Value 3) (Value true))]
             (only 1 (mkReads (Fault "[Errno 5] Input/output error") (Value true)))
             1%nat "[Errno 5] Input/output error").
    + constructor; [| constructor]. intros j Hj. unfold good_reads, only.
      destruct (decide (j = 1%nat)); split; eexists; reflexivity.
    + lia.
    + intros j Hj. assert (j = 0%nat) as -> by lia.
      split; eexists; reflexivity.
    + left. reflexivity.
Defined.

(** ** qtpy_simple_rotary.py: set-up and loop together *)
Section SimpleRotary.
Import qtpy_simple_rotary.

Lemma simple_rotary_same_handles bus k :
  preserves same_handles (loop_body bus k).
Proof.
  unfold loop_body.
  apply (preserves_bind same_handles same_handles_trans).
  { apply (preserves_pure same_handles same_handles_refl). apply pure_getitem. }
  intros [h |];
    [| apply (preserves_pure same_handles same_handles_refl); apply pure_ret].
  apply (preserves_try same_handles same_handles_trans).
  - apply (script_guarded_pair same_handles same_handles_refl same_handles_trans);
      intros; now split.
  - intros e st. now split.
Qed.

Lemma simple_rotary_body_returns bus k st :
  (k < length (encoders st))%nat ->
  exists st', loop_body bus k st = (Normal tt, st') /\ same_handles st st'.
Proof.
  intros Hk. assert (Hs := simple_rotary_same_handles bus k st).
  destruct (lookup_lt_is_Some_2 _ _ Hk) as [enc He].
  unfold loop_body in *.
  rewrite (bind_normal _ _ _ _ _ (getitem_some k st encoders enc He)) in *.
  destruct enc as [h |]; [| exists st; split; [reflexivity | assumption]].
  assert (Hn := never_raises_try_print
                  (raw_encoder_step bus k ;; guarded_button_step bus k)
                  (fun e => Diag ("Error reading encoder " +:+ pretty (k + 1)%nat
                                  +:+ ": " +:+ e)) st).
  unfold handler in *.
  destruct (try_except _ _ st) as [[[] | e] st'] eqn:E; simpl in *;
    [| discriminate].
  exists st'. now split.
Qed.

Lemma simple_rotary_run buses st :
  (4 <= length (encoders st))%nat ->
  exists st',
    main_loop buses st = (Normal tt, st') /\
    (4 <= length (encoders st'))%nat /\ same_handles st st'.
Proof.
  revert st. unfold main_loop, while_true.
  apply (for_in_invariant (fun st => (4 <= length (encoders st))%nat)
           same_handles cycle (fun _ => True));
    [apply same_handles_refl | apply same_handles_trans | | now apply Forall_true].
  intros bus st _ Hlen. revert st Hlen. unfold cycle.
  apply (for_in_invariant (fun st => (4 <= length (encoders st))%nat)
           same_handles (loop_body bus) (fun k => (k < 4)%nat));
    [apply same_handles_refl | apply same_handles_trans | |].
  - intros k st Hk Hlen.
    destruct (simple_rotary_body_returns bus k st ltac:(lia)) as (st' & E & Hs).
    exists st'. conj; try assumption. destruct Hs as [-> _]. assumption.
  - apply Forall_forall. intros k Hk. apply elem_of_seq in Hk. lia.
Qed.
End SimpleRotary.

(** X17: qtpy_simple_rotary.py, from the set-up loop through any run of
    the polling loop, never ends and never gives a channel up: whatever the
    board did during set-up and whatever the bus does afterwards, the
    program returns and both handle lists are what set-up left.  A failed
    encoder read costs the channel its turn and no more: one "Error
    reading encoder" line is printed, the button is not looked at, and the
    state is otherwise unchanged, so the read is tried again in the next
    cycle. *)
Theorem simple_rotary_never_stops_never_disables :
  (forall board buses,
      let st0 := qtpy_simple_rotary_setup.setup board in
      exists st',
        qtpy_simple_rotary.program board buses = (Normal tt, st') /\
        encoders st' = encoders st0 /\ buttons st' = buttons st0) /\
  (forall bus i st h e,
      encoders st !! i = Some (Some h) ->
      position (bus i) = Fault e ->
      qtpy_simple_rotary.loop_body bus i st =
      (Normal tt,
       printed [Diag ("Error reading encoder " +:+ pretty (i + 1)%nat
                      +:+ ": " +:+ e)] st)).
Proof.
  split.
  - intros board buses st0.
    destruct (simple_rotary_run buses st0) as (st' & E & _ & He & Hb).
    { subst st0.
      destruct (simple_rotary_setup_lengths board) as [_ ->]. lia. }
    exists st'. unfold qtpy_simple_rotary.program. fold st0. now rewrite E.
  - intros bus i st h e He Hp. unfold qtpy_simple_rotary.loop_body.
    rewrite (bind_normal _ _ _ _ _ (getitem_some i st encoders (Some h) He)).
    assert (E : (raw_encoder_step bus i ;; guarded_button_step bus i) st =
                (Raised e, st))
      by (apply bind_raised; now apply raw_encoder_step_fault with h).
    now rewrite (try_raised _ _ _ _ _ E).
Qed.

(** The board answered during set-up and is then pulled off the bus:
    channel 1 of qtpy_simple_rotary.py logs the error and stays. *)
Lemma simple_rotary_never_stops_never_disables_witness :
  let st := qtpy_simple_rotary_setup.setup healthy_board in
  qtpy_simple_rotary.loop_body board_gone 0 st =
  (Normal tt,
   printed [Diag ("Error reading encoder " +:+ pretty (0 + 1)%nat
                  +:+ ": " +:+ "[Errno 19] No such device")] st).
Proof.
  intros st.
  apply (proj2 simple_rotary_never_stops_never_disables board_gone 0%nat st 12%nat);
    reflexivity.
Defined.
